(** * The PixlCore API layer (lib/api.js): fetch, render and cache pipeline

    A shallow embedding of [lib/api.js]: the regular expressions the file
    uses, the blockquote renderer installed into the Markdown renderer, the
    article preload with its word count and front-matter extraction, and the
    cached fetch and render functions together with the blog page handler,
    the request dispatcher, and the page, document, home and feed handlers.

    Text is a [string] of 8-bit characters, standing for the code units of
    a JavaScript string below 256. *)

From Stdlib Require Import ZArith NArith Ascii String List Bool Lia DecimalString.
From stdpp Require Import base option list strings gmap.

Local Open Scope N_scope.

(** ** Characters and JavaScript string helpers *)

Module JS.

Definition code (c : ascii) : N := N_of_ascii c.

Definition between (lo hi : N) (c : ascii) : bool :=
  (lo <=? code c) && (code c <=? hi).

(** [\w] without the unicode or ignore-case flags: [A-Za-z0-9_]. *)
Definition is_word (c : ascii) : bool :=
  between 48 57 c || between 65 90 c || between 97 122 c || (code c =? 95).

(** [\s]: tab, line feed, vertical tab, form feed, carriage return, space
    and no-break space (the white space and line terminators below 256). *)
Definition is_space (c : ascii) : bool :=
  between 9 13 c || (code c =? 32) || (code c =? 160).

(** [.] without the dotAll flag: anything but a line terminator. *)
Definition is_dot (c : ascii) : bool :=
  negb ((code c =? 10) || (code c =? 13)).

(** [[\s\S]] and [[\S\s]]: any character. *)
Definition is_any (_ : ascii) : bool := true.

(** [[^x]]: any character but [x]. *)
Definition is_not (x c : ascii) : bool := negb (Ascii.eqb c x).

Definition lower_char (c : ascii) : ascii :=
  if between 65 90 c then ascii_of_N (code c + 32) else c.

Definition upper_char (c : ascii) : ascii :=
  if between 97 122 c then ascii_of_N (code c - 32) else c.

Fixpoint map_chars (f : ascii -> ascii) (s : string) : string :=
  match s with
  | EmptyString => EmptyString
  | String c s' => String (f c) (map_chars f s')
  end.

(** [String.prototype.toLowerCase] and [toUpperCase]; the source applies
    them to [\w+] captures only, where the ASCII case map is exact. *)
Definition toLowerCase : string -> string := map_chars lower_char.
Definition toUpperCase : string -> string := map_chars upper_char.

Fixpoint all_chars (p : ascii -> bool) (s : string) : bool :=
  match s with
  | EmptyString => true
  | String c s' => p c && all_chars p s'
  end.

Fixpoint trim_start (s : string) : string :=
  match s with
  | String c s' => if is_space c then trim_start s' else s
  | EmptyString => EmptyString
  end.

(** Drops the trailing white space: a character is dropped when
    everything after it has been dropped and it is white space. *)
Fixpoint trim_end (s : string) : string :=
  match s with
  | EmptyString => EmptyString
  | String c s' =>
      match trim_end s' with
      | EmptyString => if is_space c then EmptyString else String c EmptyString
      | t => String c t
      end
  end.

(** The length of the longest prefix made of characters of a class. *)
Fixpoint span (p : ascii -> bool) (s : string) : nat :=
  match s with
  | String c s' => if p c then S (span p s') else O
  | EmptyString => O
  end.

(** [String.prototype.trim]. *)
Definition trim (s : string) : string := trim_end (trim_start s).

Fixpoint strip_prefix (p s : string) : option string :=
  match p, s with
  | EmptyString, _ => Some s
  | String a p', String b s' => if Ascii.eqb a b then strip_prefix p' s' else None
  | String _ _, EmptyString => None
  end.

Fixpoint take (n : nat) (s : string) : string :=
  match n, s with
  | S n', String c s' => String c (take n' s')
  | _, _ => EmptyString
  end.

Fixpoint drop (n : nat) (s : string) : string :=
  match n, s with
  | S n', String _ s' => drop n' s'
  | _, _ => s
  end.

(** The double quote character and the line feed, as strings. *)
Definition dq : string := String (ascii_of_N 34) EmptyString.
Definition nl : string := String (ascii_of_N 10) EmptyString.

(** [s.includes(sub)]: [sub] occurs somewhere in [s]. *)
Fixpoint includes (sub s : string) : bool :=
  match strip_prefix sub s with
  | Some _ => true
  | None =>
      match s with
      | String _ s' => includes sub s'
      | EmptyString => false
      end
  end.

(** [s.substring(a, b)] for [a <= b]. *)
Definition substring (a b : nat) (s : string) : string :=
  take (b - a) (drop a s).

End JS.

(** ** Regular expressions

    Every regular expression of [lib/api.js] is a sequence of literal
    characters, character classes under [+], [*], [+?], capture groups and
    the anchors [^] and [$]; there is no alternation and no quantifier over
    a group.  A pattern is therefore a list of atoms, and the matcher is the
    backtracking matcher of the language: a greedy quantifier tries the
    longest run first, a lazy one the shortest, and each gives way when the
    rest of the pattern fails. *)

Module Regex.
Import JS.

Inductive atom : Type :=
| Lit (s : string)                                   (* literal text *)
| Rep (greedy : bool) (min : nat) (cls : ascii -> bool)  (* cls+ cls* cls+? *)
| Open (i : nat)                                     (* "(" of group i *)
| Close (i : nat)                                    (* ")" of group i *)
| Bos                                                (* ^ *)
| Eos.                                               (* $ *)

Definition regex := list atom.

(** Offsets of the groups, counted from the start of the match. *)
Record caps : Type := mkCaps {
  opened : list (nat * nat);
  closed : list (nat * (nat * nat))
}.

Definition no_caps : caps := mkCaps [] [].

Fixpoint assoc {A} (i : nat) (l : list (nat * A)) : option A :=
  match l with
  | [] => None
  | (j, a) :: l' => if Nat.eqb i j then Some a else assoc i l'
  end.

Definition open_group (i pos : nat) (c : caps) : caps :=
  mkCaps ((i, pos) :: opened c) (closed c).

Definition close_group (i pos : nat) (c : caps) : caps :=
  match assoc i (opened c) with
  | Some st => mkCaps (opened c) ((i, (st, pos)) :: closed c)
  | None => c
  end.

(** A quantified class before the continuation [k]: [n] characters of the
    class have been taken.  The greedy form takes one more when it can and
    falls back on [k]; the lazy form asks [k] first. *)
Fixpoint rep_run (k : string -> nat -> option (nat * caps))
    (greedy : bool) (min : nat) (cls : ascii -> bool)
    (s : string) (pos n : nat) : option (nat * caps) :=
  let stop := if (min <=? n)%nat then k s pos else None in
  match s with
  | String a s' =>
      if cls a then
        if greedy then
          match rep_run k greedy min cls s' (S pos) (S n) with
          | Some x => Some x
          | None => stop
          end
        else
          match stop with
          | Some x => Some x
          | None => rep_run k greedy min cls s' (S pos) (S n)
          end
      else stop
  | EmptyString => stop
  end.

(** [run r at0 s pos c]: match [r] against [s], the input from offset
    [pos] of the attempt on; [at0] says that the attempt started at index 0
    of the whole input.  Returns the length of the match and its groups. *)
Fixpoint run (r : regex) (at0 : bool) (s : string) (pos : nat) (c : caps)
  : option (nat * caps) :=
  match r with
  | [] => Some (pos, c)
  | Lit l :: r' =>
      match strip_prefix l s with
      | Some s' => run r' at0 s' (pos + String.length l)%nat c
      | None => None
      end
  | Rep greedy min cls :: r' =>
      rep_run (fun s' pos' => run r' at0 s' pos' c) greedy min cls s pos 0%nat
  | Open i :: r' => run r' at0 s pos (open_group i pos c)
  | Close i :: r' => run r' at0 s pos (close_group i pos c)
  | Bos :: r' => if at0 && (pos =? 0)%nat then run r' at0 s pos c else None
  | Eos :: r' =>
      match s with
      | EmptyString => run r' at0 s pos c
      | String _ _ => None
      end
  end.

(** One attempt at the current index. *)
Definition match_at (r : regex) (at0 : bool) (s : string) : option (nat * caps) :=
  run r at0 s 0%nat no_caps.

(** Text of group [i] of a match that starts at [s]; a group that did not
    take part is the empty string, as [$i] and [RegExp.$i] give it. *)
Definition group (s : string) (c : caps) (i : nat) : string :=
  match assoc i (closed c) with
  | Some (a, b) => substring a b s
  | None => EmptyString
  end.

(** A successful match: where it starts, the matched text, the groups 1..9
    by [group], and the input after it. *)
Record found : Type := mkFound {
  index : nat;
  matched : string;
  groups : nat -> string;
  after : string
}.

(** [RegExp.prototype.exec] without the global flag: the first index, from
    the left, at which an attempt succeeds (the end of input included). *)
Fixpoint search (r : regex) (at0 : bool) (idx : nat) (s : string) : option found :=
  match match_at r at0 s with
  | Some (len, c) => Some (mkFound idx (take len s) (group s c) (drop len s))
  | None =>
      match s with
      | String _ s' => search r false (S idx) s'
      | EmptyString => None
      end
  end.

Definition exec (r : regex) (s : string) : option found := search r true 0%nat s.

(** The global scan behind [replace] and [match] with the [g] flag: the
    input cut into the characters kept and the matches found, from the left.
    [skip] characters of the last match are still to be passed over; an
    empty match is reported in front of the next character and the scan
    moves on by one. *)
Inductive piece : Type :=
| Keep (a : ascii)
| Hit (m : string) (g : nat -> string).

Fixpoint scan (r : regex) (at0 : bool) (skip : nat) (s : string) : list piece :=
  match skip, s with
  | S k, String _ s' => scan r false k s'
  | S _, EmptyString => []
  | O, _ =>
      match match_at r at0 s with
      | Some (len, c) =>
          Hit (take len s) (group s c) ::
          match len, s with
          | S k, String _ s' => scan r false k s'
          | O, String a s' => Keep a :: scan r false 0%nat s'
          | _, EmptyString => []
          end
      | None =>
          match s with
          | String a s' => Keep a :: scan r false 0%nat s'
          | EmptyString => []
          end
      end
  end.

Fixpoint rebuild (f : string -> (nat -> string) -> string) (l : list piece) : string :=
  match l with
  | [] => EmptyString
  | Keep a :: l' => String a (rebuild f l')
  | Hit m g :: l' => f m g +:+ rebuild f l'
  end.

Fixpoint hits (l : list piece) : list (string * (nat -> string)) :=
  match l with
  | [] => []
  | Keep _ :: l' => hits l'
  | Hit m g :: l' => (m, g) :: hits l'
  end.

(** [s.replace(/r/g, f)] with a replacer function: the value returned. *)
Definition replace_all_with (r : regex) (f : string -> (nat -> string) -> string)
    (s : string) : string :=
  rebuild f (scan r true 0%nat s).

(** The calls [s.replace(/r/g, f)] makes to [f], in order. *)
Definition replace_all_calls (r : regex) (s : string) : list (string * (nat -> string)) :=
  hits (scan r true 0%nat s).

(** [s.replace(/r/g, '')] and [s.replace(/r/g, '$1')]. *)
Definition replace_all_empty (r : regex) (s : string) : string :=
  replace_all_with r (fun _ _ => EmptyString) s.

Definition replace_all_group1 (r : regex) (s : string) : string :=
  replace_all_with r (fun _ g => g 1%nat) s.

(** [s.replace(/r/, f)] without the [g] flag: the first match only. *)
Definition replace_first_with (r : regex) (f : string -> (nat -> string) -> string)
    (s : string) : string :=
  match exec r s with
  | Some m => take (index m) s +:+ f (matched m) (groups m) +:+ after m
  | None => s
  end.

(** [s.match(/r/g)]: the array of all matches, or [null] when there is none. *)
Definition match_all (r : regex) (s : string) : option (list string) :=
  match hits (scan r true 0%nat s) with
  | [] => None
  | l => Some (map fst l)
  end.

Definition push_char (a : ascii) (l : list string) : list string :=
  match l with
  | p :: ps => String a p :: ps
  | [] => [String a EmptyString]
  end.

(** [s.split(/r/)] for a separator without groups: the pieces between the
    matches.  The separator is tried at every index but the end of the
    input; an empty match splits unless the piece before it is empty
    ([fresh]: no character of the current piece has been passed yet). *)
Fixpoint split_from (r : regex) (at0 fresh : bool) (skip : nat) (s : string) : list string :=
  match skip, s with
  | _, EmptyString => [EmptyString]
  | S k, String _ s' => split_from r false true k s'
  | O, String a s' =>
      match match_at r at0 s with
      | Some (S k, _) => EmptyString :: split_from r false true k s'
      | Some (O, _) =>
          if fresh then push_char a (split_from r false false 0%nat s')
          else EmptyString :: push_char a (split_from r false false 0%nat s')
      | None => push_char a (split_from r false false 0%nat s')
      end
  end.

Definition split (r : regex) (s : string) : list string :=
  match s with
  | EmptyString =>
      match match_at r true s with Some _ => [] | None => [EmptyString] end
  | _ => split_from r true true 0%nat s
  end.

End Regex.

(** ** The blockquote renderer handed to [marked.use] *)

Module Blockquote.
Import JS Regex.

(** [/^<p>([\s\S]+)<\/p>$/] *)
Definition re_paragraph : regex :=
  [Bos; Lit "<p>"; Open 1; Rep true 1 is_any; Close 1; Lit "</p>"; Eos].

(** [/^\[\!(\w+)\]\s*/] *)
Definition re_marker : regex :=
  [Bos; Lit "[!"; Open 1; Rep true 1 is_word; Close 1; Lit "]"; Rep true 0 is_space].

(** Modelled from the spec: [Tools.ucfirst] belongs to the pixl-tools
    package, which is not part of the source; the title is derived from
    capitalizing the keyword, that is, its first character in upper case. *)
Definition ucfirst (text : string) : string :=
  toUpperCase (substring 0 1 text) +:+ drop 1 text.

(** [icons[type]] as the template literal prints it: the five own keys of
    the literal, the two lower-case names every object inherits, and
    [undefined] for any other word. *)
Definition icon_of (type : string) : string :=
  if String.eqb type "note" then "information-outline"
  else if String.eqb type "tip" then "lightbulb-on-outline"
  else if String.eqb type "important" then "alert-decagram"
  else if String.eqb type "warning" then "alert-circle"
  else if String.eqb type "caution" then "fire-alert"
  else if String.eqb type "constructor" then "function Object() { [native code] }"
  else if String.eqb type "__proto__" then "[object Object]"
  else "undefined".

(** [html.trim().replace(/^<p>([\s\S]+)<\/p>$/, '$1')] *)
Definition unwrap (html : string) : string :=
  replace_first_with re_paragraph (fun _ g => g 1%nat) (trim html).

(** The template literal of the admonition block. *)
Definition blocknote (type icon title html : string) : string :=
  "<div class=" +:+ dq +:+ "blocknote " +:+ type +:+ dq +:+ ">"
    +:+ "<div class=" +:+ dq +:+ "bn_title" +:+ dq +:+ ">"
    +:+ "<i class=" +:+ dq +:+ "mdi mdi-" +:+ icon +:+ dq +:+ ">&nbsp;</i>"
    +:+ title +:+ "</div>"
    +:+ "<div class=" +:+ dq +:+ "bn_content" +:+ dq +:+ ">" +:+ html +:+ "</div></div>".

Definition blockquote (html : string) : string :=
  let html := unwrap html in
  match exec re_marker html with
  | Some m =>
      let type := toLowerCase (groups m 1%nat) in
      let title := ucfirst type in
      let icon := icon_of type in
      let html := replace_first_with re_marker (fun _ _ => EmptyString) html in
      blocknote type icon title html
  | None => "<blockquote>" +:+ html +:+ "</blockquote>"
  end.

End Blockquote.

(** ** The bounded cache

    [lib/api.js] builds its cache with [new LRU(...)] from the pixl-cache
    package, whose code is not part of the source. *)

Module Cache.

(** Modelled from the spec: a Cache Entry of the pixl-cache package, with
    its key, value, size in bytes, insertion or access timestamp and expiry
    deadline. *)
Record entry : Type := mkEntry {
  key : string;
  value : string;
  nbytes : N;       (* size in bytes *)
  stamp : N;        (* insertion or last access, in seconds *)
  deadline : N      (* expiry deadline, in seconds *)
}.

(** The options of [new LRU({ maxAge, maxItems, maxBytes })]. *)
Record config : Type := mkConfig {
  maxAge : N;       (* default time to live, in seconds *)
  maxItems : N;
  maxBytes : N
}.

(** Modelled from the spec: the entries of the Bounded Cache, which the
    source only constructs and calls; they are kept in order of use, the
    most recently used first. *)
Definition t : Type := list entry.

(** Modelled from the spec: the cache as [new LRU] makes it, without entries. *)
Definition empty : t := [].

(** Modelled from the spec: the computed byte size of a value. *)
Definition byte_size (v : string) : N := N.of_nat (String.length v).

(** Modelled from the spec: the entry count of the cache. *)
Definition count (c : t) : N := N.of_nat (length c).

(** Modelled from the spec: the total resident bytes across all entries. *)
Fixpoint bytes (c : t) : N :=
  match c with
  | [] => 0
  | e :: c' => nbytes e + bytes c'
  end.

(** Modelled from the spec: an entry older than its expiry deadline is
    treated as absent. *)
Definition live (now : N) (e : entry) : bool := now <? deadline e.

(** Modelled from the spec: the entry of a key, the cache being a
    key-to-value store with one entry for a key. *)
Fixpoint find (k : string) (c : t) : option entry :=
  match c with
  | [] => None
  | e :: c' => if String.eqb (key e) k then Some e else find k c'
  end.

(** Modelled from the spec: the cache without the entry of a key, for
    [set] to replace it. *)
Fixpoint remove (k : string) (c : t) : t :=
  match c with
  | [] => []
  | e :: c' => if String.eqb (key e) k then remove k c' else e :: remove k c'
  end.

(** Modelled from the spec: [has(key)] is true iff an unexpired entry
    exists for [key]. *)
Definition has (c : t) (now : N) (k : string) : bool :=
  match find k c with
  | Some e => live now e
  | None => false
  end.

(** Modelled from the spec: [get(key)] returns the cached value if present
    and unexpired, and the lookup refreshes recency; absent otherwise. *)
Definition get (c : t) (now : N) (k : string) : option string * t :=
  match find k c with
  | Some e =>
      if live now e
      then (Some (value e),
            mkEntry (key e) (value e) (nbytes e) now (deadline e) :: remove k c)
      else (None, c)
  | None => (None, c)
  end.

(** Modelled from the spec: neither the maximum entry count nor the maximum
    total byte size is breached. *)
Definition fits (cfg : config) (c : t) : bool :=
  (count c <=? maxItems cfg) && (bytes c <=? maxBytes cfg).

(** Modelled from the spec: evict least-recently-used entries until the
    insert fits; the entry being stored, [e], stays, also when it alone
    exceeds the byte budget and everything else has gone. *)
Fixpoint evict_lru (cfg : config) (e : entry) (fuel : nat) (rest : t) : t :=
  match fuel with
  | O => rest
  | S fuel' =>
      if fits cfg (e :: rest) then rest
      else evict_lru cfg e fuel' (removelast rest)
  end.

(** Modelled from the spec: eviction is triggered if the insert would
    exceed the item count or the byte budget, expired entries first. *)
Definition make_room (cfg : config) (now : N) (e : entry) (rest : t) : t :=
  if fits cfg (e :: rest) then rest
  else
    let unexpired := List.filter (live now) rest in
    evict_lru cfg e (length unexpired) unexpired.

(** Modelled from the spec: [set(key, value, [ttl])] inserts or replaces
    an entry, stamping the current time and the computed byte size of the
    value; the time to live defaults to the configured one. *)
Definition set (cfg : config) (c : t) (now : N) (k v : string) (ttl : option N) : t :=
  let e := mkEntry k v (byte_size v) now (now + default (maxAge cfg) ttl) in
  e :: make_room cfg now e (remove k c).

End Cache.

(** ** The API layer: [module.exports] of [lib/api.js] *)

Module Api.
Import JS Regex.

(** *** Values, articles, outcomes *)

(** The values an article field can hold. *)
Inductive jsval : Type :=
| VUndef
| VStr (s : string)
| VNum (z : Z)
| VNaN
| VList (l : list string).

(** An article is a plain object: field name to value. *)
Abbreviation article := (gmap string jsval).

Definition error : Type := string.

(** How an asynchronous operation ends: its callback receives a result,
    its callback receives an error, or an exception is thrown and no
    callback is called. *)
Inductive outcome (A : Type) : Type :=
| Done (a : A)
| Failed (err : error)
| Thrown (exn : string).
Arguments Done {A} a.
Arguments Failed {A} err.
Arguments Thrown {A} exn.

(** What an HTTP request or a file read comes back with. *)
Inductive reply : Type :=
| Body (text : string)
| Fault (err : error).

(** The world around the module: the server configuration, the remote
    content and the local files as they are at each instant (with the time
    each access takes), the renderer, the local time zone, the parts of
    [config.json] and [index.html] the module reads, and the order in which
    concurrent fetches complete. *)
Record Env : Type := mkEnv {
  debug : bool;                               (* serverConfig.debug *)
  request_get : N -> string -> N * reply;     (* this.request.get at a time *)
  read_file : N -> string -> N * reply;       (* fs.readFile at a time *)
  marked_parse : string -> string;            (* marked.parse with the options *)
  tz_offset : Z -> Z;       (* seconds east of UTC on a given day number *)
  config_articles : list string;              (* config.articles *)
  completion_order : list string -> list string;
                          (* the order in which the fetches of slugs complete *)
  index_html : string;                        (* this.html *)
  blog_payload : list (option article) -> article -> string -> string -> string
                                              (* JSON.stringify of the page data *)
}.

(** The state of the module: [this.cache], [this.articles], and the time. *)
Record Server : Type := mkServer {
  cache : Cache.t;
  articles : gmap string article;
  clock : N
}.

Definition with_cache (st : Server) (c : Cache.t) : Server :=
  mkServer c (articles st) (clock st).

Definition with_articles (st : Server) (a : gmap string article) : Server :=
  mkServer (cache st) a (clock st).

Definition later (dt : N) (st : Server) : Server :=
  mkServer (cache st) (articles st) (clock st + dt).

(** The options [startup] gives to [new LRU]. *)
Definition startup_config : Cache.config :=
  Cache.mkConfig 86400 5000 (1024 * 1024 * 50).

(** *** Regular expressions of the file *)

(** [/<.+?>/g] *)
Definition re_tag : regex := [Lit "<"; Rep false 1 is_dot; Lit ">"].

(** [/```[\S\s]+?```/g] *)
Definition re_fence : regex := [Lit "```"; Rep false 1 is_any; Lit "```"].

(** [/\[([^\]]+)\]\(([^\)]+)\)/g] *)
Definition re_link : regex :=
  [Lit "["; Open 1; Rep true 1 (is_not "]"); Close 1; Lit "]("; Open 2;
   Rep true 1 (is_not ")"); Close 2; Lit ")"].

(** [/\w+/g] *)
Definition re_word : regex := [Rep true 1 is_word].

(** [/<\!--\s*(\w+):\s*(.+?)\s*-->/g] *)
Definition re_front : regex :=
  [Lit "<!--"; Rep true 0 is_space; Open 1; Rep true 1 is_word; Close 1; Lit ":";
   Rep true 0 is_space; Open 2; Rep false 1 is_dot; Close 2; Rep true 0 is_space;
   Lit "-->"].

(** [/\,\s*/] *)
Definition re_comma : regex := [Lit ","; Rep true 0 is_space].

(** [/\/pixlcore\/blog\/main\/(.+)\.md$/] *)
Definition re_blog : regex :=
  [Lit "/pixlcore/blog/main/"; Open 1; Rep true 1 is_dot; Close 1; Lit ".md"; Eos].

(** [/<\!\-\-\s+DATA\s+\-\-\>/] *)
Definition re_data : regex :=
  [Lit "<!--"; Rep true 1 is_space; Lit "DATA"; Rep true 1 is_space; Lit "-->"].

(** *** Dates *)

(** Days from 1970-01-01 to the civil date [y]-[m]-[d]. *)
Definition days_from_civil (y m d : Z) : Z :=
  let y' := (if m <=? 2 then y - 1 else y)%Z in
  let era := (y' / 400)%Z in
  let yoe := (y' - era * 400)%Z in
  let mp := (if m <=? 2 then m + 9 else m - 3)%Z in
  let doy := ((153 * mp + 2) / 5 + d - 1)%Z in
  let doe := (yoe * 365 + yoe / 4 - yoe / 100 + doy)%Z in
  (era * 146097 + doe - 719468)%Z.

Definition digit_value (c : ascii) : option Z :=
  if between 48 57 c then Some (Z.of_N (code c) - 48)%Z else None.

Fixpoint digits_from (acc : Z) (s : string) : option Z :=
  match s with
  | EmptyString => Some acc
  | String c s' =>
      match digit_value c with
      | Some v => digits_from (acc * 10 + v)%Z s'
      | None => None
      end
  end.

Definition number_of (s : string) : option Z :=
  match s with
  | EmptyString => None
  | _ => digits_from 0%Z s
  end.

(** Modelled from the spec: the engine's [Date] is not part of the source;
    the date is parsed as [YYYY/MM/DD] at midnight local time.  The result
    is in milliseconds since the epoch, [None] for an invalid date. *)
Definition Date_getTime (env : Env) (s : string) : option Z :=
  match split [Lit " "] s with
  | [day; time] =>
      if String.eqb time "00:00:00" then
        match split [Lit "/"] day with
        | [y; m; d] =>
            match number_of y, number_of m, number_of d with
            | Some y, Some m, Some d =>
                if ((1 <=? m) && (m <=? 12) && (1 <=? d) && (d <=? 31))%Z then
                  let n := days_from_civil y m d in
                  Some ((n * 86400 - tz_offset env n) * 1000)%Z
                else None
            | _, _, _ => None
            end
        | _ => None
        end
      else None
  | _ => None
  end.

(** *** [preloadBlog]: one article *)

(** [Array.prototype.join]. *)
Fixpoint join (sep : string) (l : list string) : string :=
  match l with
  | [] => EmptyString
  | [x] => x
  | x :: l' => x +:+ sep +:+ join sep l'
  end.

(** String concatenation with [+] turns its operand into a string. *)
Definition to_str (v : jsval) : string :=
  match v with
  | VUndef => "undefined"
  | VStr s => s
  | VNum z => DecimalString.NilZero.string_of_int (Z.to_int z)
  | VNaN => "NaN"
  | VList l => join "," l
  end.

(** Reading a field that is not there gives [undefined]. *)
Definition field (a : article) (name : string) : jsval :=
  default VUndef (a !! name).

(** [article[name] = value]; assigning a string to [__proto__] does nothing. *)
Definition set_field (a : article) (name : string) (v : jsval) : article :=
  if String.eqb name "__proto__" then a else <[name := v]> a.

(** [text.replace(/<.+?>/g, '').replace(/```[\S\s]+?```/g, '')
      .replace(/\[([^\]]+)\]\(([^\)]+)\)/g, '$1')] *)
Definition strip_markup (text : string) : string :=
  replace_all_group1 re_link (replace_all_empty re_fence (replace_all_empty re_tag text)).

(** [....match(/\w+/g).length]: [None] when [match] gives [null], and
    reading [length] of it throws. *)
Definition count_words (text : string) : option nat :=
  match match_all re_word (strip_markup text) with
  | Some l => Some (length l)
  | None => None
  end.

(** The replacer function of the front-matter scan, called once for each
    comment [<!-- Key: Value -->]. *)
Definition front_matter_call (a : article) (call : string * (nat -> string)) : article :=
  set_field a (toLowerCase (snd call 1%nat)) (VStr (snd call 2%nat)).

Definition front_matter (text : string) (a : article) : article :=
  fold_left front_matter_call (replace_all_calls re_front text) a.

(** [Math.floor((new Date(article.date + ' 00:00:00')).getTime() / 1000)] *)
Definition date_seconds (env : Env) (v : jsval) : jsval :=
  match Date_getTime env (to_str v +:+ " 00:00:00") with
  | Some ms => VNum (ms / 1000)%Z
  | None => VNaN
  end.

Definition null_length : string :=
  "TypeError: Cannot read properties of null (reading 'length')".

Definition split_undefined : string :=
  "TypeError: Cannot read properties of undefined (reading 'split')".

Definition split_not_function : string :=
  "TypeError: article.tags.split is not a function".

(** The body of the [get_cached_url] callback in [preloadBlog], from
    [var article = ...] to the article stored in [self.articles]. *)
Definition build_article (env : Env) (slug text : string) : outcome article :=
  match count_words text with
  | None => Thrown null_length
  | Some n =>
      let a : article := <["words" := VNum (Z.of_nat n)]> {["slug" := VStr slug]} in
      let a := front_matter text a in
      let a := <["date" := date_seconds env (field a "date")]> a in
      match field a "tags" with
      | VStr tags => Done (<["tags" := VList (split re_comma tags)]> a)
      | VUndef => Thrown split_undefined
      | _ => Thrown split_not_function
      end
  end.

(** *** [get_cached_url] and [get_cached_html] *)

Definition local_file (slug : string) : string :=
  "/Users/jhuckaby/git/blog/" +:+ slug +:+ ".md".

(** [get_cached_url(url, callback)]: what the callback receives ([Fault]
    for [callback(err)], [Body] for [callback(null, text)]), and the state
    it is called in.  In debug mode a blog URL is read from the local file
    and the cache is not used; otherwise the cache answers when it has the
    URL, and a fetched text is stored under the URL.  [get] follows [has]
    at the same instant and on the same key, so it finds the value. *)
Definition get_cached_url (env : Env) (st : Server) (url : string)
  : reply * Server :=
  match (if debug env then exec re_blog url else None) with
  | Some m =>
      let slug := groups m 1%nat in
      let file := local_file slug in
      let (dt, r) := read_file env (clock st) file in
      let st := later dt st in
      match r with
      | Fault err => (Fault err, st)
      | Body text => (Body text, st)
      end
  | None =>
      if Cache.has (cache st) (clock st) url then
        let (v, c) := Cache.get (cache st) (clock st) url in
        (Body (default EmptyString v), with_cache st c)
      else
        let (dt, r) := request_get env (clock st) url in
        let st := later dt st in
        match r with
        | Fault err => (Fault err, st)
        | Body text =>
            (Body text,
             with_cache st (Cache.set startup_config (cache st) (clock st) url text None))
        end
  end.

Definition cache_id (url : string) : string := "MARKED:" +:+ url.

(** [get_cached_html(url, callback)] *)
Definition get_cached_html (env : Env) (st : Server) (url : string)
  : reply * Server :=
  if Cache.has (cache st) (clock st) (cache_id url) then
    let (v, c) := Cache.get (cache st) (clock st) (cache_id url) in
    (Body (default EmptyString v), with_cache st c)
  else
    match get_cached_url env st url with
    | (Fault err, st) => (Fault err, st)
    | (Body text, st) =>
        let html := marked_parse env text in
        if debug env then (Body html, st)
        else
          (Body html,
           with_cache st
             (Cache.set startup_config (cache st) (clock st) (cache_id url) html None))
    end.

(** What the source of [url] holds at time [t], and how long reading it
    takes: the local file for a blog URL in debug mode, the remote content
    otherwise. *)
Definition origin (env : Env) (t : N) (url : string) : N * reply :=
  match (if debug env then exec re_blog url else None) with
  | Some m => read_file env t (local_file (groups m 1%nat))
  | None => request_get env t url
  end.

(** The rendering of what a fetch came back with. *)
Definition rendered (env : Env) (r : reply) : reply :=
  match r with
  | Body text => Body (marked_parse env text)
  | Fault err => Fault err
  end.

(** *** [preloadBlog] and [startup] *)

Definition blog_url (slug : string) : string :=
  "https://raw.githubusercontent.com/pixlcore/blog/main/" +:+ slug +:+ ".md".

(** The iteratee of [async.eachLimit] for each slug in turn, the slugs
    taken in the order in which their fetches complete.  The async package
    is not part of the source: it keeps up to 8 iteratees in flight, calls
    the final callback with the first error and starts no further iteratee
    after it; an exception thrown in an iteratee's callback reaches no
    callback.  Here one fetch is back before the next is started; the
    module [Preload] below has up to 8 of them in flight together. *)
Fixpoint preload_each (env : Env) (slugs : list string) (st : Server)
  : outcome unit * Server :=
  match slugs with
  | [] => (Done tt, st)
  | slug :: slugs' =>
      match get_cached_url env st (blog_url slug) with
      | (Fault err, st) => (Failed err, st)
      | (Body text, st) =>
          match build_article env slug text with
          | Done a => preload_each env slugs' (with_articles st (<[slug := a]> (articles st)))
          | Failed err => (Failed err, st)
          | Thrown exn => (Thrown exn, st)
          end
      end
  end.

Definition preloadBlog (env : Env) (st : Server) : outcome unit * Server :=
  preload_each env (completion_order env (config_articles env)) (with_articles st ∅).

(** [startup(callback)]: a new cache, then the preload; [now] is the time
    of the call. *)
Definition startup (env : Env) (now : N) : outcome unit * Server :=
  preloadBlog env (mkServer Cache.empty ∅ now).

(** *** [handle_blog] *)

Record response : Type := mkResponse {
  status : string;
  headers : list (string * string);
  body : string
}.

(** A replacement string for a pattern without groups: [$$], [$&], and the
    text before and after the match. *)
Fixpoint expand (before matched after tpl : string) : string :=
  match tpl with
  | EmptyString => EmptyString
  | String a tpl' =>
      if Ascii.eqb a "$" then
        match tpl' with
        | String b tpl'' =>
            if Ascii.eqb b "$" then String "$" (expand before matched after tpl'')
            else if Ascii.eqb b "&" then matched +:+ expand before matched after tpl''
            else if Ascii.eqb b "`" then before +:+ expand before matched after tpl''
            else if Ascii.eqb b "'" then after +:+ expand before matched after tpl''
            else String a (expand before matched after tpl')
        | EmptyString => String a EmptyString
        end
      else String a (expand before matched after tpl')
  end.

(** [self.html.replace(/<\!\-\-\s+DATA\s+\-\-\>/, payload)] *)
Definition fill_page (html payload : string) : string :=
  match exec re_data html with
  | Some m =>
      take (index m) html
        +:+ expand (take (index m) html) (matched m) (after m) payload
        +:+ after m
  | None => html
  end.

Definition page_headers : list (string * string) :=
  [("Content-Type", "text/html"); ("Cache-Control", "public, max-age=86400")].

(** [handle_blog(slug, args, callback)]: the response given to the callback
    (the names every object inherits aside, [this.articles[slug]] is the
    article stored for [slug]). *)
Definition handle_blog (env : Env) (st : Server) (slug : string)
  : response * Server :=
  match articles st !! slug with
  | None =>
      (mkResponse "404 Not Found" []
         ("Unable to locate the requested article: " +:+ slug), st)
  | Some a =>
      let archives := map (fun s => articles st !! s) (config_articles env) in
      let url := blog_url slug in
      match get_cached_html env st url with
      | (Fault _, st) =>
          (mkResponse "404 Not Found" [] "Unable to locate the requested file.", st)
      | (Body html, st) =>
          let payload := blog_payload env archives a slug html in
          (mkResponse "200 OK" page_headers (fill_page (index_html env) payload), st)
      end
  end.

End Api.

(** ** [preloadBlog] with its fetches in flight together

    [Api.preload_each] takes the callbacks of the fetches one after the
    other, each fetch made when its turn comes.  Here the fetches start as
    [async.eachLimit(config.articles, 8, ...)] starts them: the first eight
    at once, each of the others when a fetch before it has come back with
    a text and its article is stored; each comes back at its own instant,
    and the callbacks run in the order of these instants.

    The async package is not part of the source: [eachLimit] keeps up to
    [limit] iteratees in flight, gives the first error to the final
    callback and starts no further iteratee after it, and calls the final
    callback without error when every iteratee has called back.  An
    exception thrown in the callback of a fetch reaches no callback and
    ends the process. *)

Module Preload.
Import JS Regex Api.

(** A fetch in flight: its slug, the instant at which its callback runs,
    what the callback receives, and whether the text is then stored in the
    cache (it is for a request, not for a file read nor for an answer of
    the cache). *)
Record flight : Type := mkFlight {
  slug_of : string;
  due : N;
  answer : reply;
  stores : bool
}.

(** [get_cached_url(url, callback)] up to its return: the file read or the
    request is started, or the cache has answered and the callback is left
    to [setImmediate]. *)
Definition start (env : Env) (st : Server) (slug : string) : flight * Server :=
  let url := blog_url slug in
  match (if debug env then exec re_blog url else None) with
  | Some m =>
      let (dt, r) := read_file env (clock st) (local_file (groups m 1%nat)) in
      (mkFlight slug (clock st + dt) r false, st)
  | None =>
      if Cache.has (cache st) (clock st) url then
        let (v, c) := Cache.get (cache st) (clock st) url in
        (mkFlight slug (clock st) (Body (default EmptyString v)) false, with_cache st c)
      else
        let (dt, r) := request_get env (clock st) url in
        (mkFlight slug (clock st + dt) r true, st)
  end.

(** The rest of [get_cached_url], at the instant the fetch comes back:
    the text of a request is stored under the URL, and the callback of
    [preloadBlog] receives the error or the text. *)
Definition land (st : Server) (f : flight) : reply * Server :=
  let st := mkServer (cache st) (articles st) (due f) in
  match answer f with
  | Fault err => (Fault err, st)
  | Body text =>
      (Body text,
       if stores f
       then with_cache st
              (Cache.set startup_config (cache st) (clock st) (blog_url (slug_of f)) text None)
       else st)
  end.

(** The state of [eachLimit]: the module, the slugs not started yet, the
    fetches in flight in the order of their start, the error the final
    callback has received, and the fetches that have come back, with what
    they came back with, in order. *)
Record run : Type := mkRun {
  server : Server;
  waiting : list string;
  flying : list flight;
  failed : option error;
  landed : list (string * reply)
}.

(** [replenish] of [eachLimit]: iteratees are started while fewer than
    [limit] are running and slugs are left. *)
Fixpoint replenish (env : Env) (limit : nat) (st : Server) (waiting : list string)
    (flying : list flight) : Server * list string * list flight :=
  match waiting with
  | [] => (st, [], flying)
  | slug :: rest =>
      if (length flying <? limit)%nat then
        let (f, st') := start env st slug in
        replenish env limit st' rest (flying ++ [f])
      else (st, waiting, flying)
  end.

(** The fetch that comes back first, the one started first among those of
    one instant, and the others in their order. *)
Fixpoint pick (l : list flight) : option (flight * list flight) :=
  match l with
  | [] => None
  | f :: l' =>
      match pick l' with
      | Some (g, rest) => if due g <? due f then Some (g, f :: rest) else Some (f, l')
      | None => Some (f, [])
      end
  end.

(** What the final callback has received when nothing is left to come
    back, or when an exception ends the process: the first error, nothing
    but the exception, or no error. *)
Inductive progress : Type :=
| Next (r : run)
| Stop (o : outcome unit) (r : run).

(** One turn: the slots that are free are filled, unless an error has been
    given to the final callback; then the first fetch to come back runs its
    callback, the one of [preloadBlog]. *)
Definition step (env : Env) (limit : nat) (r : run) : progress :=
  let '(st, waiting, flying) :=
    match failed r with
    | None => replenish env limit (server r) (waiting r) (flying r)
    | Some _ => (server r, waiting r, flying r)
    end in
  match pick flying with
  | None =>
      Stop (match failed r with Some err => Failed err | None => Done tt end)
        (mkRun st waiting flying (failed r) (landed r))
  | Some (f, others) =>
      let (rep, st1) := land st f in
      let seen := landed r ++ [(slug_of f, rep)] in
      match rep with
      | Fault err => Next (mkRun st1 waiting others (Some (default err (failed r))) seen)
      | Body text =>
          match build_article env (slug_of f) text with
          | Done a =>
              Next (mkRun (with_articles st1 (<[slug_of f := a]> (articles st1)))
                      waiting others (failed r) seen)
          | Failed err =>
              Next (mkRun st1 waiting others (Some (default err (failed r))) seen)
          | Thrown exn =>
              Stop (match failed r with Some err => Failed err | None => Thrown exn end)
                (mkRun st1 waiting others (failed r) seen)
          end
      end
  end.

(** The turns, one after the other; [fuel] bounds their number. *)
Fixpoint drain (env : Env) (limit fuel : nat) (r : run) : option (outcome unit * run) :=
  match step env limit r with
  | Stop o r' => Some (o, r')
  | Next r' =>
      match fuel with
      | O => None
      | S fuel' => drain env limit fuel' r'
      end
  end.

(** [preloadBlog(callback)]: what the callback receives, or the exception,
    and the state the preload ends in. *)
Definition preloadBlog (env : Env) (st : Server) : option (outcome unit * run) :=
  drain env 8 (length (config_articles env))
    (mkRun (with_articles st ∅) (config_articles env) [] None []).

(** [startup(callback)], [now] being the time of the call. *)
Definition startup (env : Env) (now : N) : option (outcome unit * run) :=
  preloadBlog env (mkServer Cache.empty ∅ now).

End Preload.

(** ** Notions used in the statements *)

Module Notions.
Import JS Regex Api.

(** The number of maximal runs of word characters in a text; [inside]
    says that the character before belongs to a run. *)
Fixpoint word_runs (inside : bool) (s : string) : nat :=
  match s with
  | EmptyString => 0
  | String a s' =>
      if is_word a
      then ((if inside then 0 else 1) + word_runs true s')%nat
      else word_runs false s'
  end.

(** A text without word characters. *)
Definition wordless (s : string) : bool :=
  all_chars (fun a => negb (is_word a)) s.

(** The key a call of the front-matter replacer assigns to. *)
Definition key_of (call : string * (nat -> string)) : string :=
  toLowerCase (snd call 1%nat).

(** The keys of the front-matter comments of a text, lower-cased, in order. *)
Definition front_keys (text : string) : list string :=
  map key_of (replace_all_calls re_front text).

(** What is removed before the words are counted, said without patterns.

    The characters from the first [>] of a line on are not part of what a
    [<] takes along: [close_angle t] is the number of characters of [t] up
    to its first [>], that one included, when it comes before the end of
    the line. *)
Fixpoint close_angle (t : string) : option nat :=
  match t with
  | EmptyString => None
  | String c t' =>
      if Ascii.eqb ">" c then Some 1%nat
      else if is_dot c then option_map S (close_angle t') else None
  end.

(** What goes with a [<]: one character of the line, whatever it is, and
    the text up to the first [>] after it. *)
Definition angle_body (s : string) : option nat :=
  match s with
  | String b t => if is_dot b then option_map S (close_angle t) else None
  | EmptyString => None
  end.

(** The text without its bracketed stretches, from the left; [skip]
    characters are still to be removed. *)
Fixpoint cut_angles (skip : nat) (s : string) : string :=
  match s with
  | EmptyString => EmptyString
  | String a s' =>
      match skip with
      | S k => cut_angles k s'
      | O =>
          if Ascii.eqb "<" a then
            match angle_body s' with
            | Some n => cut_angles n s'
            | None => String a (cut_angles 0 s')
            end
          else String a (cut_angles 0 s')
      end
  end.

(** The number of characters of [t] up to its first fence of three
    backquotes, the fence included. *)
Fixpoint close_fence (t : string) : option nat :=
  match strip_prefix "```" t with
  | Some _ => Some 3%nat
  | None =>
      match t with
      | String _ t' => option_map S (close_fence t')
      | EmptyString => None
      end
  end.

(** What goes with an opening fence: one character, whatever it is, line
    ends included, and the text up to the first fence after it. *)
Definition fence_body (s : string) : option nat :=
  match s with
  | String _ t => option_map S (close_fence t)
  | EmptyString => None
  end.

(** The text without its fenced stretches, from the left. *)
Fixpoint cut_fences (skip : nat) (s : string) : string :=
  match s with
  | EmptyString => EmptyString
  | String a s' =>
      match skip with
      | S k => cut_fences k s'
      | O =>
          match strip_prefix "```" s with
          | Some rest =>
              match fence_body rest with
              | Some n => cut_fences (2 + n) s'
              | None => String a (cut_fences 0 s')
              end
          | None => String a (cut_fences 0 s')
          end
      end
  end.

(** A link after its [[]: the text, all the characters up to the first
    []], at least one; then [](]; the address, all the characters up to the
    first [)], at least one; then [)].  The result is the text and the
    number of characters of the link after its [[]. *)
Definition link_at (s : string) : option (string * nat) :=
  match span (is_not "]") s with
  | O => None
  | S n =>
      match strip_prefix "](" (drop (S n) s) with
      | None => None
      | Some u =>
          match span (is_not ")") u with
          | O => None
          | S m =>
              match strip_prefix ")" (drop (S m) u) with
              | Some _ => Some (take (S n) s, (S n + 2 + S m + 1)%nat)
              | None => None
              end
          end
      end
  end.

(** The text with each link replaced by its text, from the left. *)
Fixpoint collapse_links (skip : nat) (s : string) : string :=
  match s with
  | EmptyString => EmptyString
  | String a s' =>
      match skip with
      | S k => collapse_links k s'
      | O =>
          if Ascii.eqb "[" a then
            match link_at s' with
            | Some (text, n) => text +:+ collapse_links n s'
            | None => String a (collapse_links 0 s')
            end
          else String a (collapse_links 0 s')
      end
  end.

(** The three removals, in the order in which the word count makes them. *)
Definition stripped (text : string) : string :=
  collapse_links 0 (cut_fences 0 (cut_angles 0 text)).






(** No entry of the cache has the key [k]. *)
Definition no_key (k : string) (c : Cache.t) : Prop :=
  Forall (fun e => Cache.key e <> k) c.

End Notions.

(** ** Statements in the words of the specification

    Definitions that follow the written specification where it differs from
    the functions above, to be compared with them. *)

Module Stated.
Import JS Regex Api.

(** The number of whitespace-delimited tokens of a text: the maximal runs
    of characters that are not white space. *)
Fixpoint tokens (inside : bool) (s : string) : nat :=
  match s with
  | EmptyString => 0
  | String a s' =>
      if is_space a
      then tokens false s'
      else ((if inside then 0 else 1) + tokens true s')%nat
  end.

(** The word count in the words of the specification: strip HTML tags,
    strip fenced code blocks, collapse links to their text, then count the
    whitespace-delimited tokens. *)
Definition stated_word_count (text : string) : nat :=
  tokens false (strip_markup text).


(** The front matter of the round-trip example. *)
Definition front_lines : string :=
  "<!-- Title: X --> <!-- Summary: Y --> <!-- Author: a --> <!-- Date: 2024/01/01 --> <!-- Tags: A, B -->".

End Stated.

(** ** A small world to run the module in *)

Module Scenario.
Import JS Regex Api.

(** A stand-in for the Markdown renderer: one paragraph. *)
Definition paragraph (text : string) : string := "<p>" +:+ text +:+ "</p>" +:+ nl.

Definition readme_url : string :=
  "https://raw.githubusercontent.com/pixlcore/xyops/main/README.md".

Definition hello_md : string :=
  "<!-- Title: Hello -->" +:+ nl +:+ "<!-- Summary: First post -->" +:+ nl +:+
  "<!-- Author: jhuckaby -->" +:+ nl +:+ "<!-- Date: 2024/01/01 -->" +:+ nl +:+
  "<!-- Tags: Networking, Linux -->" +:+ nl +:+ nl +:+ "# Hello" +:+ nl +:+ "Some words here.".

(** An article without a title and without a date. *)
Definition bare_md : string :=
  "<!-- Summary: No title -->" +:+ nl +:+ "<!-- Author: jhuckaby -->" +:+ nl +:+
  "<!-- Tags: Misc -->" +:+ nl +:+ nl +:+ "Some words here.".

(** The remote content: a README that changes at time 100, two blog
    articles, and nothing else. *)
Definition remote (t : N) (url : string) : N * reply :=
  if String.eqb url readme_url then (1, Body (if t <? 100 then "old text" else "new text"))
  else if String.eqb url (blog_url "hello") then (1, Body hello_md)
  else if String.eqb url (blog_url "bare") then (1, Body bare_md)
  else (2, Fault "HTTP 404 Not Found").

(** The local files: the same article, edited at time 100. *)
Definition files (t : N) (file : string) : N * reply :=
  if String.eqb file (local_file "hello")
  then (0, Body (if t <? 100 then hello_md else hello_md +:+ " And more."))
  else (0, Fault "ENOENT: no such file or directory").

(** A world in UTC whose fetches complete in the order they are started. *)
Definition world (debug : bool) (slugs : list string) : Env :=
  mkEnv debug remote files paragraph (fun _ => 0%Z) slugs (fun l => l)
    "<html><!-- DATA --></html>" (fun _ _ slug html => slug +:+ ":" +:+ html).




(** The state [startup] begins with, at time 0. *)
Definition fresh : Server := mkServer Cache.empty ∅ 0.

End Scenario.

(** ** The request dispatcher: [handler]

    Its patterns use, beside the atoms of [Regex], an optional character
    ([/?]). *)

Module Router.
Import JS Regex Api.

Inductive ratom : Type :=
| Plain (a : atom)
| Opt (s : string).                                   (* s? *)

(** [Regex.run] with the optional literal: taken when the rest of the
    pattern matches after it, left out otherwise. *)
Fixpoint rrun (r : list ratom) (at0 : bool) (s : string) (pos : nat) (c : caps)
  : option (nat * caps) :=
  match r with
  | [] => Some (pos, c)
  | Plain (Lit l) :: r' =>
      match strip_prefix l s with
      | Some s' => rrun r' at0 s' (pos + String.length l)%nat c
      | None => None
      end
  | Plain (Rep greedy min cls) :: r' =>
      rep_run (fun s' pos' => rrun r' at0 s' pos' c) greedy min cls s pos 0%nat
  | Plain (Open i) :: r' => rrun r' at0 s pos (open_group i pos c)
  | Plain (Close i) :: r' => rrun r' at0 s pos (close_group i pos c)
  | Plain Bos :: r' => if at0 && (pos =? 0)%nat then rrun r' at0 s pos c else None
  | Plain Eos :: r' =>
      match s with
      | EmptyString => rrun r' at0 s pos c
      | String _ _ => None
      end
  | Opt l :: r' =>
      match
        match strip_prefix l s with
        | Some s' => rrun r' at0 s' (pos + String.length l)%nat c
        | None => None
        end
      with
      | Some x => Some x
      | None => rrun r' at0 s pos c
      end
  end.

(** [uri.match(r)]: the groups of the first match from the left. *)
Fixpoint rsearch (r : list ratom) (at0 : bool) (s : string) : option (nat -> string) :=
  match rrun r at0 s 0%nat no_caps with
  | Some (_, c) => Some (group s c)
  | None =>
      match s with
      | String _ s' => rsearch r false s'
      | EmptyString => None
      end
  end.

Definition rmatch (r : list ratom) (s : string) : option (nat -> string) :=
  rsearch r true s.

(** [/\?.*$/] *)
Definition re_query : regex := [Lit "?"; Rep true 0 is_dot; Eos].

(** [[\w\-]] *)
Definition is_name (c : ascii) : bool := is_word c || Ascii.eqb c "-".

(** [/^\/blog\/(.+?)\/?$/] *)
Definition re_article : list ratom :=
  [Plain Bos; Plain (Lit "/blog/"); Plain (Open 1); Plain (Rep false 1 is_dot);
   Plain (Close 1); Opt "/"; Plain Eos].

(** [/^\/blog\/?$/] *)
Definition re_latest : list ratom :=
  [Plain Bos; Plain (Lit "/blog"); Opt "/"; Plain Eos].

(** [/^\/view\/([\w\-]+)\/?$/] *)
Definition re_view : list ratom :=
  [Plain Bos; Plain (Lit "/view/"); Plain (Open 1); Plain (Rep true 1 is_name);
   Plain (Close 1); Opt "/"; Plain Eos].

(** [/^\/doc\/([\w\-]+)\/(.+)$/] *)
Definition re_doc : list ratom :=
  [Plain Bos; Plain (Lit "/doc/"); Plain (Open 1); Plain (Rep true 1 is_name);
   Plain (Close 1); Plain (Lit "/"); Plain (Open 2); Plain (Rep true 1 is_dot);
   Plain (Close 2); Plain Eos].

(** [/^\/feed/] *)
Definition re_feed : list ratom := [Plain Bos; Plain (Lit "/feed")].

(** [args.request.url.replace(/\?.*$/)]: there is no second argument, so
    the match is replaced by the text of [undefined]. *)
Definition strip_query (url : string) : string :=
  replace_first_with re_query (fun _ _ => "undefined") url.

(** [config.articles[0]], as the slug [handle_blog] works with: the text of
    [undefined] when the list is empty. *)
Definition latest_slug (env : Env) : string :=
  match config_articles env with
  | slug :: _ => slug
  | [] => "undefined"
  end.

(** The handler a request is given to, with its arguments. *)
Inductive target : Type :=
| ToBlog (slug : string)
| ToPage (id : string)
| ToDoc (repo path : string)
| ToFeed
| ToHome.

(** The chain of tests of [handler]. *)
Definition route (env : Env) (url : string) : target :=
  let uri := strip_query url in
  match rmatch re_article uri with
  | Some g => ToBlog (g 1%nat)
  | None =>
      match rmatch re_latest uri with
      | Some _ => ToBlog (latest_slug env)
      | None =>
          match rmatch re_view uri with
          | Some g => ToPage (g 1%nat)
          | None =>
              match rmatch re_doc uri with
              | Some g => ToDoc (g 1%nat) (g 2%nat)
              | None =>
                  match rmatch re_feed uri with
                  | Some _ => ToFeed
                  | None => ToHome
                  end
              end
          end
      end
  end.

End Router.

(** ** The page handlers: [handle_home], [handle_page], [handle_doc],
    [handle_feed], and [handler] *)

Module Pages.
Import JS Regex Api Router.

(** An entry of [config.pages] is a plain object, like an article. *)
Abbreviation page := (gmap string jsval).

(** An item of the feed, and the parts of the feed that depend on the
    request and on the articles. *)
Record item : Type := mkItem {
  item_title : jsval;
  item_link : string;
  item_guid : string;
  item_description : jsval;
  item_pubDate : string;
  item_category : jsval
}.

Record feed : Type := mkFeed {
  channel_link : string;
  lastBuildDate : string;
  image_url : string;
  image_link : string;
  items : list item
}.

(** What is made of the data outside the source: [JSON.stringify] of the
    data of each kind of page, [get_rss_date] with the date functions of
    pixl-tools, and the composer of pixl-xml. *)
Record Views : Type := mkViews {
  home_payload : gmap string page -> option article -> string;
  page_payload : gmap string page -> page -> string -> string -> string;
  doc_payload : gmap string page -> page -> string -> string -> string;
  get_rss_date : jsval -> string;
  compose : feed -> string
}.

(** The state the handlers work on: the module, and [config.pages], which
    [handle_page] writes to.  The names every object inherits aside,
    [config.pages[id]] is the page configured for [id], and
    [this.articles[slug]] the article stored for [slug]. *)
Record Site : Type := mkSite {
  server : Server;
  pages : gmap string page
}.

Definition with_server (site : Site) (st : Server) : Site := mkSite st (pages site).

(** [!v] *)
Definition falsy (v : jsval) : bool :=
  match v with
  | VUndef => true
  | VStr s => String.eqb s EmptyString
  | VNum z => Z.eqb z 0
  | VNaN => true
  | VList _ => false
  end.

(** ['https://raw.githubusercontent.com/' + page.org + '/' + page.repo + '/'
      + page.branch + '/' + page.file] *)
Definition repo_url (p : page) : string :=
  "https://raw.githubusercontent.com/" +:+ to_str (field p "org") +:+ "/"
    +:+ to_str (field p "repo") +:+ "/" +:+ to_str (field p "branch") +:+ "/"
    +:+ to_str (field p "file").

(** [/<\/script>/g] *)
Definition re_script : regex := [Lit "</script>"].

(** The replacement ['</scr"+"ipt>']. *)
Definition split_script : string := "</scr" +:+ dq +:+ "+" +:+ dq +:+ "ipt>".

(** [payload.replace(/<\/script>/g, '</scr"+"ipt>')] *)
Definition escape_script (payload : string) : string :=
  replace_all_with re_script (fun _ _ => split_script) payload.

Definition not_found (message : string) : response :=
  mkResponse "404 Not Found" [] message.

Definition ok_page (env : Env) (payload : string) : response :=
  mkResponse "200 OK" page_headers (fill_page (index_html env) payload).

(** [handle_home(args, callback)] *)
Definition handle_home (env : Env) (views : Views) (site : Site) : response * Site :=
  let slug := latest_slug env in
  let a := articles (server site) !! slug in
  (ok_page env (home_payload views (pages site) a), site).

(** [handle_page(id, args, callback)]: a page without a file gets
    [README.md], written into the configuration. *)
Definition handle_page (env : Env) (views : Views) (site : Site) (id : string)
  : response * Site :=
  match pages site !! id with
  | None => (not_found "Unable to locate the requested page.", site)
  | Some p =>
      let p := if falsy (field p "file") then <["file" := VStr "README.md"]> p else p in
      let site := mkSite (server site) (<[id := p]> (pages site)) in
      let url := repo_url p in
      match get_cached_html env (server site) url with
      | (Fault _, st) =>
          (not_found "Unable to locate the requested file.", with_server site st)
      | (Body html, st) =>
          let payload := page_payload views (pages site) p id html in
          let payload := escape_script payload in
          (ok_page env payload, with_server site st)
      end
  end.

(** [handle_doc(repo, path, args, callback)]: the page is copied
    ([Tools.copyHash]) before the file is set, the configuration stays. *)
Definition handle_doc (env : Env) (views : Views) (site : Site) (repo path : string)
  : response * Site :=
  match pages site !! repo with
  | None => (not_found "Unable to locate the requested repository.", site)
  | Some p =>
      let p := <["file" := VStr path]> p in
      let url := repo_url p in
      match get_cached_html env (server site) url with
      | (Fault _, st) =>
          (not_found "Unable to locate the requested file.", with_server site st)
      | (Body html, st) =>
          let payload := doc_payload views (pages site) p repo html in
          let payload := escape_script payload in
          (ok_page env payload, with_server site st)
      end
  end.

(** [/\/feed\.\w+$/] *)
Definition re_feed_file : regex := [Lit "/feed."; Rep true 1 is_word; Eos].

(** [args.url.replace(/\/feed\.\w+$/, '')] *)
Definition base_url (url : string) : string :=
  replace_first_with re_feed_file (fun _ _ => EmptyString) url.

Definition undefined_date : string :=
  "TypeError: Cannot read properties of undefined (reading 'date')".

Definition undefined_author : string :=
  "TypeError: Cannot read properties of undefined (reading 'author')".

(** The body of [config.articles.forEach] in [handle_feed]: the items
    pushed, or the exception of the first slug without an article. *)
Fixpoint feed_items (views : Views) (index : gmap string article) (base : string)
    (slugs : list string) : outcome (list item) :=
  match slugs with
  | [] => Done []
  | slug :: slugs' =>
      match index !! slug with
      | None => Thrown undefined_author
      | Some a =>
          match feed_items views index base slugs' with
          | Done l =>
              Done (mkItem (field a "title") (base +:+ "/blog/" +:+ slug)
                      (base +:+ "/blog/" +:+ slug) (field a "summary")
                      (get_rss_date views (field a "date")) (field a "tags") :: l)
          | other => other
          end
      end
  end.

Definition feed_headers : list (string * string) :=
  [("Content-Type", "text/xml"); ("Cache-Control", "public, max-age=86400")].

(** [handle_feed(args, callback)]; [url] is [args.url]. *)
Definition handle_feed (env : Env) (views : Views) (site : Site) (url : string)
  : outcome response :=
  match articles (server site) !! latest_slug env with
  | None => Thrown undefined_date
  | Some latest =>
      let base := base_url url in
      match feed_items views (articles (server site)) base (config_articles env) with
      | Done l =>
          Done (mkResponse "200 OK" feed_headers
                  (compose views
                     (mkFeed (base +:+ "/blog/") (get_rss_date views (field latest "date"))
                        (base +:+ "/images/favicon-32x32.png") (base +:+ "/") l)))
      | Failed err => Failed err
      | Thrown exn => Thrown exn
      end
  end.

(** [handler(args, callback)]: [request_url] is [args.request.url] and
    [url] is [args.url]. *)
Definition handler (env : Env) (views : Views) (site : Site) (request_url url : string)
  : outcome response * Site :=
  match route env request_url with
  | ToBlog slug =>
      let (resp, st) := handle_blog env (server site) slug in
      (Done resp, with_server site st)
  | ToPage id =>
      let (resp, site) := handle_page env views site id in (Done resp, site)
  | ToDoc repo path =>
      let (resp, site) := handle_doc env views site repo path in (Done resp, site)
  | ToFeed => (handle_feed env views site url, site)
  | ToHome =>
      let (resp, site) := handle_home env views site in (Done resp, site)
  end.

End Pages.

(** Notions used to state the properties of the dispatcher and handlers. *)
Module Shapes.

(** The last code unit of a string, when it has one. *)
Fixpoint last_char (s : string) : option ascii :=
  match s with
  | EmptyString => None
  | String c EmptyString => Some c
  | String _ t => last_char t
  end.

(** A text that neither begins nor ends with white space, and is not
    empty. *)
Definition trimmed (s : string) : bool :=
  match s with
  | String c _ => negb (JS.is_space c)
  | EmptyString => false
  end &&
  match last_char s with
  | Some d => negb (JS.is_space d)
  | None => false
  end.

(** A front-matter comment as it is written in a source,
    [<!-- key: value -->], with the text in front of it. *)
Record note : Type := mkNote {
  note_ahead : string;
  note_key : string;
  note_value : string
}.

(** The text in front holds no comment opener; the key is made of word
    characters; the value is of one line, has no white space at its ends
    and no comment closer inside. *)
Definition well_formed (n : note) : bool :=
  negb (JS.includes "<!--" (note_ahead n))
  && negb (String.eqb (note_key n) EmptyString)
  && JS.all_chars JS.is_word (note_key n)
  && JS.all_chars JS.is_dot (note_value n)
  && trimmed (note_value n)
  && negb (JS.includes "-->" (note_value n)).

(** The source that a list of comments makes, each after its text. *)
Fixpoint written (notes : list note) : string :=
  match notes with
  | [] => EmptyString
  | n :: l =>
      note_ahead n +:+ "<!-- " +:+ note_key n +:+ ": " +:+ note_value n +:+ " -->"
        +:+ written l
  end.

(** The value of the last comment whose key is [k] in lower case. *)
Fixpoint last_value (notes : list note) (k : string) : option string :=
  match notes with
  | [] => None
  | n :: l =>
      match last_value l k with
      | Some v => Some v
      | None =>
          if String.eqb (JS.toLowerCase (note_key n)) k then Some (note_value n) else None
      end
  end.


End Shapes.

(** * Properties *)

(** ** The bounded cache *)

Section CacheReads.
Import Cache.




(** A key that has no entry is absent at every time. *)
Lemma has_no_entry (c : t) (now : N) (k : string) : find k c = None -> has c now k = false.
Proof. unfold has. now intros ->. Qed.

End CacheReads.

(** What holds of every entry holds of every entry that stays. *)
Section CacheKeys.
Import Cache.
Variable P : entry -> Prop.

Lemma Forall_removelast (c : t) : Forall P c -> Forall P (removelast c).
Proof.
  induction 1 as [|e c He Hc IH]; [constructor|].
  destruct c as [|e' c]; [constructor|].
  change (removelast (e :: e' :: c)) with (e :: removelast (e' :: c)).
  constructor; assumption.
Qed.

Lemma Forall_evict_lru (cfg : config) (e : entry) (fuel : nat) (c : t) :
  Forall P c -> Forall P (evict_lru cfg e fuel c).
Proof.
  revert c. induction fuel as [|fuel IH]; intros c Hc; [exact Hc|].
  cbn [evict_lru]. destruct (fits cfg (e :: c)); [exact Hc|].
  apply IH, Forall_removelast, Hc.
Qed.

Lemma Forall_live (now : N) (c : t) : Forall P c -> Forall P (List.filter (live now) c).
Proof.
  induction 1 as [|e c He Hc IH]; [constructor|].
  cbn [List.filter]. destruct (live now e); [constructor|]; assumption.
Qed.

Lemma Forall_make_room (cfg : config) (now : N) (e : entry) (c : t) :
  Forall P c -> Forall P (make_room cfg now e c).
Proof.
  intros Hc. unfold make_room. destruct (fits cfg (e :: c)); [exact Hc|].
  apply Forall_evict_lru, Forall_live, Hc.
Qed.

Lemma Forall_remove (k : string) (c : t) : Forall P c -> Forall P (remove k c).
Proof.
  induction 1 as [|e c He Hc IH]; [constructor|].
  cbn [remove]. destruct (String.eqb (key e) k); [|constructor]; assumption.
Qed.

Lemma Forall_set (cfg : config) (c : t) (now : N) (k v : string) (ttl : option N) :
  (forall e, key e = k -> P e) -> Forall P c -> Forall P (set cfg c now k v ttl).
Proof.
  intros Hk Hc. unfold set. constructor; [now apply Hk|].
  apply Forall_make_room, Forall_remove, Hc.
Qed.

Lemma find_some (k : string) (c : t) (e : entry) :
  find k c = Some e -> key e = k /\ In e c.
Proof.
  induction c as [|e' c IH]; [discriminate|].
  cbn [find]. destruct (String.eqb (key e') k) eqn:Hk.
  - intros [= ->]. apply String.eqb_eq in Hk. split; [exact Hk | now left].
  - intros H. destruct (IH H) as [H1 H2]. split; [exact H1 | now right].
Qed.

Lemma Forall_get (c : t) (now : N) (k : string) :
  (forall e e', key e = key e' -> P e -> P e') ->
  Forall P c -> Forall P (snd (get c now k)).
Proof.
  intros Hkey Hc. unfold get. destruct (find k c) as [e|] eqn:Hfind; [|exact Hc].
  destruct (live now e); [|exact Hc]. cbn [snd].
  destruct (find_some k c e Hfind) as [_ Hin].
  constructor; [|apply Forall_remove, Hc].
  apply (Hkey e); [reflexivity|].
  rewrite List.Forall_forall in Hc. now apply Hc.
Qed.

End CacheKeys.

Lemma append_length (a b : string) :
  String.length (a +:+ b) = (String.length a + String.length b)%nat.
Proof. induction a as [|x a IH]; [reflexivity|]. simpl. f_equal. exact IH. Qed.


(** ** The rendered-HTML layer *)




(** C2, as stated, fails: in debug mode the raw text of a URL that is not a
    blog URL is still cached, so the second request, made after the remote
    content has changed, renders the text fetched by the first. *)
Lemma debug_request_reuses_cached_text :
  let env := Scenario.world true [] in
  let url := Scenario.readme_url in
  let '(r1, st1) := Api.get_cached_html env Scenario.fresh url in
  let st1' := Api.later 200 st1 in
  let '(r2, _) := Api.get_cached_html env st1' url in
  snd (Api.origin env (Api.clock Scenario.fresh) url) = Api.Body "old text" /\
  snd (Api.origin env (Api.clock st1') url) = Api.Body "new text" /\
  r1 = Api.Body (Api.marked_parse env "old text") /\
  r2 = Api.Body (Api.marked_parse env "old text") /\
  r2 <> Api.rendered env (snd (Api.origin env (Api.clock st1') url)).
Proof. vm_compute. repeat split; discriminate. Qed.

(** C2 (amended): for every URL of the blog content, with debug mode
    enabled and no rendered entry for the URL in the cache, two consecutive
    [get_cached_html] requests for that URL both return HTML rendered from
    the content the local file has at the time of each call, and leave the
    cache as it was. *)
Theorem debug_blog_requests_are_fresh
    (env : Api.Env) (st : Api.Server) (url : string) (m : Regex.found) (wait : N) :
  Api.debug env = true ->
  Regex.exec Api.re_blog url = Some m ->
  Cache.find (Api.cache_id url) (Api.cache st) = None ->
  let '(r1, st1) := Api.get_cached_html env st url in
  let st1' := Api.later wait st1 in
  let '(r2, st2) := Api.get_cached_html env st1' url in
  r1 = Api.rendered env (snd (Api.origin env (Api.clock st) url)) /\
  r2 = Api.rendered env (snd (Api.origin env (Api.clock st1') url)) /\
  Api.cache st2 = Api.cache st.
Proof.
  intros Hdebug Hblog Hnone.
  assert (Hstep : forall s : Api.Server,
             Api.cache s = Api.cache st ->
             Api.get_cached_html env s url
             = (Api.rendered env (snd (Api.origin env (Api.clock s) url)),
                Api.later (fst (Api.origin env (Api.clock s) url)) s)).
  { intros s Hs. unfold Api.get_cached_html, Api.get_cached_url, Api.origin.
    rewrite Hs, (has_no_entry _ _ _ Hnone), Hdebug, Hblog.
    destruct (Api.read_file env (Api.clock s) _) as [dt [text | err]];
      cbn [fst snd Api.rendered]; reflexivity. }
  rewrite Hstep by reflexivity. cbv zeta.
  rewrite Hstep by reflexivity.
  repeat split.
Qed.

Lemma debug_blog_requests_are_fresh_witness :
  let env := Scenario.world true ["hello"] in
  let url := Api.blog_url "hello" in
  let '(r1, st1) := Api.get_cached_html env Scenario.fresh url in
  let '(r2, st2) := Api.get_cached_html env (Api.later 200 st1) url in
  r1 = Api.Body (Scenario.paragraph Scenario.hello_md) /\
  r2 = Api.Body (Scenario.paragraph (Scenario.hello_md +:+ " And more.")) /\
  Api.cache st2 = Api.cache Scenario.fresh.
Proof.
  pose proof (debug_blog_requests_are_fresh (Scenario.world true ["hello"]) Scenario.fresh
                (Api.blog_url "hello")
                (default (Regex.mkFound 0 "" (fun _ => "") "")
                   (Regex.exec Api.re_blog (Api.blog_url "hello")))
                200 eq_refl eq_refl eq_refl) as H.
  vm_compute in H |- *. exact H.
Defined.

(** In debug mode a request leaves no entry under a rendered key behind:
    the cache of a debug server never holds rendered HTML. *)
Lemma debug_stores_no_rendered (env : Api.Env) (st : Api.Server) (url u : string) :
  Api.debug env = true ->
  url <> Api.cache_id u ->
  Notions.no_key (Api.cache_id u) (Api.cache st) ->
  Notions.no_key (Api.cache_id u) (Api.cache (snd (Api.get_cached_html env st url))).
Proof.
  intros Hdebug Hurl Hno. unfold Notions.no_key in *.
  assert (Hraw : Forall (fun e => Cache.key e <> Api.cache_id u)
                   (Api.cache (snd (Api.get_cached_url env st url)))).
  { unfold Api.get_cached_url.
    destruct (if Api.debug env then Regex.exec Api.re_blog url else None) as [m|].
    - destruct (Api.read_file env (Api.clock st) _) as [dt [text|err]]; exact Hno.
    - destruct (Cache.has (Api.cache st) (Api.clock st) url).
      + pose proof (Forall_get (fun e => Cache.key e <> Api.cache_id u)
                      (Api.cache st) (Api.clock st) url
                      ltac:(cbv beta; intros e e' Hk He; congruence) Hno) as H.
        destruct (Cache.get (Api.cache st) (Api.clock st) url) as [v c]. exact H.
      + destruct (Api.request_get env (Api.clock st) url) as [dt [text|err]]; [|exact Hno].
        cbn [snd Api.cache Api.with_cache Api.later]. apply Forall_set; [|exact Hno].
        intros e ->. exact Hurl. }
  unfold Api.get_cached_html.
  destruct (Cache.has (Api.cache st) (Api.clock st) (Api.cache_id url)).
  - pose proof (Forall_get (fun e => Cache.key e <> Api.cache_id u)
                  (Api.cache st) (Api.clock st) (Api.cache_id url)
                  ltac:(cbv beta; intros e e' Hk He; congruence) Hno) as H.
    destruct (Cache.get (Api.cache st) (Api.clock st) (Api.cache_id url)) as [v c]. exact H.
  - destruct (Api.get_cached_url env st url) as [[text|err] st1]; [|exact Hraw].
    rewrite Hdebug. exact Hraw.
Qed.

Lemma no_key_find (k : string) (c : Cache.t) :
  Notions.no_key k c -> Cache.find k c = None.
Proof.
  induction 1 as [|e c He Hc IH]; [reflexivity|].
  cbn [Cache.find]. replace (String.eqb (Cache.key e) k) with false
    by (symmetry; now apply String.eqb_neq). exact IH.
Qed.

(** ** Failed fetches *)

(** A fetch that is made and fails leaves the cache alone. *)
Lemma get_cached_url_fault (env : Api.Env) (st : Api.Server) (url : string) (err : Api.error) :
  Cache.has (Api.cache st) (Api.clock st) url = false ->
  snd (Api.origin env (Api.clock st) url) = Api.Fault err ->
  Api.get_cached_url env st url
  = (Api.Fault err, Api.later (fst (Api.origin env (Api.clock st) url)) st).
Proof.
  intros Hmiss Hfail. unfold Api.get_cached_url, Api.origin in *.
  destruct (if Api.debug env then Regex.exec Api.re_blog url else None) as [m|].
  - destruct (Api.read_file env (Api.clock st) _) as [dt r]. cbn [fst snd] in *.
    now rewrite Hfail.
  - rewrite Hmiss.
    destruct (Api.request_get env (Api.clock st) url) as [dt r]. cbn [fst snd] in *.
    now rewrite Hfail.
Qed.

(** C9: for every request for a known slug for which neither the rendered
    HTML nor the raw text is in the cache and whose fetch fails, the caller
    receives the response [404 Not Found], and the cache (like the article
    index) is as it was before the request. *)
Theorem failed_fetch_is_not_found
    (env : Api.Env) (st : Api.Server) (slug : string) (a : gmap string Api.jsval)
    (err : Api.error) :
  Api.articles st !! slug = Some a ->
  Cache.has (Api.cache st) (Api.clock st) (Api.cache_id (Api.blog_url slug)) = false ->
  Cache.has (Api.cache st) (Api.clock st) (Api.blog_url slug) = false ->
  snd (Api.origin env (Api.clock st) (Api.blog_url slug)) = Api.Fault err ->
  let '(resp, st') := Api.handle_blog env st slug in
  Api.status resp = "404 Not Found" /\
  Api.body resp = "Unable to locate the requested file." /\
  Api.cache st' = Api.cache st /\
  Api.articles st' = Api.articles st.
Proof.
  intros Hknown Hhtml Hraw Hfail. unfold Api.handle_blog, Api.get_cached_html.
  rewrite Hknown, Hhtml, (get_cached_url_fault env st _ err Hraw Hfail).
  repeat split.
Qed.

Lemma failed_fetch_is_not_found_witness :
  let env := Scenario.world false ["hello"] in
  let st := Api.mkServer Cache.empty {[ "gone" := ({[ "slug" := Api.VStr "gone" ]} : gmap string Api.jsval) ]} 7 in
  let '(resp, st') := Api.handle_blog env st "gone" in
  Api.status resp = "404 Not Found" /\
  Api.body resp = "Unable to locate the requested file." /\
  Api.cache st' = Cache.empty /\
  Api.articles st' = Api.articles st.
Proof.
  exact (failed_fetch_is_not_found (Scenario.world false ["hello"])
           (Api.mkServer Cache.empty
              {[ "gone" := ({[ "slug" := Api.VStr "gone" ]} : gmap string Api.jsval) ]} 7)
           "gone" {[ "slug" := Api.VStr "gone" ]} "HTTP 404 Not Found"
           eq_refl eq_refl eq_refl eq_refl).
Defined.

(** ** Preload *)


(** ** The matcher on runs of a class *)

Section Runs.
Import JS Regex.

(** A greedy quantifier whose continuation accepts anything takes the whole
    run of its class. *)
Lemma rep_greedy_takes_all (c : caps) (min : nat) (cls : ascii -> bool)
    (s : string) (pos n : nat) :
  rep_run (fun _ p => Some (p, c)) true min cls s pos n
  = if (min <=? n + span cls s)%nat then Some ((pos + span cls s)%nat, c) else None.
Proof.
  revert pos n. induction s as [|a s IH]; intros pos n; cbn [rep_run span].
  - rewrite !Nat.add_0_r. reflexivity.
  - destruct (cls a).
    + rewrite IH. replace (S n + span cls s)%nat with (n + S (span cls s))%nat by lia.
      replace (S pos + span cls s)%nat with (pos + S (span cls s))%nat by lia.
      destruct (min <=? n + S (span cls s))%nat eqn:Hmin; [reflexivity|].
      apply Nat.leb_gt in Hmin.
      replace (min <=? n)%nat with false by (symmetry; apply Nat.leb_gt; lia).
      reflexivity.
    + rewrite !Nat.add_0_r. reflexivity.
Qed.

Lemma match_word (at0 : bool) (s : string) :
  match_at Api.re_word at0 s
  = match span is_word s with
    | O => None
    | S n => Some (S n, no_caps)
    end.
Proof.
  unfold match_at, Api.re_word. cbn [run].
  rewrite (rep_greedy_takes_all no_caps 1 is_word s 0 0). cbn [Nat.add].
  destruct (span is_word s); reflexivity.
Qed.

(** The global scan for [\w+] reports one match for each maximal run. *)
Lemma scan_word_runs (s : string) :
  (forall at0, length (hits (scan Api.re_word at0 0 s)) = Notions.word_runs false s) /\
  length (hits (scan Api.re_word false (span is_word s) s)) = Notions.word_runs true s.
Proof.
  induction s as [|a s [IH0 IHk]].
  - split; [intros at0|]; reflexivity.
  - assert (Hnot : is_word a = false ->
                   forall at0, length (hits (scan Api.re_word at0 0 (String a s)))
                               = Notions.word_runs false s).
    { intros Ha at0. cbn [scan]. rewrite match_word. cbn [span]. rewrite Ha.
      cbn [hits]. apply IH0. }
    split.
    + intros at0. cbn [Notions.word_runs]. destruct (is_word a) eqn:Ha; [|now apply Hnot].
      cbn [scan]. rewrite match_word. cbn [span]. rewrite Ha.
      cbn [hits length]. rewrite IHk. reflexivity.
    + cbn [span Notions.word_runs]. destruct (is_word a) eqn:Ha.
      * cbn [scan]. exact IHk.
      * now apply Hnot.
Qed.

(** [count_words] by runs: [null] when there is no run. *)
Lemma count_words_runs (text : string) :
  Api.count_words text
  = match Notions.word_runs false (Api.strip_markup text) with
    | O => None
    | S n => Some (S n)
    end.
Proof.
  unfold Api.count_words, match_all.
  destruct (scan_word_runs (Api.strip_markup text)) as [H _]. specialize (H true).
  destruct (hits (scan Api.re_word true 0 (Api.strip_markup text))) as [|h l].
  - cbn in H. rewrite <- H. reflexivity.
  - rewrite <- H. cbn [length]. rewrite length_map. reflexivity.
Qed.

Lemma wordless_no_runs (s : string) (inside : bool) :
  Notions.wordless s = true -> Notions.word_runs inside s = O.
Proof.
  revert inside. induction s as [|a s IH]; intros inside; [reflexivity|].
  unfold Notions.wordless. cbn [all_chars Notions.word_runs].
  intros H. apply andb_true_iff in H as [Ha Hs].
  apply negb_true_iff in Ha. rewrite Ha. now apply IH.
Qed.

End Runs.

(** ** The word count *)

(** C8, as stated, fails: an apostrophe or a hyphen separates two matches
    of [\w+] but no two whitespace-delimited tokens, and a token of markers
    alone holds no match; and what is removed with a [<] is no HTML tag
    only: of the three words of [a < b > c], which has no tag, two are
    counted. *)
Lemma word_count_is_not_token_count :
  Api.count_words "don't stop - fail-fast" = Some 5%nat /\
  Stated.stated_word_count "don't stop - fail-fast" = 4%nat /\
  Api.count_words "a < b > c" = Some 2%nat /\
  Notions.word_runs false "a < b > c" = 3%nat.
Proof. repeat split; reflexivity. Qed.

(** C10: there are fetched article texts, the empty text for one, and
    every text that holds no word character once the HTML tags and fenced
    code blocks are stripped and the links collapsed, on which the word
    count of the preload throws: [match] gives no result, no article is
    built, and the preload ends with the exception, its callback not
    called. *)
Theorem word_count_throws (env : Api.Env) (slug : string) :
  Api.build_article env slug "" = Api.Thrown Api.null_length /\
  (forall text : string,
      Notions.wordless (Api.strip_markup text) = true ->
      Api.count_words text = None /\
      Api.build_article env slug text = Api.Thrown Api.null_length /\
      (forall (st st1 : Api.Server) (rest : list string),
          Api.get_cached_url env st (Api.blog_url slug) = (Api.Body text, st1) ->
          Api.preload_each env (slug :: rest) st = (Api.Thrown Api.null_length, st1))).
Proof.
  split; [reflexivity|].
  intros text H.
  assert (Hnone : Api.count_words text = None)
    by (rewrite count_words_runs, (wordless_no_runs _ false H); reflexivity).
  assert (Hthrow : Api.build_article env slug text = Api.Thrown Api.null_length)
    by (unfold Api.build_article; now rewrite Hnone).
  split; [exact Hnone|]. split; [exact Hthrow|].
  intros st st1 rest Hget. cbn [Api.preload_each]. now rewrite Hget, Hthrow.
Qed.

Lemma word_count_throws_witness :
  Api.count_words "<br> ... ```x```" = None /\
  Api.build_article (Scenario.world false []) "dots" "<br> ... ```x```"
    = Api.Thrown Api.null_length.
Proof.
  destruct (word_count_throws (Scenario.world false []) "dots") as [_ H].
  destruct (H "<br> ... ```x```" eq_refl) as (H1 & H2 & _).
  split; [exact H1 | exact H2].
Defined.

(** ** The blockquote renderer *)

Section Prefixes.
Import JS Regex.

Lemma strip_prefix_app (l s : string) : strip_prefix l (l +:+ s) = Some s.
Proof.
  induction l as [|a l IH]; [destruct s; reflexivity|].
  simpl. now rewrite Ascii.eqb_refl.
Qed.

Lemma take_append (a b : string) : take (String.length a) (a +:+ b) = a.
Proof.
  induction a as [|x a IH]; [destruct b; reflexivity|].
  simpl. now rewrite IH.
Qed.

Lemma drop_append (a b : string) : drop (String.length a) (a +:+ b) = b.
Proof.
  induction a as [|x a IH]; [destruct b; reflexivity|].
  simpl. exact IH.
Qed.

Lemma span_app (p : ascii -> bool) (w s : string) :
  all_chars p w = true -> span p (w +:+ s) = (String.length w + span p s)%nat.
Proof.
  induction w as [|a w IH]; [reflexivity|].
  simpl. intros H.
  apply andb_true_iff in H as [Ha Hw]. rewrite Ha, (IH Hw). reflexivity.
Qed.

(** A greedy quantifier stops at the end of the run of its class when the
    rest of the pattern matches from there. *)
Lemma rep_greedy_max (k : string -> nat -> option (nat * caps)) (min : nat)
    (cls : ascii -> bool) (w s : string) (pos n : nat) (x : nat * caps) :
  all_chars cls w = true ->
  span cls s = O ->
  (min <= n + String.length w)%nat ->
  k s (pos + String.length w)%nat = Some x ->
  rep_run k true min cls (w +:+ s) pos n = Some x.
Proof.
  revert pos n. induction w as [|a w IH]; intros pos n Hw Hs Hmin Hk.
  - cbn [String.length] in *. rewrite Nat.add_0_r in Hk, Hmin.
    change (EmptyString +:+ s) with s.
    destruct s as [|b s]; cbn [rep_run].
    + replace (min <=? n)%nat with true by (symmetry; apply Nat.leb_le; lia). exact Hk.
    + cbn [span] in Hs. destruct (cls b); [discriminate|].
      replace (min <=? n)%nat with true by (symmetry; apply Nat.leb_le; lia). exact Hk.
  - cbn [all_chars] in Hw. apply andb_true_iff in Hw as [Ha Hw].
    change (String a w +:+ s) with (String a (w +:+ s)). cbn [rep_run]. rewrite Ha.
    rewrite (IH (S pos) (S n) Hw Hs); [reflexivity | cbn [String.length] in Hmin; lia |].
    cbn [String.length] in Hk. rewrite <- Hk. f_equal. lia.
Qed.

(** The marker pattern on a text that begins with a marker. *)
Lemma match_marker (kw ws rest : string) :
  kw <> EmptyString ->
  all_chars is_word kw = true ->
  all_chars is_space ws = true ->
  span is_space rest = O ->
  match_at Blockquote.re_marker true ("[!" +:+ kw +:+ "]" +:+ ws +:+ rest)
  = Some ((2 + String.length kw + 1 + String.length ws)%nat,
          mkCaps [(1, 2)]%nat [(1, (2, 2 + String.length kw))]%nat).
Proof.
  intros Hne Hkw Hws Hrest. unfold match_at, Blockquote.re_marker.
  cbn [run andb Nat.eqb]. change ("[!" +:+ kw +:+ "]" +:+ ws +:+ rest)
    with (String "[" (String "!" (kw +:+ "]" +:+ ws +:+ rest))).
  cbn [strip_prefix Ascii.eqb Bool.eqb String.length Nat.add].
  apply rep_greedy_max; [exact Hkw | reflexivity | destruct kw; [contradiction | cbn; lia] |].
  cbn [run close_group open_group opened closed assoc Nat.eqb].
  change ("]" +:+ ws +:+ rest) with (String "]" (ws +:+ rest)).
  cbn [strip_prefix Ascii.eqb Bool.eqb String.length].
  rewrite rep_greedy_takes_all, (span_app _ _ _ Hws), Hrest.
  cbn [Nat.leb]. rewrite Nat.add_0_r. reflexivity.
Qed.

Lemma drop_add (n m : nat) (s : string) : drop (n + m) s = drop m (drop n s).
Proof.
  revert s. induction n as [|n IH]; intros s; [destruct s; reflexivity|].
  destruct s as [|a s]; [destruct m; reflexivity|]. cbn [Nat.add drop]. apply IH.
Qed.

End Prefixes.

Section Paragraphs.
Import JS Regex.

Lemma append_assoc (a b c : string) : (a +:+ b) +:+ c = a +:+ (b +:+ c).
Proof.
  induction a as [|x a IH]; [reflexivity|].
  change (String x (a +:+ b) +:+ c = String x (a +:+ b +:+ c)).
  change (String x ((a +:+ b) +:+ c) = String x (a +:+ b +:+ c)).
  now rewrite IH.
Qed.

Lemma trim_end_space (s w : string) :
  all_chars is_space w = true -> trim_end (s +:+ w) = trim_end s.
Proof.
  intros Hw. induction s as [|a s IH].
  - change (EmptyString +:+ w) with w. induction w as [|b w IHw]; [reflexivity|].
    cbn [all_chars] in Hw. apply andb_true_iff in Hw as [Hb Hw].
    cbn [trim_end]. rewrite (IHw Hw). cbn [trim_end]. now rewrite Hb.
  - change (String a s +:+ w) with (String a (s +:+ w)). cbn [trim_end]. now rewrite IH.
Qed.

Lemma trim_end_closed (s : string) (c : ascii) :
  is_space c = false -> trim_end (s +:+ String c EmptyString) = s +:+ String c EmptyString.
Proof.
  intros Hc. induction s as [|a s IH].
  - change (EmptyString +:+ String c EmptyString) with (String c EmptyString).
    cbn [trim_end]. now rewrite Hc.
  - change (String a s +:+ String c EmptyString) with (String a (s +:+ String c EmptyString)).
    cbn [trim_end]. rewrite IH. destruct s; reflexivity.
Qed.

(** A paragraph followed by a line feed, trimmed. *)
Lemma trim_paragraph (content : string) :
  trim ("<p>" +:+ content +:+ "</p>" +:+ JS.nl) = "<p>" +:+ content +:+ "</p>".
Proof.
  unfold trim.
  change (trim_start ("<p>" +:+ content +:+ "</p>" +:+ JS.nl))
    with ("<p>" +:+ content +:+ "</p>" +:+ JS.nl).
  replace ("<p>" +:+ content +:+ "</p>" +:+ JS.nl)
    with ((("<p>" +:+ content) +:+ "</p") +:+ ">" +:+ JS.nl)
    by (now rewrite !append_assoc).
  rewrite <- append_assoc, trim_end_space by reflexivity.
  rewrite trim_end_closed by reflexivity. now rewrite !append_assoc.
Qed.

(** A greedy [[\s\S]+] before [</p>] and the end of input runs up to the
    last [</p>]. *)
Lemma rep_any_last (k : string -> nat -> option (nat * caps)) (min : nat)
    (s : string) (pos n : nat) (x : nat * caps) :
  (forall p, k "/p>" p = None) -> (forall p, k "p>" p = None) ->
  (forall p, k ">" p = None) -> (forall p, k "" p = None) ->
  (min <= n + String.length s)%nat ->
  k "</p>" (pos + String.length s)%nat = Some x ->
  rep_run k true min is_any (s +:+ "</p>") pos n = Some x.
Proof.
  intros H3 H2 H1 H0. revert pos n. induction s as [|a s IH]; intros pos n Hmin Hk.
  - cbn [String.length] in *. rewrite Nat.add_0_r in Hk, Hmin.
    change (EmptyString +:+ "</p>") with "</p>". cbn [rep_run is_any].
    rewrite H3, H2, H1, H0, Hk.
    replace (min <=? n)%nat with true by (symmetry; apply Nat.leb_le; lia).
    repeat match goal with |- context [if ?b then None else None] => destruct b end;
      reflexivity.
  - change (String a s +:+ "</p>") with (String a (s +:+ "</p>")).
    cbn [rep_run is_any]. cbn [String.length] in Hmin, Hk.
    rewrite (IH (S pos) (S n)); [reflexivity | lia |].
    rewrite <- Hk. f_equal. lia.
Qed.

Lemma unwrap_paragraph (content : string) :
  content <> EmptyString ->
  Blockquote.unwrap ("<p>" +:+ content +:+ "</p>" +:+ JS.nl) = content.
Proof.
  intros Hne. unfold Blockquote.unwrap. rewrite trim_paragraph.
  unfold replace_first_with, exec.
  assert (Hm : match_at Blockquote.re_paragraph true ("<p>" +:+ content +:+ "</p>")
               = Some ((3 + String.length content + 4)%nat,
                       mkCaps [(1, 3)]%nat [(1, (3, 3 + String.length content))]%nat)).
  { unfold match_at, Blockquote.re_paragraph. cbn [run andb Nat.eqb].
    change ("<p>" +:+ content +:+ "</p>")
      with (String "<" (String "p" (String ">" (content +:+ "</p>")))).
    cbn [strip_prefix Ascii.eqb Bool.eqb String.length Nat.add].
    apply rep_any_last; try reflexivity.
    destruct content; [contradiction | cbn; lia]. }
  change ("<p>" +:+ content +:+ "</p>")
    with (String "<" (String "p" (String ">" (content +:+ "</p>")))) in *.
  cbn [search]. rewrite Hm. cbn [index groups after matched take].
  unfold group. cbn [assoc closed Nat.eqb]. unfold substring.
  replace (3 + String.length content - 3)%nat with (String.length content) by lia.
  change (drop 3 (String "<" (String "p" (String ">" (content +:+ "</p>")))))
    with (content +:+ "</p>").
  rewrite take_append.
  replace (3 + String.length content + 4)%nat with (3 + (String.length content + 4))%nat by lia.
  change (drop (3 + (String.length content + 4))
            (String "<" (String "p" (String ">" (content +:+ "</p>")))))
    with (drop (String.length content + 4) (content +:+ "</p>")).
  rewrite drop_add, drop_append. cbn [drop].
  change (EmptyString +:+ content +:+ EmptyString) with (content +:+ EmptyString).
  clear. induction content as [|a c IH]; [reflexivity|].
  change (String a (c +:+ EmptyString) = String a c). now rewrite IH.
Qed.

End Paragraphs.

(** C6, as stated, fails: when a list follows the marker line, the content
    handed to the renderer is not one run of paragraphs, the paragraph tags
    stay, the marker is not found at the start, and the blockquote is
    emitted as it is, the marker in it. *)
Lemma marker_before_list_stays_blockquote :
  let html := "<p>[!NOTE] Mind the steps:</p>" +:+ JS.nl +:+ "<ul>" +:+ JS.nl
                +:+ "<li>one</li>" +:+ JS.nl +:+ "</ul>" +:+ JS.nl in
  Blockquote.blockquote html = "<blockquote>" +:+ JS.trim html +:+ "</blockquote>" /\
  JS.includes "[!NOTE]" (Blockquote.blockquote html) = true /\
  JS.includes "blocknote" (Blockquote.blockquote html) = false.
Proof. vm_compute. auto. Qed.

(** The renderer on a content that begins with a marker. *)
Lemma marker_content_is_admonition (html kw ws rest : string) :
  kw <> EmptyString ->
  JS.all_chars JS.is_word kw = true ->
  JS.all_chars JS.is_space ws = true ->
  JS.span JS.is_space rest = O ->
  Blockquote.unwrap html = "[!" +:+ kw +:+ "]" +:+ ws +:+ rest ->
  Blockquote.blockquote html
  = Blockquote.blocknote (JS.toLowerCase kw) (Blockquote.icon_of (JS.toLowerCase kw))
      (Blockquote.ucfirst (JS.toLowerCase kw)) rest.
Proof.
  intros Hne Hkw Hws Hrest Hu.
  pose proof (match_marker kw ws rest Hne Hkw Hws Hrest) as Hm.
  unfold Blockquote.blockquote, Regex.replace_first_with, Regex.exec.
  rewrite Hu. unfold Regex.search.
  destruct ("[!" +:+ kw +:+ "]" +:+ ws +:+ rest) as [|c0 u0] eqn:Heq; [discriminate|].
  rewrite <- Heq in *. rewrite Hm.
  cbn [Regex.groups Regex.index Regex.after Regex.matched JS.take].
  assert (Hg : Regex.group ("[!" +:+ kw +:+ "]" +:+ ws +:+ rest)
                 (Regex.mkCaps [(1, 2)]%nat [(1, (2, 2 + String.length kw))]%nat) 1 = kw).
  { unfold Regex.group. cbn [Regex.assoc Regex.closed Nat.eqb]. unfold JS.substring.
    replace (2 + String.length kw - 2)%nat with (String.length kw) by lia.
    change (JS.drop 2 ("[!" +:+ kw +:+ "]" +:+ ws +:+ rest)) with (kw +:+ "]" +:+ ws +:+ rest).
    apply take_append. }
  assert (Hd : JS.drop (2 + String.length kw + 1 + String.length ws)
                 ("[!" +:+ kw +:+ "]" +:+ ws +:+ rest) = rest).
  { rewrite !drop_add.
    change (JS.drop 2 ("[!" +:+ kw +:+ "]" +:+ ws +:+ rest)) with (kw +:+ "]" +:+ ws +:+ rest).
    rewrite drop_append. change (JS.drop 1 ("]" +:+ ws +:+ rest)) with (ws +:+ rest).
    apply drop_append. }
  rewrite Hg, Hd. reflexivity.
Qed.

(** C6 (amended): for every blockquote whose content, once trimmed and
    stripped of the one pair of paragraph tags around the whole of it,
    begins with the marker [[!KEYWORD]] (any case), so for every blockquote
    made of one paragraph that begins with the marker, the renderer emits a
    styled admonition block whose title is the capitalized keyword and whose
    body has the leading marker and the white space after it stripped; in
    particular, the content of [> [!WARNING] Be careful] yields a block with
    title [Warning] and body [Be careful], without the marker. *)
Theorem marker_blockquote_is_admonition :
  (forall html kw ws rest : string,
      kw <> EmptyString ->
      JS.all_chars JS.is_word kw = true ->
      JS.all_chars JS.is_space ws = true ->
      JS.span JS.is_space rest = O ->
      Blockquote.unwrap html = "[!" +:+ kw +:+ "]" +:+ ws +:+ rest ->
      Blockquote.blockquote html
      = Blockquote.blocknote (JS.toLowerCase kw) (Blockquote.icon_of (JS.toLowerCase kw))
          (Blockquote.ucfirst (JS.toLowerCase kw)) rest) /\
  (forall kw ws rest : string,
      kw <> EmptyString ->
      JS.all_chars JS.is_word kw = true ->
      JS.all_chars JS.is_space ws = true ->
      JS.span JS.is_space rest = O ->
      Blockquote.blockquote
        ("<p>" +:+ ("[!" +:+ kw +:+ "]" +:+ ws +:+ rest) +:+ "</p>" +:+ JS.nl)
      = Blockquote.blocknote (JS.toLowerCase kw) (Blockquote.icon_of (JS.toLowerCase kw))
          (Blockquote.ucfirst (JS.toLowerCase kw)) rest) /\
  Blockquote.blockquote ("<p>[!WARNING] Be careful</p>" +:+ JS.nl)
  = Blockquote.blocknote "warning" "alert-circle" "Warning" "Be careful" /\
  JS.includes "[!WARNING]"
    (Blockquote.blockquote ("<p>[!WARNING] Be careful</p>" +:+ JS.nl)) = false.
Proof.
  split; [exact marker_content_is_admonition|].
  split; [|split; reflexivity].
  intros kw ws rest Hne Hkw Hws Hrest.
  apply (marker_content_is_admonition _ kw ws rest); try assumption.
  apply unwrap_paragraph. discriminate.
Qed.

Lemma marker_blockquote_is_admonition_witness :
  Blockquote.blockquote ("  <p>[!Tip]" +:+ JS.nl +:+ "Use the cache.</p>" +:+ JS.nl)
  = Blockquote.blocknote "tip" "lightbulb-on-outline" "Tip" "Use the cache." /\
  Blockquote.blockquote ("<p>[!CAUTION] Hot</p>" +:+ JS.nl)
  = Blockquote.blocknote "caution" "fire-alert" "Caution" "Hot".
Proof.
  destruct marker_blockquote_is_admonition as (H1 & H2 & _).
  split.
  - exact (H1 ("  <p>[!Tip]" +:+ JS.nl +:+ "Use the cache.</p>" +:+ JS.nl)
             "Tip" JS.nl "Use the cache."
             ltac:(discriminate) eq_refl eq_refl eq_refl eq_refl).
  - exact (H2 "CAUTION" " " "Hot" ltac:(discriminate) eq_refl eq_refl eq_refl).
Defined.

(** ** Front matter *)

Section FrontMatter.
Import JS Regex Api.

Lemma date_of_example (env : Env) :
  date_seconds env (VStr "2024/01/01") = VNum (1704067200 - tz_offset env 19723).
Proof.
  unfold date_seconds.
  change (Date_getTime env (to_str (VStr "2024/01/01") +:+ " 00:00:00"))
    with (Some ((19723 * 86400 - tz_offset env 19723) * 1000)%Z).
  f_equal. apply Z.div_mul. discriminate.
Qed.

End FrontMatter.

(** C7, as stated, fails: the source made of the five comment lines alone
    has no word left to count, so no article is built; a comment further
    down the source with the same key replaces the value of the first; and
    a comment left open in front of the lines takes the first of them into
    its own value, so that no title is set. *)
Lemma front_matter_example_not_parsed :
  let env := Scenario.world false [] in
  Api.build_article env "post" Stated.front_lines = Api.Thrown Api.null_length /\
  match Api.build_article env "post"
          (Stated.front_lines +:+ JS.nl +:+ "<!-- Title: Z -->" +:+ JS.nl +:+ "Body")
  with
  | Api.Done a => a !! "title"
  | _ => None
  end = Some (Api.VStr "Z") /\
  match Api.build_article env "post"
          ("<!-- Note: see " +:+ Stated.front_lines +:+ JS.nl +:+ "Body")
  with
  | Api.Done a => Some (a !! "title", a !! "note")
  | _ => None
  end = Some (None, Some (Api.VStr "see <!-- Title: X")).
Proof. repeat split; vm_compute; reflexivity. Qed.

(** ** Missing front-matter fields *)

Section MissingFields.
Import JS Regex Api.

(** A key without a comment keeps the value it had. *)
Lemma calls_keep_absent (calls : list (string * (nat -> string))) (a : article) (k : string) :
  ~ In k (map Notions.key_of calls) ->
  fold_left front_matter_call calls a !! k = a !! k.
Proof.
  revert a. induction calls as [|c calls IH]; intros a Hk; [reflexivity|].
  cbn [fold_left map In] in *. rewrite IH by tauto.
  unfold front_matter_call, set_field. destruct (String.eqb _ "__proto__"); [reflexivity|].
  apply lookup_insert_ne. intros Heq. apply Hk. left. exact Heq.
Qed.

(** A key with a comment holds a string. *)
Lemma calls_set_present (calls : list (string * (nat -> string))) (a : article) (k : string) :
  k <> "__proto__" ->
  In k (map Notions.key_of calls) \/ (exists v, a !! k = Some (VStr v)) ->
  exists v, fold_left front_matter_call calls a !! k = Some (VStr v).
Proof.
  intros Hproto. revert a. induction calls as [|c calls IH]; intros a H.
  - destruct H as [[] | H]. exact H.
  - cbn [fold_left map In] in *. apply IH.
    destruct (String.eqb (Notions.key_of c) k) eqn:Hck.
    + right. apply String.eqb_eq in Hck. unfold front_matter_call, set_field.
      fold (Notions.key_of c). rewrite Hck.
      replace (String.eqb k "__proto__") with false
        by (symmetry; now apply String.eqb_neq).
      eexists. apply lookup_insert_eq.
    + apply String.eqb_neq in Hck. destruct H as [[H | H] | [v Hv]].
      * contradiction.
      * left. exact H.
      * right. exists v. unfold front_matter_call, set_field. fold (Notions.key_of c).
        destruct (String.eqb (Notions.key_of c) "__proto__"); [exact Hv|].
        rewrite lookup_insert_ne by exact Hck. exact Hv.
Qed.

End MissingFields.




(** * Further properties of [lib/api.js] *)

(** ** The matcher: lazy runs, failing runs, anchored patterns *)

Section Matching.
Import JS Regex.

(** A lazy quantifier stops at the first point from which the rest of the
    pattern matches. *)
Lemma rep_lazy_stops (k : string -> nat -> option (nat * caps)) (min : nat)
    (cls : ascii -> bool) (w t : string) (pos n : nat) (x : nat * caps) :
  all_chars cls w = true ->
  (forall v u, w = v +:+ u -> u <> EmptyString -> forall p, k (u +:+ t) p = None) ->
  (min <= n + String.length w)%nat ->
  k t (pos + String.length w)%nat = Some x ->
  rep_run k false min cls (w +:+ t) pos n = Some x.
Proof.
  revert pos n. induction w as [|a w IH]; intros pos n Hw Hfail Hmin Hk.
  - cbn [String.length] in *. rewrite Nat.add_0_r in Hk, Hmin.
    change (EmptyString +:+ t) with t.
    destruct t as [|b t]; cbn [rep_run];
      replace (min <=? n)%nat with true by (symmetry; apply Nat.leb_le; lia);
      rewrite Hk; [reflexivity|]. destruct (cls b); reflexivity.
  - cbn [all_chars] in Hw. apply andb_true_iff in Hw as [Ha Hw].
    change (String a w +:+ t) with (String a (w +:+ t)). cbn [rep_run]. rewrite Ha.
    assert (Hstop : k (String a (w +:+ t)) pos = None)
      by (apply (Hfail EmptyString (String a w)); [reflexivity | discriminate]).
    rewrite Hstop. destruct (min <=? n)%nat.
    + apply IH; [exact Hw | | cbn [String.length] in Hmin; lia |].
      * intros v u Hvu Hu p. apply (Hfail (String a v) u); [now rewrite Hvu | exact Hu].
      * cbn [String.length] in Hk. rewrite <- Hk. f_equal. lia.
    + apply IH; [exact Hw | | cbn [String.length] in Hmin; lia |].
      * intros v u Hvu Hu p. apply (Hfail (String a v) u); [now rewrite Hvu | exact Hu].
      * cbn [String.length] in Hk. rewrite <- Hk. f_equal. lia.
Qed.

(** A greedy quantifier fails when the rest of the pattern fails at every
    point of the run. *)
Lemma rep_greedy_none (k : string -> nat -> option (nat * caps)) (min : nat)
    (cls : ascii -> bool) (s : string) (pos n : nat) :
  (forall v u, s = v +:+ u -> all_chars cls v = true -> forall p, k u p = None) ->
  rep_run k true min cls s pos n = None.
Proof.
  revert pos n. induction s as [|a s IH]; intros pos n Hfail.
  - cbn [rep_run]. rewrite (Hfail EmptyString EmptyString eq_refl eq_refl).
    destruct (min <=? n)%nat; reflexivity.
  - cbn [rep_run]. rewrite (Hfail EmptyString (String a s) eq_refl eq_refl).
    destruct (cls a) eqn:Ha; [|destruct (min <=? n)%nat; reflexivity].
    rewrite IH; [destruct (min <=? n)%nat; reflexivity|].
    intros v u Hvu Hv p. apply (Hfail (String a v) u); [now rewrite Hvu|].
    cbn [all_chars]. now rewrite Ha, Hv.
Qed.

(** A greedy quantifier gives back what it took until the rest of the
    pattern matches: it stops at the last point of the run from which the
    rest matches. *)
Lemma rep_greedy_back (k : string -> nat -> option (nat * caps)) (min : nat)
    (cls : ascii -> bool) (w t : string) (pos n : nat) (x : nat * caps) :
  all_chars cls w = true ->
  (forall v u, t = v +:+ u -> v <> EmptyString -> all_chars cls v = true ->
               forall p, k u p = None) ->
  (min <= n + String.length w)%nat ->
  k t (pos + String.length w)%nat = Some x ->
  rep_run k true min cls (w +:+ t) pos n = Some x.
Proof.
  revert pos n. induction w as [|a w IH]; intros pos n Hw Hfail Hmin Hk.
  - cbn [String.length] in *. rewrite Nat.add_0_r in Hk, Hmin.
    change (EmptyString +:+ t) with t.
    assert (Hstop : (if (min <=? n)%nat then k t pos else None) = Some x)
      by (replace (min <=? n)%nat with true by (symmetry; apply Nat.leb_le; lia);
          exact Hk).
    destruct t as [|b t]; cbn [rep_run]; [exact Hstop|].
    destruct (cls b) eqn:Hb; [|exact Hstop].
    rewrite rep_greedy_none; [exact Hstop|].
    intros v u Hvu Hv p. apply (Hfail (String b v) u); [now rewrite Hvu | discriminate|].
    cbn [all_chars]. now rewrite Hb, Hv.
  - cbn [all_chars] in Hw. apply andb_true_iff in Hw as [Ha Hw].
    change (String a w +:+ t) with (String a (w +:+ t)). cbn [rep_run]. rewrite Ha.
    rewrite (IH (S pos) (S n) Hw Hfail); [reflexivity | cbn [String.length] in Hmin; lia|].
    cbn [String.length] in Hk. rewrite <- Hk. f_equal. lia.
Qed.

Lemma drop_all (s : string) : drop (String.length s) s = EmptyString.
Proof. induction s as [|a s IH]; [reflexivity | exact IH]. Qed.

Lemma append_empty (s : string) : s +:+ EmptyString = s.
Proof.
  induction s as [|a s IH]; [reflexivity|].
  change (String a (s +:+ EmptyString) = String a s). now rewrite IH.
Qed.

(** A text of a class has none of the characters outside the class. *)
Lemma class_excludes (p : ascii -> bool) (c : ascii) (s : string) :
  p c = false -> all_chars p s = true -> includes (String c EmptyString) s = false.
Proof.
  intros Hc. induction s as [|a s IH]; [reflexivity|].
  cbn [all_chars]. intros H. apply andb_true_iff in H as [Ha Hs].
  cbn [includes strip_prefix].
  destruct (Ascii.eqb c a) eqn:Hca; [apply Ascii.eqb_eq in Hca; congruence|].
  now apply IH.
Qed.

Lemma includes_char_app (c : ascii) (a b : string) :
  includes (String c EmptyString) a = false ->
  includes (String c EmptyString) b = false ->
  includes (String c EmptyString) (a +:+ b) = false.
Proof.
  intros Ha Hb. induction a as [|x a IH]; [exact Hb|].
  change (String x a +:+ b) with (String x (a +:+ b)).
  cbn [includes strip_prefix] in *.
  destruct (Ascii.eqb c x); [discriminate|]. now apply IH.
Qed.

End Matching.

(** ** The dispatcher *)

Section Dispatch.
Import JS Regex Api Router.

(** The first question mark of a URL, when what follows it is one line. *)
Lemma search_query (path q : string) (at0 : bool) (idx : nat) :
  includes "?" path = false ->
  all_chars is_dot q = true ->
  exists m, search re_query at0 idx (path +:+ "?" +:+ q) = Some m /\
            index m = (idx + String.length path)%nat /\ after m = EmptyString.
Proof.
  intros Hpath Hq. revert at0 idx. induction path as [|a path IH]; intros at0 idx.
  - change (EmptyString +:+ "?" +:+ q) with (String "?" q).
    assert (Hm : match_at re_query at0 (String "?" q) = Some (S (String.length q), no_caps)).
    { unfold match_at, re_query. cbn [run strip_prefix Ascii.eqb Bool.eqb String.length Nat.add].
      rewrite <- (append_empty q) at 1.
      apply rep_greedy_max; [exact Hq | reflexivity | lia | reflexivity]. }
    cbn [search]. rewrite Hm. eexists. split; [reflexivity|].
    cbn [index after drop String.length]. split; [lia | apply drop_all].
  - change (String a path +:+ "?" +:+ q) with (String a (path +:+ "?" +:+ q)).
    cbn [includes strip_prefix] in Hpath.
    destruct (Ascii.eqb "?" a) eqn:Ha; [discriminate|].
    assert (Hm : match_at re_query at0 (String a (path +:+ "?" +:+ q)) = None)
      by (unfold match_at, re_query; cbn [run strip_prefix]; now rewrite Ha).
    cbn [search]. rewrite Hm.
    destruct (IH Hpath false (S idx)) as (m & Hs & Hi & Hafter).
    exists m. split; [exact Hs|]. split; [cbn [String.length]; lia | exact Hafter].
Qed.

Lemma search_no_query (url : string) (at0 : bool) (idx : nat) :
  includes "?" url = false -> search re_query at0 idx url = None.
Proof.
  revert at0 idx. induction url as [|a url IH]; intros at0 idx H; [reflexivity|].
  cbn [includes strip_prefix] in H.
  destruct (Ascii.eqb "?" a) eqn:Ha; [discriminate|].
  assert (Hm : match_at re_query at0 (String a url) = None)
    by (unfold match_at, re_query; cbn [run strip_prefix]; now rewrite Ha).
  cbn [search]. rewrite Hm. now apply IH.
Qed.

Lemma strip_query_plain (url : string) :
  includes "?" url = false -> strip_query url = url.
Proof.
  intros H. unfold strip_query, replace_first_with, exec. now rewrite search_no_query.
Qed.

Lemma strip_query_cut (path q : string) :
  includes "?" path = false ->
  all_chars is_dot q = true ->
  strip_query (path +:+ "?" +:+ q) = path +:+ "undefined".
Proof.
  intros Hpath Hq. unfold strip_query, replace_first_with, exec.
  destruct (search_query path q true 0 Hpath Hq) as (m & Hs & Hi & Hafter).
  rewrite Hs, Hi, Hafter. cbn [Nat.add]. rewrite take_append. reflexivity.
Qed.

(** The query pattern has no anchor at the start: an attempt does not
    depend on where it is made. *)
Lemma match_query_anywhere (at0 : bool) (s : string) :
  match_at re_query at0 s = match_at re_query true s.
Proof. reflexivity. Qed.

Lemma search_query_shift (s : string) (at0 at0' : bool) (idx idx' : nat) :
  match search re_query at0 idx s, search re_query at0' idx' s with
  | Some m, Some m' =>
      (index m + idx' = index m' + idx)%nat /\ after m = after m' /\ (idx <= index m)%nat
  | None, None => True
  | _, _ => False
  end.
Proof.
  revert at0 at0' idx idx'. induction s as [|a s IH]; intros at0 at0' idx idx'.
  - cbn [search]. rewrite (match_query_anywhere at0), (match_query_anywhere at0').
    destruct (match_at re_query true EmptyString) as [[len c]|]; [|exact I].
    cbn [index after]. repeat split; lia.
  - cbn [search]. rewrite (match_query_anywhere at0), (match_query_anywhere at0').
    destruct (match_at re_query true (String a s)) as [[len c]|].
    + cbn [index after]. repeat split; lia.
    + specialize (IH false false (S idx) (S idx')).
      destruct (search re_query false (S idx) s), (search re_query false (S idx') s);
        try exact IH. destruct IH as (Hi & Ha & Hle). repeat split; [lia | exact Ha | lia].
Qed.

(** What is in front of the first question mark stays. *)
Lemma strip_query_cons (a : ascii) (s : string) :
  Ascii.eqb "?" a = false -> strip_query (String a s) = String a (strip_query s).
Proof.
  intros Ha. unfold strip_query, replace_first_with, exec.
  assert (Hm : match_at re_query true (String a s) = None)
    by (unfold match_at, re_query; cbn [run strip_prefix]; now rewrite Ha).
  cbn [search]. rewrite Hm.
  pose proof (search_query_shift s false true 1 0) as H.
  destruct (search re_query false 1 s) as [m|], (search re_query true 0 s) as [m'|];
    try contradiction; [|reflexivity].
  destruct H as (Hi & Hafter & Hle). rewrite Hafter.
  replace (index m) with (S (index m')) by lia. reflexivity.
Qed.

(** X1: [handler] cuts the query string off with a [replace] that has no
    replacement: a path without question mark followed by a query of one
    line becomes the path followed by the text [undefined]; a URL without
    question mark is left as it is. *)
Theorem query_becomes_undefined (path q : string) :
  includes "?" path = false ->
  (all_chars is_dot q = true ->
   strip_query (path +:+ "?" +:+ q) = path +:+ "undefined") /\
  strip_query path = path.
Proof.
  intros Hpath. split.
  - intros Hq. now apply strip_query_cut.
  - now apply strip_query_plain.
Qed.

Lemma query_becomes_undefined_witness :
  strip_query "/blog/hello?utm_source=feed" = "/blog/helloundefined" /\
  strip_query "/blog/hello" = "/blog/hello".
Proof.
  destruct (query_becomes_undefined "/blog/hello" "utm_source=feed" eq_refl) as [H1 H2].
  split; [exact (H1 eq_refl) | exact H2].
Defined.

(** A pattern anchored at the start matches nowhere but at the start. *)
Lemma rsearch_anchored (r : list ratom) (s : string) :
  rsearch (Plain Bos :: r) false s = None.
Proof. induction s as [|a s IH]; [reflexivity|]. cbn [rsearch rrun andb]. exact IH. Qed.

(** What may follow the slug or the id: nothing, or one slash. *)
Lemma tail_rejected (i : nat) (at0 : bool) (s : string) (p : nat) (c : caps) :
  s <> EmptyString -> s <> "/" ->
  rrun [Plain (Close i); Opt "/"; Plain Eos] at0 s p c = None.
Proof.
  intros Hne Hslash. cbn [rrun].
  destruct s as [|a [|b s]]; [contradiction | |].
  - cbn [strip_prefix]. destruct (Ascii.eqb "/" a) eqn:Ha; [|reflexivity].
    apply Ascii.eqb_eq in Ha. subst a. contradiction.
  - cbn [strip_prefix]. destruct (Ascii.eqb "/" a); reflexivity.
Qed.

Lemma app_not_slash (u : string) : u <> EmptyString -> u +:+ "/" <> "/".
Proof. destruct u as [|a [|b u]]; [contradiction | discriminate | discriminate]. Qed.

Lemma app_not_empty (u t : string) : u <> EmptyString -> u +:+ t <> EmptyString.
Proof. destruct u; [contradiction | discriminate]. Qed.

(** The article pattern on [/blog/<slug>] and [/blog/<slug>/]. *)
Lemma match_article (slug t : string) :
  slug <> EmptyString ->
  all_chars is_dot slug = true ->
  (forall v, slug <> v +:+ "/") ->
  t = EmptyString \/ t = "/" ->
  exists g, rmatch re_article ("/blog/" +:+ slug +:+ t) = Some g /\ g 1%nat = slug.
Proof.
  intros Hne Hdot Hend Ht. unfold rmatch.
  change ("/blog/" +:+ slug +:+ t)
    with (String "/" (String "b" (String "l" (String "o" (String "g" (String "/"
            (slug +:+ t))))))).
  cbn [rsearch]. unfold re_article.
  cbn [rrun andb Nat.eqb strip_prefix Ascii.eqb Bool.eqb String.length Nat.add].
  set (c1 := open_group 1 6 no_caps).
  assert (Hfail : forall v u, slug = v +:+ u -> u <> EmptyString -> forall p,
             rrun [Plain (Close 1); Opt "/"; Plain Eos] true (u +:+ t) p c1 = None).
  { intros v u Hvu Hu p. apply tail_rejected.
    - now apply app_not_empty.
    - destruct Ht as [-> | ->].
      + rewrite append_empty. intros ->. apply (Hend v). exact Hvu.
      + now apply app_not_slash. }
  assert (Hlen : (1 <= 0 + String.length slug)%nat)
    by (destruct slug; [contradiction | cbn; lia]).
  assert (Hg : group (String "/" (String "b" (String "l" (String "o" (String "g"
                 (String "/" (slug +:+ t)))))))
                 (close_group 1 (6 + String.length slug) c1) 1 = slug).
  { unfold group, c1. cbn [close_group open_group opened closed assoc Nat.eqb].
    unfold substring.
    replace (6 + String.length slug - 6)%nat with (String.length slug) by lia.
    cbn [drop]. apply take_append. }
  destruct Ht as [-> | ->].
  - rewrite (rep_lazy_stops _ 1 is_dot slug EmptyString 6 0
               ((6 + String.length slug)%nat, close_group 1 (6 + String.length slug) c1)
               Hdot Hfail Hlen eq_refl).
    eexists. split; [reflexivity | exact Hg].
  - rewrite (rep_lazy_stops _ 1 is_dot slug "/" 6 0
               ((6 + String.length slug + 1)%nat, close_group 1 (6 + String.length slug) c1)
               Hdot Hfail Hlen eq_refl).
    eexists. split; [reflexivity | exact Hg].
Qed.

(** The page pattern on [/view/<id>] and [/view/<id>/]. *)
Lemma match_view (id t : string) :
  id <> EmptyString ->
  all_chars is_name id = true ->
  t = EmptyString \/ t = "/" ->
  exists g, rmatch re_view ("/view/" +:+ id +:+ t) = Some g /\ g 1%nat = id.
Proof.
  intros Hne Hname Ht. unfold rmatch.
  change ("/view/" +:+ id +:+ t)
    with (String "/" (String "v" (String "i" (String "e" (String "w" (String "/"
            (id +:+ t))))))).
  cbn [rsearch]. unfold re_view.
  cbn [rrun andb Nat.eqb strip_prefix Ascii.eqb Bool.eqb String.length Nat.add].
  set (c1 := open_group 1 6 no_caps).
  assert (Hlen : (1 <= 0 + String.length id)%nat)
    by (destruct id; [contradiction | cbn; lia]).
  assert (Hg : group (String "/" (String "v" (String "i" (String "e" (String "w"
                 (String "/" (id +:+ t)))))))
                 (close_group 1 (6 + String.length id) c1) 1 = id).
  { unfold group, c1. cbn [close_group open_group opened closed assoc Nat.eqb].
    unfold substring.
    replace (6 + String.length id - 6)%nat with (String.length id) by lia.
    cbn [drop]. apply take_append. }
  destruct Ht as [-> | ->].
  - rewrite (rep_greedy_max _ 1 is_name id EmptyString 6 0
               ((6 + String.length id)%nat, close_group 1 (6 + String.length id) c1)
               Hname eq_refl Hlen eq_refl).
    eexists. split; [reflexivity | exact Hg].
  - rewrite (rep_greedy_max _ 1 is_name id "/" 6 0
               ((6 + String.length id + 1)%nat, close_group 1 (6 + String.length id) c1)
               Hname eq_refl Hlen eq_refl).
    eexists. split; [reflexivity | exact Hg].
Qed.

(** The document pattern on [/doc/<repo>/<path>]. *)
Lemma match_doc (repo path : string) :
  repo <> EmptyString -> all_chars is_name repo = true ->
  path <> EmptyString -> all_chars is_dot path = true ->
  exists g, rmatch re_doc ("/doc/" +:+ repo +:+ "/" +:+ path) = Some g /\
            g 1%nat = repo /\ g 2%nat = path.
Proof.
  intros Hr Hname Hp Hdot. unfold rmatch.
  change ("/doc/" +:+ repo +:+ "/" +:+ path)
    with (String "/" (String "d" (String "o" (String "c" (String "/"
            (repo +:+ String "/" path)))))).
  cbn [rsearch]. unfold re_doc.
  cbn [rrun andb Nat.eqb strip_prefix Ascii.eqb Bool.eqb String.length Nat.add].
  set (c1 := open_group 1 5 no_caps).
  set (n1 := (5 + String.length repo)%nat).
  set (c2 := open_group 2 (n1 + 1) (close_group 1 n1 c1)).
  set (n2 := (n1 + 1 + String.length path)%nat).
  assert (Hinner : rrun [Plain (Close 1); Plain (Lit "/"); Plain (Open 2);
                         Plain (Rep true 1 is_dot); Plain (Close 2); Plain Eos]
                     true (String "/" path) n1 c1 = Some (n2, close_group 2 n2 c2)).
  { cbn [rrun strip_prefix Ascii.eqb Bool.eqb String.length]. fold c2.
    rewrite <- (append_empty path) at 1.
    apply rep_greedy_max; [exact Hdot | reflexivity | | reflexivity].
    destruct path; [contradiction | cbn; lia]. }
  rewrite (rep_greedy_max _ 1 is_name repo (String "/" path) 5 0 (n2, close_group 2 n2 c2)
             Hname eq_refl); [| destruct repo; [contradiction | cbn; lia] | exact Hinner].
  eexists. split; [reflexivity|].
  unfold group, c2, c1, n2, n1.
  cbn [close_group open_group opened closed assoc Nat.eqb]. unfold substring. split.
  - replace (5 + String.length repo - 5)%nat with (String.length repo) by lia.
    cbn [drop]. apply take_append.
  - replace (5 + String.length repo + 1 + String.length path - (5 + String.length repo + 1))%nat
      with (String.length path) by lia.
    replace (5 + String.length repo + 1)%nat with (5 + (String.length repo + 1))%nat by lia.
    cbn [Nat.add drop]. rewrite drop_add, drop_append. cbn [drop].
    rewrite <- (append_empty path) at 2. apply take_append.
Qed.

Lemma last_char_slash (v : string) : Shapes.last_char (v +:+ "/") = Some "/"%char.
Proof.
  induction v as [|c v IH]; [reflexivity|].
  change (String c v +:+ "/") with (String c (v +:+ "/")). cbn [Shapes.last_char].
  rewrite IH. destruct v; reflexivity.
Qed.

Lemma name_is_plain (s : string) : all_chars is_name s = true -> includes "?" s = false.
Proof. apply class_excludes. reflexivity. Qed.

(** A pattern that begins with [^/x] on a text that begins with [/c]. *)
Lemma not_article (c : ascii) (s : string) :
  Ascii.eqb "b" c = false -> rmatch re_article (String "/" (String c s)) = None.
Proof.
  intros H. unfold rmatch, re_article.
  cbn [rsearch rrun andb Nat.eqb strip_prefix].
  change (Ascii.eqb "/" "/") with true. cbv iota. rewrite H.
  destruct s; cbn [rsearch rrun andb]; [reflexivity | apply rsearch_anchored].
Qed.

Lemma not_latest (c : ascii) (s : string) :
  Ascii.eqb "b" c = false -> rmatch re_latest (String "/" (String c s)) = None.
Proof.
  intros H. unfold rmatch, re_latest.
  cbn [rsearch rrun andb Nat.eqb strip_prefix].
  change (Ascii.eqb "/" "/") with true. cbv iota. rewrite H.
  destruct s; cbn [rsearch rrun andb]; [reflexivity | apply rsearch_anchored].
Qed.

Lemma not_view (c : ascii) (s : string) :
  Ascii.eqb "v" c = false -> rmatch re_view (String "/" (String c s)) = None.
Proof.
  intros H. unfold rmatch, re_view.
  cbn [rsearch rrun andb Nat.eqb strip_prefix].
  change (Ascii.eqb "/" "/") with true. cbv iota. rewrite H.
  destruct s; cbn [rsearch rrun andb]; [reflexivity | apply rsearch_anchored].
Qed.

Lemma not_doc (c : ascii) (s : string) :
  Ascii.eqb "d" c = false -> rmatch re_doc (String "/" (String c s)) = None.
Proof.
  intros H. unfold rmatch, re_doc.
  cbn [rsearch rrun andb Nat.eqb strip_prefix].
  change (Ascii.eqb "/" "/") with true. cbv iota. rewrite H.
  destruct s; cbn [rsearch rrun andb]; [reflexivity | apply rsearch_anchored].
Qed.

(** The route of an article path that has no query. *)
Lemma route_article (env : Env) (slug t : string) :
  slug <> EmptyString ->
  all_chars is_dot slug = true ->
  includes "?" slug = false ->
  (forall v, slug <> v +:+ "/") ->
  t = EmptyString \/ t = "/" ->
  route env ("/blog/" +:+ slug +:+ t) = ToBlog slug.
Proof.
  intros Hne Hdot Hq Hend Ht. unfold route. cbv zeta.
  rewrite strip_query_plain.
  - destruct (match_article slug t Hne Hdot Hend Ht) as (g & -> & Hg). now rewrite Hg.
  - apply (includes_char_app "?" "/blog/"); [reflexivity|].
    apply includes_char_app; [exact Hq | destruct Ht as [-> | ->]; reflexivity].
Qed.

(** X2: [handler] gives [/blog/<slug>] and [/blog/<slug>/] to [handle_blog]
    with that slug, for every slug of one line that is not empty, has no
    question mark and does not end with a slash; [/blog] and [/blog/] go to
    the first of the configured articles. *)
Theorem blog_routes (env : Env) (slug : string) :
  slug <> EmptyString ->
  all_chars is_dot slug = true ->
  includes "?" slug = false ->
  Shapes.last_char slug <> Some "/"%char ->
  route env ("/blog/" +:+ slug) = ToBlog slug /\
  route env ("/blog/" +:+ slug +:+ "/") = ToBlog slug /\
  route env "/blog" = ToBlog (latest_slug env) /\
  route env "/blog/" = ToBlog (latest_slug env).
Proof.
  intros Hne Hdot Hq Hlast.
  assert (Hend : forall v, slug <> v +:+ "/")
    by (intros v ->; apply Hlast, last_char_slash).
  split; [rewrite <- (append_empty slug) at 1; apply route_article; auto|].
  split; [apply route_article; auto|]. split; reflexivity.
Qed.

Lemma blog_routes_witness :
  route (Scenario.world false ["hello"]) "/blog/ebpf-network-monitoring/"
  = ToBlog "ebpf-network-monitoring".
Proof.
  apply (blog_routes (Scenario.world false ["hello"]) "ebpf-network-monitoring");
    [discriminate | reflexivity | reflexivity | discriminate].
Defined.

(** X3: [handler] gives [/view/<id>] and [/view/<id>/] to [handle_page]
    with that id, for every id made of letters, digits, underscores and
    hyphens. *)
Theorem view_routes (env : Env) (id : string) :
  id <> EmptyString ->
  all_chars is_name id = true ->
  route env ("/view/" +:+ id) = ToPage id /\
  route env ("/view/" +:+ id +:+ "/") = ToPage id.
Proof.
  intros Hne Hname.
  assert (Hroute : forall t, t = EmptyString \/ t = "/" ->
                             route env ("/view/" +:+ id +:+ t) = ToPage id).
  { intros t Ht. unfold route. cbv zeta. rewrite strip_query_plain.
    - destruct (match_view id t Hne Hname Ht) as (g & Hm & Hg).
      change ("/view/" +:+ id +:+ t)
        with (String "/" (String "v" ("iew/" +:+ id +:+ t))) in *.
      rewrite not_article, not_latest, Hm by reflexivity. now rewrite Hg.
    - apply (includes_char_app "?" "/view/"); [reflexivity|].
      apply includes_char_app;
        [now apply name_is_plain | destruct Ht as [-> | ->]; reflexivity]. }
  split; [rewrite <- (append_empty id) at 1; apply Hroute; now left|].
  apply Hroute; now right.
Qed.

Lemma view_routes_witness :
  route (Scenario.world false []) "/view/pixl-server-web/" = ToPage "pixl-server-web".
Proof.
  apply (view_routes (Scenario.world false []) "pixl-server-web");
    [discriminate | reflexivity].
Defined.

(** X4: [handler] gives [/doc/<repo>/<path>] to [handle_doc] with that
    repository and that path, slashes included, for every repository name
    made of letters, digits, underscores and hyphens and every path of one
    line without question mark. *)
Theorem doc_routes (env : Env) (repo path : string) :
  repo <> EmptyString ->
  all_chars is_name repo = true ->
  path <> EmptyString ->
  all_chars is_dot path = true ->
  includes "?" path = false ->
  route env ("/doc/" +:+ repo +:+ "/" +:+ path) = ToDoc repo path.
Proof.
  intros Hr Hname Hp Hdot Hq. unfold route. cbv zeta. rewrite strip_query_plain.
  - destruct (match_doc repo path Hr Hname Hp Hdot) as (g & Hm & Hg1 & Hg2).
    change ("/doc/" +:+ repo +:+ "/" +:+ path)
      with (String "/" (String "d" ("oc/" +:+ repo +:+ "/" +:+ path))) in *.
    rewrite not_article, not_latest, not_view, Hm by reflexivity.
    now rewrite Hg1, Hg2.
  - apply (includes_char_app "?" "/doc/"); [reflexivity|].
    apply includes_char_app; [now apply name_is_plain|].
    apply (includes_char_app "?" "/"); [reflexivity | exact Hq].
Qed.

Lemma doc_routes_witness :
  route (Scenario.world false []) "/doc/xyops/docs/hosting.md"
  = ToDoc "xyops" "docs/hosting.md".
Proof.
  apply (doc_routes (Scenario.world false []) "xyops" "docs/hosting.md");
    [discriminate | reflexivity | discriminate | reflexivity | reflexivity].
Defined.

(** X5: every request whose URL begins with [/feed] goes to [handle_feed],
    whatever follows: the pattern has no end anchor, so [/feed.xml],
    [/feed/] and [/feedback] are all the feed. *)
Theorem feed_prefix_routes (env : Env) (rest : string) :
  route env ("/feed" +:+ rest) = ToFeed.
Proof.
  unfold route. cbv zeta.
  change ("/feed" +:+ rest)
    with (String "/" (String "f" (String "e" (String "e" (String "d" rest))))).
  rewrite !strip_query_cons by reflexivity.
  rewrite not_article, not_latest, not_view, not_doc by reflexivity.
  reflexivity.
Qed.

End Dispatch.

(** ** The handlers *)

Section Handlers.
Import JS Regex Api Router Pages.

(** X6: a request for an article with a query string is answered with
    [404 Not Found]: the slug looked up is the one of the URL followed by
    the text [undefined], and the state stays as it is. *)
Theorem article_query_not_found
    (env : Env) (views : Views) (site : Site) (slug q url : string) :
  slug <> EmptyString ->
  all_chars is_dot slug = true ->
  includes "?" slug = false ->
  all_chars is_dot q = true ->
  articles (server site) !! (slug +:+ "undefined") = None ->
  handler env views site ("/blog/" +:+ slug +:+ "?" +:+ q) url
  = (Done (mkResponse "404 Not Found" []
             ("Unable to locate the requested article: " +:+ slug +:+ "undefined")),
     site).
Proof.
  intros Hne Hdot Hplain Hq Hnone. unfold handler, route. cbv zeta.
  replace ("/blog/" +:+ slug +:+ "?" +:+ q) with (("/blog/" +:+ slug) +:+ "?" +:+ q)
    by apply append_assoc.
  rewrite strip_query_cut;
    [| apply (includes_char_app "?" "/blog/"); [reflexivity | exact Hplain] | exact Hq].
  rewrite append_assoc.
  destruct (match_article (slug +:+ "undefined") EmptyString) as (g & Hm & Hg).
  - now apply app_not_empty.
  - clear -Hdot. induction slug as [|a s IH]; [reflexivity|].
    cbn [all_chars] in Hdot. apply andb_true_iff in Hdot as [Ha Hs].
    change (String a s +:+ "undefined") with (String a (s +:+ "undefined")).
    cbn [all_chars]. now rewrite Ha, IH.
  - intros v Hv. apply (f_equal Shapes.last_char) in Hv.
    rewrite last_char_slash in Hv.
    replace (slug +:+ "undefined") with ((slug +:+ "undefine") +:+ "d") in Hv
      by (rewrite append_assoc; reflexivity).
    revert Hv. generalize (slug +:+ "undefine"). intros w.
    induction w as [|c w IH]; [discriminate|].
    change (String c w +:+ "d") with (String c (w +:+ "d")). cbn [Shapes.last_char].
    destruct (w +:+ "d") eqn:Hw; [destruct w; discriminate | exact IH].
  - now left.
  - rewrite append_empty in Hm. rewrite Hm, Hg. unfold handle_blog. rewrite Hnone.
    destruct site; reflexivity.
Qed.

Lemma article_query_not_found_witness :
  fst (handler (Scenario.world false ["hello"])
         (mkViews (fun _ _ => "{}") (fun _ _ _ _ => "{}") (fun _ _ _ _ => "{}")
            (fun _ => "now") (fun _ => "<rss/>"))
         (mkSite (snd (startup (Scenario.world false ["hello"]) 0)) ∅)
         "/blog/hello?utm_source=feed" "https://pixlcore.com/blog/hello?utm_source=feed")
  = Done (mkResponse "404 Not Found" []
            "Unable to locate the requested article: helloundefined").
Proof.
  rewrite (article_query_not_found _ _ _ "hello" "utm_source=feed");
    [reflexivity | discriminate | reflexivity | reflexivity | reflexivity | reflexivity].
Defined.

(** *** The payload in the page *)

Lemma match_script (at0 : bool) (s : string) :
  match_at re_script at0 s
  = match strip_prefix "</script>" s with
    | Some _ => Some (9%nat, no_caps)
    | None => None
    end.
Proof.
  unfold match_at, re_script. cbn [run]. destruct (strip_prefix "</script>" s); reflexivity.
Qed.

Lemma strip_prefix_cons (c a : ascii) (u s : string) :
  strip_prefix (String c u) (String a s) = if Ascii.eqb c a then strip_prefix u s else None.
Proof. reflexivity. Qed.

Lemma split_script_skipped (o : string) :
  includes "</script>" (split_script +:+ o) = includes "</script>" o.
Proof. reflexivity. Qed.

Lemma split_script_head (c : ascii) (u o : string) :
  Ascii.eqb "<" c = false -> strip_prefix (String c u) (split_script +:+ o) = None.
Proof.
  intros Hc.
  replace (split_script +:+ o) with (String "<" (drop 1 split_script +:+ o)) by reflexivity.
  cbn [strip_prefix]. now rewrite Ascii.eqb_sym, Hc.
Qed.

(** A text without [<] at the start of the escaped payload is at the start
    of the payload. *)
Lemma escaped_prefix (u s : string) (at0 : bool) :
  includes "<" u = false ->
  strip_prefix u (rebuild (fun _ _ => split_script) (scan re_script at0 0 s)) <> None ->
  strip_prefix u s <> None.
Proof.
  revert s at0. induction u as [|c u IH]; intros s at0 Hu; [discriminate|].
  cbn [includes strip_prefix] in Hu.
  destruct (Ascii.eqb "<" c) eqn:Hc; [discriminate|].
  destruct s as [|a s]; cbn [scan]; rewrite match_script.
  - cbn [strip_prefix rebuild]. auto.
  - destruct (strip_prefix "</script>" (String a s)) eqn:Hm.
    + cbn [rebuild]. rewrite split_script_head by exact Hc. auto.
    + cbn [rebuild strip_prefix]. destruct (Ascii.eqb c a); [|auto].
      apply IH. exact Hu.
Qed.

Lemma escaped_scan (s : string) (skip : nat) (at0 : bool) :
  includes "</script>" (rebuild (fun _ _ => split_script) (scan re_script at0 skip s))
  = false.
Proof.
  revert skip at0. induction s as [|a s IH]; intros skip at0.
  - destruct skip; cbn [scan]; [rewrite match_script|]; reflexivity.
  - destruct skip as [|k]; cbn [scan]; [|apply IH].
    rewrite match_script.
    destruct (strip_prefix "</script>" (String a s)) eqn:Hm.
    + cbn [rebuild]. rewrite split_script_skipped. apply IH.
    + cbn [rebuild]. specialize (IH 0%nat false).
      remember (rebuild (fun _ _ => split_script) (scan re_script false 0 s)) as o eqn:Ho.
      cbn [includes]. rewrite IH.
      destruct (strip_prefix "</script>" (String a o)) eqn:Hp; [|reflexivity].
      exfalso. change "</script>" with (String "<" "/script>") in Hm, Hp.
      rewrite strip_prefix_cons in Hm, Hp.
      destruct (Ascii.eqb "<" a); [|discriminate].
      apply (escaped_prefix "/script>" s false eq_refl); [rewrite <- Ho, Hp; discriminate|].
      exact Hm.
Qed.

(** A replacement text without dollar sign stands for itself. *)
Lemma expand_plain (before matched after tpl : string) :
  includes "$" tpl = false -> expand before matched after tpl = tpl.
Proof.
  induction tpl as [|a tpl IH]; [reflexivity|].
  change "$" with (String "$" EmptyString). cbn [includes]. rewrite strip_prefix_cons.
  rewrite Ascii.eqb_sym. cbn [expand].
  destruct (Ascii.eqb a "$"); [discriminate|]. intros H. now rewrite IH.
Qed.

Lemma dollar_absent (a : ascii) (s : string) :
  includes "$" (String a s) = false ->
  Ascii.eqb "$" a = false /\ includes "$" s = false.
Proof.
  change "$" with (String "$" EmptyString). cbn [includes]. rewrite strip_prefix_cons.
  destruct (Ascii.eqb "$" a); [discriminate | auto].
Qed.

Lemma split_script_plain (o : string) :
  includes "$" (split_script +:+ o) = includes "$" o.
Proof. reflexivity. Qed.

(** The escape brings no dollar sign into the payload. *)
Lemma escaped_plain (s : string) (skip : nat) (at0 : bool) :
  includes "$" s = false ->
  includes "$" (rebuild (fun _ _ => split_script) (scan re_script at0 skip s)) = false.
Proof.
  revert skip at0. induction s as [|a s IH]; intros skip at0 Hs.
  - destruct skip; cbn [scan]; [rewrite match_script|]; reflexivity.
  - apply dollar_absent in Hs as [Ha Hs].
    destruct skip as [|k]; cbn [scan]; [|now apply IH].
    rewrite match_script. destruct (strip_prefix "</script>" (String a s)).
    + cbn [rebuild]. rewrite split_script_plain. now apply IH.
    + cbn [rebuild]. change "$" with (String "$" EmptyString). cbn [includes].
      rewrite strip_prefix_cons, Ha. now apply IH.
Qed.

(** X7: the payload of [handle_page] and [handle_doc] holds no [</script>]
    once [payload.replace(/<\/script>/g, ...)] has been applied, whatever
    it was before.  That is the text given to [html.replace] as the
    replacement, not yet the page: a payload without dollar sign is still
    without one after the escape, and is put into the page as it is, in the
    place of the placeholder, so the part of the page it makes holds no
    [</script>]; with a dollar sign the pairs of X9 are expanded, and [$']
    or [$`] can copy a [</script>] of the template into it. *)
Theorem escape_script_safe (payload : string) :
  includes "</script>" (escape_script payload) = false /\
  (includes "$" payload = false ->
   includes "$" (escape_script payload) = false /\
   forall (html : string) (m : found),
     exec re_data html = Some m ->
     fill_page html (escape_script payload)
     = take (index m) html +:+ escape_script payload +:+ after m).
Proof.
  split; [apply escaped_scan|]. intros Hplain.
  assert (Hesc : includes "$" (escape_script payload) = false)
    by (apply escaped_plain; exact Hplain).
  split; [exact Hesc|]. intros html m Hm. unfold fill_page. rewrite Hm.
  now rewrite expand_plain.
Qed.

Lemma escape_script_safe_witness :
  let payload := "{body:'<script>x</script>'}" in
  includes "</script>" (escape_script payload) = false /\
  fill_page "<script><!-- DATA --></script>" (escape_script payload)
  = "<script>" +:+ escape_script payload +:+ "</script>".
Proof.
  intros payload. destruct (escape_script_safe payload) as [Hsafe Hpage].
  split; [exact Hsafe|].
  destruct (Hpage eq_refl) as [_ Hfill].
  apply (Hfill "<script><!-- DATA --></script>"
           (mkFound 8 "<!-- DATA -->" (fun _ => EmptyString) "</script>")).
  unfold exec. cbn. reflexivity.
Defined.

Lemma expand_app (before matched after p t : string) :
  includes "$" p = false ->
  expand before matched after (p +:+ t) = p +:+ expand before matched after t.
Proof.
  induction p as [|a p IH]; [reflexivity|].
  change "$" with (String "$" EmptyString). cbn [includes]. rewrite strip_prefix_cons.
  rewrite Ascii.eqb_sym.
  change (String a p +:+ t) with (String a (p +:+ t)). cbn [expand].
  destruct (Ascii.eqb a "$"); [discriminate|]. intros H. rewrite IH by exact H. reflexivity.
Qed.

(** X8: a payload without dollar sign is put into the page as it is, in
    the place of the first data placeholder; the page around it stays. *)
Theorem payload_inserted_verbatim (html payload : string) (m : found) :
  exec re_data html = Some m ->
  includes "$" payload = false ->
  fill_page html payload = take (index m) html +:+ payload +:+ after m.
Proof.
  intros Hm Hp. unfold fill_page. rewrite Hm. now rewrite expand_plain.
Qed.

Lemma payload_inserted_verbatim_witness :
  fill_page "<head><!-- DATA --></head>" "{page:1}" = "<head>{page:1}</head>".
Proof.
  rewrite (payload_inserted_verbatim "<head><!-- DATA --></head>" "{page:1}"
             (mkFound 6 "<!-- DATA -->" (fun _ => EmptyString) "</head>"));
    [reflexivity | | reflexivity].
  unfold exec. cbn. reflexivity.
Defined.

(** X9: the payload is used as a replacement pattern: in a payload that
    has one pair beginning with a dollar sign, [$$] becomes one dollar
    sign, [$&] the placeholder, and [$`] and [$'] the page before and after
    the placeholder. *)
Theorem payload_dollar_pairs_rewritten (html p q : string) (m : found) :
  exec re_data html = Some m ->
  includes "$" p = false ->
  includes "$" q = false ->
  let before := take (index m) html in
  fill_page html (p +:+ "$$" +:+ q) = before +:+ (p +:+ "$" +:+ q) +:+ after m /\
  fill_page html (p +:+ "$&" +:+ q) = before +:+ (p +:+ matched m +:+ q) +:+ after m /\
  fill_page html (p +:+ "$`" +:+ q) = before +:+ (p +:+ before +:+ q) +:+ after m /\
  fill_page html (p +:+ "$'" +:+ q) = before +:+ (p +:+ after m +:+ q) +:+ after m.
Proof.
  intros Hm Hp Hq before. unfold fill_page. rewrite Hm. fold before.
  rewrite !(expand_app _ _ _ p) by exact Hp.
  change ("$$" +:+ q) with (String "$" (String "$" q)).
  change ("$&" +:+ q) with (String "$" (String "&" q)).
  change ("$`" +:+ q) with (String "$" (String "`" q)).
  change ("$'" +:+ q) with (String "$" (String "'" q)).
  cbn [expand Ascii.eqb Bool.eqb]. rewrite !expand_plain by exact Hq.
  repeat split; reflexivity.
Qed.

Lemma payload_dollar_pairs_rewritten_witness :
  fill_page "<head><!-- DATA --></head>" "{body:'kill $$'}" = "<head>{body:'kill $'}</head>" /\
  fill_page "<head><!-- DATA --></head>" "{body:'s/x/$&/'}"
  = "<head>{body:'s/x/<!-- DATA -->/'}</head>".
Proof.
  destruct (payload_dollar_pairs_rewritten "<head><!-- DATA --></head>" "{body:'kill " "'}"
              (mkFound 6 "<!-- DATA -->" (fun _ => EmptyString) "</head>"))
    as (H1 & _); [unfold exec; cbn; reflexivity | reflexivity | reflexivity |].
  destruct (payload_dollar_pairs_rewritten "<head><!-- DATA --></head>" "{body:'s/x/" "/'}"
              (mkFound 6 "<!-- DATA -->" (fun _ => EmptyString) "</head>"))
    as (_ & H2 & _); [unfold exec; cbn; reflexivity | reflexivity | reflexivity |].
  split; [exact H1 | exact H2].
Defined.

(** *** [handle_page] and [handle_doc] *)

(** X10: [handle_page] writes the default file into the configuration: a
    known page without a file has [README.md] as its file after the
    request, whether the fetch succeeded or not; the other pages stay, and
    a second request for the page changes the configuration no more. *)
Theorem page_default_file_recorded
    (env : Env) (views : Views) (site : Site) (id : string) (p : page) :
  pages site !! id = Some p ->
  falsy (field p "file") = true ->
  let site1 := snd (handle_page env views site id) in
  pages site1 = <[id := <["file" := VStr "README.md"]> p]> (pages site) /\
  pages (snd (handle_page env views site1 id)) = pages site1.
Proof.
  intros Hp Hfile site1.
  assert (H1 : pages site1 = <[id := <["file" := VStr "README.md"]> p]> (pages site)).
  { unfold site1, handle_page. rewrite Hp, Hfile. cbv zeta. cbn [server pages].
    destruct (get_cached_html env _ _) as [[html|err] st]; reflexivity. }
  split; [exact H1|].
  assert (Hp1 : pages site1 !! id = Some (<["file" := VStr "README.md"]> p))
    by (rewrite H1; apply lookup_insert_eq).
  unfold handle_page at 1. rewrite Hp1.
  assert (Hset : falsy (field (<["file" := VStr "README.md"]> p) "file") = false)
    by (unfold field; rewrite lookup_insert_eq; reflexivity).
  rewrite Hset. cbv zeta. cbn [server pages].
  destruct (get_cached_html env _ _) as [[html|err] st]; cbn [snd with_server pages];
    apply insert_id, Hp1.
Qed.

Lemma page_default_file_recorded_witness :
  let views := mkViews (fun _ _ => "{}") (fun _ _ _ _ => "{}") (fun _ _ _ _ => "{}")
                 (fun _ => "now") (fun _ => "<rss/>") in
  let p : gmap string jsval :=
    <["org" := VStr "pixlcore"]> (<["repo" := VStr "xyops"]> {["branch" := VStr "main"]}) in
  let site := mkSite Scenario.fresh {["xyops" := p]} in
  pages (snd (handle_page (Scenario.world false []) views site "xyops"))
  = <["xyops" := <["file" := VStr "README.md"]> p]> (pages site).
Proof.
  intros views p site.
  apply (page_default_file_recorded (Scenario.world false []) views site "xyops" p);
    reflexivity.
Defined.

(** X11: a request for a document whose fetch is made and fails is
    answered with [404 Not Found]; nothing is stored in the cache, and the
    configuration is as it was, the file of the request not recorded. *)
Theorem failed_doc_is_not_found
    (env : Env) (views : Views) (site : Site) (repo path : string) (p : page)
    (err : error) :
  pages site !! repo = Some p ->
  let url := repo_url (<["file" := VStr path]> p) in
  let st := server site in
  Cache.has (cache st) (clock st) (cache_id url) = false ->
  Cache.has (cache st) (clock st) url = false ->
  snd (origin env (clock st) url) = Fault err ->
  let '(resp, site') := handle_doc env views site repo path in
  resp = not_found "Unable to locate the requested file." /\
  cache (server site') = cache st /\
  articles (server site') = articles st /\
  pages site' = pages site.
Proof.
  intros Hp url st Hhtml Htext Hfault. unfold handle_doc. rewrite Hp. cbv zeta.
  fold url. unfold get_cached_html. fold st. rewrite Hhtml.
  rewrite (get_cached_url_fault env st url err Htext Hfault).
  repeat split; reflexivity.
Qed.

Lemma failed_doc_is_not_found_witness :
  let views := mkViews (fun _ _ => "{}") (fun _ _ _ _ => "{}") (fun _ _ _ _ => "{}")
                 (fun _ => "now") (fun _ => "<rss/>") in
  let p : gmap string jsval :=
    <["org" := VStr "pixlcore"]> (<["repo" := VStr "xyops"]> {["branch" := VStr "main"]}) in
  let site := mkSite Scenario.fresh {["xyops" := p]} in
  let '(resp, site') := handle_doc (Scenario.world false []) views site "xyops" "docs/none.md" in
  resp = not_found "Unable to locate the requested file." /\
  cache (server site') = Cache.empty /\
  articles (server site') = ∅ /\
  pages site' = pages site.
Proof.
  intros views p site.
  apply (failed_doc_is_not_found (Scenario.world false []) views site "xyops" "docs/none.md"
           p "HTTP 404 Not Found"); reflexivity.
Defined.

End Handlers.

(** ** The index of articles and the feed *)

Section Index.
Import JS Regex Api Router Pages.

Lemma get_cached_url_articles (env : Env) (st : Server) (url : string) :
  articles (snd (get_cached_url env st url)) = articles st.
Proof.
  unfold get_cached_url.
  destruct (if debug env then exec re_blog url else None) as [m|].
  - destruct (read_file env (clock st) _) as [dt [text|err]]; reflexivity.
  - destruct (Cache.has (cache st) (clock st) url).
    + destruct (Cache.get (cache st) (clock st) url); reflexivity.
    + destruct (request_get env (clock st) url) as [dt [text|err]]; reflexivity.
Qed.


(** What holds of the index and is kept by the storing of an article is
    kept by the preload, however it ends. *)
Lemma preload_each_keeps (env : Env) (P : gmap string article -> Prop)
    (slugs : list string) :
  (forall idx slug text a,
      In slug slugs -> P idx -> build_article env slug text = Done a ->
      P (<[slug := a]> idx)) ->
  forall (st st' : Server) (r : outcome unit),
    preload_each env slugs st = (r, st') -> P (articles st) -> P (articles st').
Proof.
  induction slugs as [|slug slugs IH]; intros Hstep st st' r H HP.
  - cbn [preload_each] in H. now injection H as <- <-.
  - cbn [preload_each] in H.
    pose proof (get_cached_url_articles env st (blog_url slug)) as Hart.
    destruct (get_cached_url env st (blog_url slug)) as [[text|err] st1]; cbn [snd] in Hart.
    + destruct (build_article env slug text) as [a|e|e] eqn:Hb.
      * apply (IH (fun idx s t b Hin => Hstep idx s t b (or_intror Hin)) _ _ _ H).
        cbn [articles with_articles]. rewrite Hart.
        apply (Hstep _ slug text a); [now left | exact HP | exact Hb].
      * injection H as <- <-. now rewrite Hart.
      * injection H as <- <-. now rewrite Hart.
    + injection H as <- <-. now rewrite Hart.
Qed.

(** The preload, when it completes, has indexed every slug of its list. *)
Lemma preload_each_indexes (env : Env) (slugs : list string) (st st' : Server) :
  preload_each env slugs st = (Done tt, st') ->
  forall s, In s slugs -> is_Some (articles st' !! s).
Proof.
  revert st. induction slugs as [|slug slugs IH]; intros st H s Hin; [destruct Hin|].
  cbn [preload_each] in H.
  destruct (get_cached_url env st (blog_url slug)) as [[text|err] st1]; [|discriminate].
  destruct (build_article env slug text) as [a| |]; try discriminate.
  destruct (in_dec string_dec s slugs) as [Hs|Hs]; [exact (IH _ H s Hs)|].
  destruct Hin as [<-|Hin]; [|contradiction].
  apply (preload_each_keeps env (fun idx => is_Some (idx !! slug)) slugs) in H.
  - exact H.
  - intros idx s t b _ [x Hx] _. destruct (decide (s = slug)) as [->|Hne].
    + rewrite lookup_insert_eq. eauto.
    + rewrite lookup_insert_ne by done. eauto.
  - cbn [articles with_articles]. rewrite lookup_insert_eq. eauto.
Qed.

Lemma startup_indexes (env : Env) (now : N) (st : Server) :
  Permutation (completion_order env (config_articles env)) (config_articles env) ->
  startup env now = (Done tt, st) ->
  forall slug, In slug (config_articles env) -> is_Some (articles st !! slug).
Proof.
  intros Hperm H slug Hin. unfold startup, preloadBlog in H.
  apply (preload_each_indexes _ _ _ _ H).
  apply (Permutation_in slug (Permutation_sym Hperm)), Hin.
Qed.



(** *** [handle_feed] *)

Lemma all_chars_app (p : ascii -> bool) (a b : string) :
  all_chars p (a +:+ b) = all_chars p a && all_chars p b.
Proof.
  induction a as [|c a IH]; [reflexivity|].
  change (String c a +:+ b) with (String c (a +:+ b)). cbn [all_chars].
  now rewrite IH, andb_assoc.
Qed.

(** The feed-file pattern matches nowhere before the last [/feed.]. *)
Lemma feed_file_not_before (at0 : bool) (a : ascii) (b ext : string) :
  match_at re_feed_file at0 (String a b +:+ "/feed." +:+ ext) = None.
Proof.
  unfold match_at, re_feed_file. cbn [run].
  destruct (strip_prefix "/feed." (String a b +:+ "/feed." +:+ ext)) as [r|] eqn:Hr;
    [|reflexivity].
  assert (Hrest : exists b', r = b' +:+ "/feed." +:+ ext).
  { destruct b as [|c1 [|c2 [|c3 [|c4 [|c5 b]]]]];
      repeat match type of Hr with
             | context [String ?x ?y +:+ ?z] =>
                 change (String x y +:+ z) with (String x (y +:+ z)) in Hr
             | context [EmptyString +:+ ?z] => change (EmptyString +:+ z) with z in Hr
             end;
      change "/feed." with (String "/" (String "f" (String "e" (String "e" (String "d"
                             (String "." EmptyString)))))) in Hr at 1;
      rewrite ?strip_prefix_cons in Hr;
      repeat match type of Hr with
             | context [Ascii.eqb ?x ?y] => destruct (Ascii.eqb x y) eqn:?; try discriminate
             end;
      try discriminate.
    exists b. cbn [strip_prefix] in Hr. now injection Hr as <-. }
  destruct Hrest as [b' ->]. apply rep_greedy_none.
  intros v u Hvu Hv p. destruct u as [|x u]; [|reflexivity]. exfalso.
  rewrite append_empty in Hvu. subst v.
  rewrite !all_chars_app in Hv. cbn in Hv. now rewrite andb_false_r in Hv.
Qed.

Lemma search_feed_file (b ext : string) (at0 : bool) (idx : nat) :
  ext <> EmptyString ->
  all_chars is_word ext = true ->
  exists m, search re_feed_file at0 idx (b +:+ "/feed." +:+ ext) = Some m /\
            index m = (idx + String.length b)%nat /\ after m = EmptyString.
Proof.
  intros Hne Hext. revert at0 idx. induction b as [|a b IH]; intros at0 idx.
  - change (EmptyString +:+ "/feed." +:+ ext) with ("/feed." +:+ ext).
    assert (Hm : match_at re_feed_file at0 ("/feed." +:+ ext)
                 = Some ((6 + String.length ext)%nat, no_caps)).
    { unfold match_at, re_feed_file. cbn [run]. rewrite strip_prefix_app.
      rewrite <- (append_empty ext) at 1.
      apply rep_greedy_max; [exact Hext | reflexivity | | reflexivity].
      destruct ext; [contradiction | cbn; lia]. }
    destruct ext as [|e ext]; [contradiction|].
    change ("/feed." +:+ String e ext)
      with (String "/" (String "f" (String "e" (String "e" (String "d" (String "."
              (String e ext))))))) in *.
    cbn [search]. rewrite Hm. eexists. split; [reflexivity|].
    cbn [index after Nat.add drop String.length]. split; [lia | apply drop_all].
  - pose proof (feed_file_not_before at0 a b ext) as Hm.
    change (String a b +:+ "/feed." +:+ ext) with (String a (b +:+ "/feed." +:+ ext)) in *.
    cbn [search]. rewrite Hm.
    destruct (IH false (S idx)) as (m & Hs & Hi & Hafter).
    exists m. split; [exact Hs|]. split; [cbn [String.length]; lia | exact Hafter].
Qed.

(** X13: the base of the links of the feed is the URL of the request
    without its last segment [/feed.<ext>], for every extension made of
    word characters, whatever comes before. *)
Theorem feed_file_stripped (b ext : string) :
  ext <> EmptyString ->
  all_chars is_word ext = true ->
  base_url (b +:+ "/feed." +:+ ext) = b.
Proof.
  intros Hne Hext. unfold base_url, replace_first_with, exec.
  destruct (search_feed_file b ext true 0 Hne Hext) as (m & -> & Hi & ->).
  rewrite Hi. cbn [Nat.add]. rewrite take_append. apply append_empty.
Qed.

Lemma feed_file_stripped_witness :
  base_url "https://pixlcore.com/feed.xml" = "https://pixlcore.com".
Proof.
  apply (feed_file_stripped "https://pixlcore.com" "xml"); [discriminate | reflexivity].
Defined.

Lemma feed_items_links (views : Views) (index : gmap string article) (base : string)
    (slugs : list string) :
  (forall s, In s slugs -> is_Some (index !! s)) ->
  exists l, feed_items views index base slugs = Done l /\
            map item_link l = map (fun s => base +:+ "/blog/" +:+ s) slugs /\
            map item_guid l = map item_link l.
Proof.
  induction slugs as [|slug slugs IH]; intros Hall.
  - exists []. repeat split.
  - destruct (Hall slug (or_introl eq_refl)) as [a Ha].
    destruct (IH (fun s Hs => Hall s (or_intror Hs))) as (l & Hl & Hlinks & Hguids).
    cbn [feed_items]. rewrite Ha, Hl. eexists. split; [reflexivity|].
    cbn [map item_link item_guid]. split; [now rewrite Hlinks | now rewrite Hguids].
Qed.

(** X14: once every configured slug is in the index, and there is one,
    the feed is composed and served, with one item for each configured
    slug, in the order of the configuration, each linking to
    [<base>/blog/<slug>], the link being the guid too. *)
Theorem feed_lists_configured_articles
    (env : Env) (views : Views) (site : Site) (url : string) :
  config_articles env <> [] ->
  (forall s, In s (config_articles env) -> is_Some (articles (server site) !! s)) ->
  exists (f : feed),
    handle_feed env views site url = Done (mkResponse "200 OK" feed_headers (compose views f)) /\
    map item_link (items f)
    = map (fun s => base_url url +:+ "/blog/" +:+ s) (config_articles env) /\
    map item_guid (items f) = map item_link (items f) /\
    channel_link f = base_url url +:+ "/blog/".
Proof.
  intros Hne Hall. unfold handle_feed.
  assert (Hlatest : is_Some (articles (server site) !! latest_slug env)).
  { unfold latest_slug. destruct (config_articles env) as [|s l]; [contradiction|].
    apply Hall. now left. }
  destruct Hlatest as [latest ->]. cbv zeta.
  destruct (feed_items_links views (articles (server site)) (base_url url)
              (config_articles env) Hall) as (l & -> & Hlinks & Hguids).
  eexists. split; [reflexivity|]. cbn [items channel_link]. auto.
Qed.

Lemma feed_lists_configured_articles_witness :
  let env := Scenario.world false ["hello"; "bare"] in
  let views := mkViews (fun _ _ => "{}") (fun _ _ _ _ => "{}") (fun _ _ _ _ => "{}")
                 (fun _ => "now") (fun f => join " " (map item_link (items f))) in
  let url := "https://pixlcore.com/feed.xml" in
  exists f,
    handle_feed env views (mkSite (snd (startup env 0)) ∅) url
    = Done (mkResponse "200 OK" feed_headers (compose views f)) /\
    map item_link (items f) = map (fun s => base_url url +:+ "/blog/" +:+ s) ["hello"; "bare"].
Proof.
  intros env views url.
  assert (Hdone : fst (startup env 0) = Done tt) by (vm_compute; reflexivity).
  destruct (startup env 0) as [r st] eqn:Hstart. cbn [fst snd] in *. subst r.
  destruct (feed_lists_configured_articles env views (mkSite st ∅) url)
    as (f & Hf & Hlinks & _).
  - discriminate.
  - exact (startup_indexes env 0 st (Permutation_refl _) Hstart).
  - exists f. split; [exact Hf | exact Hlinks].
Defined.

End Index.

(** ** Debug mode *)

Section Debug.
Import JS Regex Api.

Lemma search_miss (r : regex) (at0 : bool) (idx : nat) (c : ascii) (s : string) :
  match_at r at0 (String c s) = None ->
  search r at0 idx (String c s) = search r false (S idx) s.
Proof. intros H. cbn [search]. now rewrite H. Qed.

Lemma search_hit (r : regex) (at0 : bool) (idx : nat) (s : string) (len : nat) (c : caps) :
  match_at r at0 s = Some (len, c) ->
  search r at0 idx s = Some (mkFound idx (take len s) (group s c) (drop len s)).
Proof. intros H. destruct s; cbn [search]; now rewrite H. Qed.

Lemma match_blog_miss (at0 : bool) (c : ascii) (s : string) :
  Ascii.eqb "/" c = false -> match_at re_blog at0 (String c s) = None.
Proof.
  intros H. unfold match_at, re_blog. cbn [run].
  change "/pixlcore/blog/main/" with (String "/" "pixlcore/blog/main/").
  now rewrite strip_prefix_cons, H.
Qed.

Lemma match_blog_miss_next (at0 : bool) (c : ascii) (s : string) :
  Ascii.eqb "p" c = false -> match_at re_blog at0 (String "/" (String c s)) = None.
Proof.
  intros H. unfold match_at, re_blog. cbn [run].
  change "/pixlcore/blog/main/" with (String "/" (String "p" "ixlcore/blog/main/")).
  now rewrite !strip_prefix_cons, H.
Qed.

Lemma match_blog_here (at0 : bool) (slug : string) :
  slug <> EmptyString ->
  all_chars is_dot slug = true ->
  match_at re_blog at0 ("/pixlcore/blog/main/" +:+ slug +:+ ".md")
  = Some ((20 + String.length slug + 3)%nat,
          close_group 1 (20 + String.length slug) (open_group 1 20 no_caps)).
Proof.
  intros Hne Hdot. unfold match_at, re_blog. cbn [run]. rewrite strip_prefix_app.
  apply rep_greedy_back.
  - exact Hdot.
  - intros v u Hvu Hv _ p.
    destruct v as [|a [|b [|c [|d v]]]]; [contradiction|..];
      repeat match type of Hvu with
             | context [String ?x ?y +:+ ?z] =>
                 change (String x y +:+ z) with (String x (y +:+ z)) in Hvu
             | context [EmptyString +:+ ?z] => change (EmptyString +:+ z) with z in Hvu
             end;
      inversion Hvu; subst; reflexivity.
  - destruct slug; [contradiction | cbn; lia].
  - cbn [run strip_prefix Ascii.eqb Bool.eqb String.length]. reflexivity.
Qed.

(** The blog pattern finds the slug in the URL [preloadBlog] and
    [handle_blog] make of it. *)
Lemma exec_blog_url (slug : string) :
  slug <> EmptyString ->
  all_chars is_dot slug = true ->
  exists m, exec re_blog (blog_url slug) = Some m /\ groups m 1%nat = slug.
Proof.
  intros Hne Hdot. unfold exec, blog_url.
  change ("https://raw.githubusercontent.com/pixlcore/blog/main/" +:+ slug +:+ ".md")
    with ("https://raw.githubusercontent.com"
            +:+ "/pixlcore/blog/main/" +:+ slug +:+ ".md").
  do 33 (change (String ?x ?y +:+ ?z) with (String x (y +:+ z));
         rewrite search_miss
           by first [ apply match_blog_miss; reflexivity
                    | apply match_blog_miss_next; reflexivity ]).
  change (EmptyString +:+ ?z) with z.
  rewrite (search_hit _ _ _ _ _ _ (match_blog_here false slug Hne Hdot)).
  eexists. split; [reflexivity|]. cbn [groups]. unfold group.
  cbn [close_group open_group opened closed assoc Nat.eqb]. unfold substring.
  replace (20 + String.length slug - 20)%nat with (String.length slug) by lia.
  change 20%nat with (String.length "/pixlcore/blog/main/"). rewrite drop_append.
  apply take_append.
Qed.

Lemma debug_local_file (env : Env) (st : Server) (slug : string) :
  debug env = true ->
  slug <> EmptyString ->
  all_chars is_dot slug = true ->
  get_cached_url env st (blog_url slug)
  = (snd (read_file env (clock st) (local_file slug)),
     later (fst (read_file env (clock st) (local_file slug))) st).
Proof.
  intros Hdebug Hne Hdot. unfold get_cached_url. rewrite Hdebug.
  destruct (exec_blog_url slug Hne Hdot) as (m & -> & ->).
  destruct (read_file env (clock st) (local_file slug)) as [dt [text|err]]; reflexivity.
Qed.

(** X15: in debug mode the text of an article is read from the local
    file [/Users/jhuckaby/git/blog/<slug>.md], for every slug of one line:
    the answer is what the file read gives, no request is made, and the
    cache is neither asked nor written. *)
Theorem debug_reads_local_file (env : Env) (st : Server) (slug : string) :
  debug env = true ->
  slug <> EmptyString ->
  all_chars is_dot slug = true ->
  get_cached_url env st (blog_url slug)
  = (snd (read_file env (clock st) (local_file slug)),
     later (fst (read_file env (clock st) (local_file slug))) st).
Proof.
  intros Hdebug Hne Hdot. now apply debug_local_file.
Qed.

Lemma debug_reads_local_file_witness :
  get_cached_url (Scenario.world true ["hello"]) Scenario.fresh (blog_url "hello")
  = (Body Scenario.hello_md, Scenario.fresh).
Proof.
  rewrite (debug_reads_local_file (Scenario.world true ["hello"]) Scenario.fresh "hello");
    [reflexivity | reflexivity | discriminate | reflexivity].
Defined.




End Debug.

(** ** Front matter and tags *)

Section Comments.
Import JS Regex Api.

Lemma word_not_space (c : ascii) : is_word c = true -> is_space c = false.
Proof.
  intros H. destruct c as [[] [] [] [] [] [] [] []]; try reflexivity;
    vm_compute in H; discriminate.
Qed.

Lemma last_char_cons (c : ascii) (s : string) :
  s <> EmptyString -> Shapes.last_char (String c s) = Shapes.last_char s.
Proof. destruct s; [contradiction | reflexivity]. Qed.

Lemma includes_tail (sub : string) (c : ascii) (s : string) :
  includes sub (String c s) = false -> includes sub s = false.
Proof.
  cbn [includes]. destruct (strip_prefix sub (String c s)); [discriminate | auto].
Qed.

Lemma includes_suffix (sub v u : string) :
  includes sub (v +:+ u) = false -> includes sub u = false.
Proof.
  induction v as [|c v IH]; [auto|].
  change (String c v +:+ u) with (String c (v +:+ u)). intros H.
  apply IH. exact (includes_tail _ _ _ H).
Qed.

Lemma last_char_suffix (v u : string) :
  u <> EmptyString -> Shapes.last_char (v +:+ u) = Shapes.last_char u.
Proof.
  intros Hu. induction v as [|c v IH]; [reflexivity|].
  change (String c v +:+ u) with (String c (v +:+ u)). rewrite last_char_cons; [exact IH|].
  destruct v; [exact Hu | discriminate].
Qed.

(** The end of a comment is not found in front of a comment closer, inside
    a text that holds none. *)
Lemma closer_not_inside (u rest : string) :
  u <> EmptyString ->
  includes "-->" u = false ->
  strip_prefix "-->" (u +:+ " -->" +:+ rest) = None.
Proof.
  intros Hne Hu. destruct u as [|a [|b [|c u]]]; [contradiction| | |].
  - change (strip_prefix "-->" (String a (String " " ("-->" +:+ rest))) = None).
    cbn [strip_prefix]. destruct (Ascii.eqb "-" a); reflexivity.
  - change (strip_prefix "-->" (String a (String b (String " " ("-->" +:+ rest)))) = None).
    cbn [strip_prefix]. destruct (Ascii.eqb "-" a); [|reflexivity].
    destruct (Ascii.eqb "-" b); reflexivity.
  - change (strip_prefix "-->" (String a (String b (String c (u +:+ " -->" +:+ rest)))) = None).
    cbn [includes] in Hu.
    destruct (strip_prefix "-->" (String a (String b (String c u)))) eqn:Hp; [discriminate|].
    cbn [strip_prefix] in *.
    destruct (Ascii.eqb "-" a); [|reflexivity].
    destruct (Ascii.eqb "-" b); [|reflexivity].
    destruct (Ascii.eqb ">" c); [discriminate | reflexivity].
Qed.

(** The white space and the closer that end a comment are not found
    before the end of a value that holds no closer and does not end with
    white space. *)
Lemma value_goes_on (k : string -> nat -> option (nat * caps)) (u rest : string)
    (pos n : nat) :
  (forall s p, strip_prefix "-->" s = None -> k s p = None) ->
  u <> EmptyString ->
  includes "-->" u = false ->
  (forall d, Shapes.last_char u = Some d -> is_space d = false) ->
  rep_run k true 0 is_space (u +:+ " -->" +:+ rest) pos n = None.
Proof.
  intros Hk. revert pos n. induction u as [|c u IH]; intros pos n Hne Hu Hlast;
    [contradiction|].
  pose proof (closer_not_inside (String c u) rest Hne Hu) as Hstop.
  change (String c u +:+ " -->" +:+ rest) with (String c (u +:+ " -->" +:+ rest)) in *.
  cbn [rep_run Nat.leb]. rewrite (Hk _ pos Hstop).
  destruct (is_space c) eqn:Hc; [|reflexivity].
  destruct u as [|b u]; [now rewrite (Hlast c eq_refl) in Hc|].
  rewrite IH; [reflexivity | discriminate | exact (includes_tail _ _ _ Hu) |].
  intros d Hd. apply Hlast. exact Hd.
Qed.

(** The front-matter pattern on a comment [<!-- Key: Value -->]. *)
Lemma match_comment (at0 : bool) (key value rest : string) :
  key <> EmptyString ->
  all_chars is_word key = true ->
  all_chars is_dot value = true ->
  Shapes.trimmed value = true ->
  includes "-->" value = false ->
  exists len c,
    match_at re_front at0 ("<!-- " +:+ key +:+ ": " +:+ value +:+ " -->" +:+ rest)
    = Some (len, c) /\
    len = String.length ("<!-- " +:+ key +:+ ": " +:+ value +:+ " -->") /\
    group ("<!-- " +:+ key +:+ ": " +:+ value +:+ " -->" +:+ rest) c 1 = key /\
    group ("<!-- " +:+ key +:+ ": " +:+ value +:+ " -->" +:+ rest) c 2 = value.
Proof.
  intros Hkey Hword Hdot Htrim Hclose.
  assert (Hvalue : value <> EmptyString) by (intros ->; discriminate).
  apply andb_true_iff in Htrim as [Hhead Htail].
  assert (Hfirst : span is_space (value +:+ " -->" +:+ rest) = O).
  { destruct value as [|v0 value]; [contradiction|].
    change (String v0 value +:+ " -->" +:+ rest) with (String v0 (value +:+ " -->" +:+ rest)).
    cbn [span]. now destruct (is_space v0). }
  assert (Hlast : forall d, Shapes.last_char value = Some d -> is_space d = false).
  { intros d Hd. rewrite Hd in Htail. now destruct (is_space d). }
  unfold match_at, re_front.
  change ("<!-- " +:+ key +:+ ": " +:+ value +:+ " -->" +:+ rest)
    with ("<!--" +:+ " " +:+ key +:+ ":" +:+ " " +:+ value +:+ " " +:+ "-->" +:+ rest).
  eexists. eexists. split; [|split; [|split]].
  - cbn [run]. rewrite strip_prefix_app.
    apply rep_greedy_max; [reflexivity | | cbn; lia |].
    { destruct key as [|k0 key]; [contradiction|]. cbn [all_chars] in Hword.
      apply andb_true_iff in Hword as [Hk0 _].
      change (String k0 key +:+ ?z) with (String k0 (key +:+ z)). cbn [span].
      now rewrite (word_not_space k0 Hk0). }
    apply rep_greedy_max; [exact Hword | reflexivity | destruct key; [contradiction | cbn; lia] |].
    rewrite strip_prefix_app.
    apply rep_greedy_max; [reflexivity | exact Hfirst | cbn; lia |].
    apply rep_lazy_stops; [exact Hdot | | destruct value; [contradiction | cbn; lia] |].
    { intros v u Hvu Hu p. apply (value_goes_on _ u rest p 0).
      - intros s q Hs. now rewrite Hs.
      - exact Hu.
      - rewrite Hvu in Hclose. exact (includes_suffix _ _ _ Hclose).
      - intros d Hd. apply Hlast. rewrite Hvu, last_char_suffix by exact Hu. exact Hd. }
    apply rep_greedy_max; [reflexivity | reflexivity | cbn; lia |].
    rewrite strip_prefix_app. reflexivity.
  - rewrite !append_length. cbn [String.length]. lia.
  - unfold group. cbn [close_group open_group opened closed assoc Nat.eqb]. unfold substring.
    match goal with |- take (?a + ?n - ?a) _ = _ => replace (a + n - a)%nat with n by lia end.
    change (drop _ _) with (key +:+ ":" +:+ " " +:+ value +:+ " " +:+ "-->" +:+ rest).
    apply take_append.
  - unfold group. cbn [close_group open_group opened closed assoc Nat.eqb]. unfold substring.
    match goal with |- take (?a + ?n - ?a) _ = _ => replace (a + n - a)%nat with n by lia end.
    replace ("<!--" +:+ " " +:+ key +:+ ":" +:+ " " +:+ value +:+ " " +:+ "-->" +:+ rest)
      with (("<!-- " +:+ key +:+ ": ") +:+ value +:+ " -->" +:+ rest)
      by (rewrite !append_assoc; reflexivity).
    match goal with
    | |- take _ (drop ?a _) = _ =>
        replace a with (String.length ("<!-- " +:+ key +:+ ": "))
          by (rewrite !append_length; cbn [String.length]; lia)
    end.
    rewrite drop_append. apply take_append.
Qed.


Lemma scan_front_anywhere (at0 : bool) (skip : nat) (s : string) :
  scan re_front at0 skip s = scan re_front true skip s.
Proof. destruct skip, s; reflexivity. Qed.

(** The scan passes over what is left of a match. *)
Lemma scan_skip (r : regex) (w rest : string) :
  scan r false (String.length w) (w +:+ rest) = scan r false 0 rest.
Proof.
  induction w as [|c w IH]; [reflexivity|].
  change (String c w +:+ rest) with (String c (w +:+ rest)). exact IH.
Qed.

(** The calls of the replacer on a text that begins with a comment. *)
Lemma calls_of_comment (key value rest : string) :
  key <> EmptyString ->
  all_chars is_word key = true ->
  all_chars is_dot value = true ->
  Shapes.trimmed value = true ->
  includes "-->" value = false ->
  exists m g,
    replace_all_calls re_front ("<!-- " +:+ key +:+ ": " +:+ value +:+ " -->" +:+ rest)
    = (m, g) :: replace_all_calls re_front rest /\
    g 1%nat = key /\ g 2%nat = value.
Proof.
  intros Hkey Hword Hdot Htrim Hclose.
  destruct (match_comment true key value rest Hkey Hword Hdot Htrim Hclose)
    as (len & c & Hm & Hlen & Hg1 & Hg2).
  unfold replace_all_calls.
  set (T := "<!-- " +:+ key +:+ ": " +:+ value +:+ " -->" +:+ rest) in *.
  set (w := "!-- " +:+ key +:+ ": " +:+ value +:+ " -->").
  assert (HT : T = String "<" (w +:+ rest))
    by (unfold T, w; rewrite !append_assoc; reflexivity).
  assert (Hw : len = S (String.length w)) by (rewrite Hlen; reflexivity).
  exists (take len T), (group T c). split; [|split; [exact Hg1 | exact Hg2]].
  rewrite HT in *. cbn [scan]. rewrite Hm, Hw. cbn [hits]. f_equal.
  rewrite scan_skip. now rewrite scan_front_anywhere.
Qed.

(** X17: a comment [<!-- Key: Value -->] at the start of the source sets
    the field named by the key in lower case to the value, as a string,
    and the source after the comment is read in the same way: a later
    comment with the same key replaces the value.  The key is made of word
    characters, the value is of one line, has no white space at its ends
    and no comment closer inside. *)
Theorem front_matter_comment (key value rest : string) (a : article) :
  key <> EmptyString ->
  all_chars is_word key = true ->
  all_chars is_dot value = true ->
  Shapes.trimmed value = true ->
  includes "-->" value = false ->
  front_matter ("<!-- " +:+ key +:+ ": " +:+ value +:+ " -->" +:+ rest) a
  = front_matter rest (set_field a (toLowerCase key) (VStr value)).
Proof.
  intros Hkey Hword Hdot Htrim Hclose. unfold front_matter.
  destruct (calls_of_comment key value rest Hkey Hword Hdot Htrim Hclose)
    as (m & g & -> & Hg1 & Hg2).
  cbn [fold_left]. unfold front_matter_call at 2. cbn [snd]. now rewrite Hg1, Hg2.
Qed.

Lemma front_matter_comment_witness :
  front_matter ("<!-- Title: Faster feeds, part 2 -->" +:+ nl +:+ "<!-- title: Draft -->") ∅
  !! "title" = Some (VStr "Draft").
Proof.
  rewrite (front_matter_comment "Title" "Faster feeds, part 2"
             (nl +:+ "<!-- title: Draft -->") ∅);
    [| discriminate | reflexivity | reflexivity | reflexivity | reflexivity].
  vm_compute. reflexivity.
Defined.

(** *** The five comment lines of the round trip *)

Lemma front_matter_step (key value rest : string) (a : article) :
  key <> EmptyString ->
  all_chars is_word key = true ->
  all_chars is_dot value = true ->
  Shapes.trimmed value = true ->
  includes "-->" value = false ->
  front_matter ("<!-- " +:+ key +:+ ": " +:+ value +:+ " -->" +:+ rest) a
  = front_matter rest (set_field a (toLowerCase key) (VStr value)).
Proof.
  intros Hkey Hword Hdot Htrim Hclose. unfold front_matter.
  destruct (calls_of_comment key value rest Hkey Hword Hdot Htrim Hclose)
    as (m & g & -> & Hg1 & Hg2).
  cbn [fold_left]. unfold front_matter_call at 2. cbn [snd]. now rewrite Hg1, Hg2.
Qed.

(** A comment opener does not begin in a text that holds none and end in
    the [<] that follows it. *)
Lemma opener_not_across (u x : string) :
  u <> EmptyString ->
  includes "<!--" u = false ->
  strip_prefix "<!--" (u +:+ String "<" x) = None.
Proof.
  intros Hne Hu. destruct u as [|a [|b [|c [|d u]]]]; [contradiction|..].
  - change (strip_prefix "<!--" (String a (String "<" x)) = None).
    cbn [strip_prefix]. destruct (Ascii.eqb "<" a); reflexivity.
  - change (strip_prefix "<!--" (String a (String b (String "<" x))) = None).
    cbn [strip_prefix]. destruct (Ascii.eqb "<" a); [|reflexivity].
    destruct (Ascii.eqb "!" b); reflexivity.
  - change (strip_prefix "<!--" (String a (String b (String c (String "<" x)))) = None).
    cbn [strip_prefix]. destruct (Ascii.eqb "<" a); [|reflexivity].
    destruct (Ascii.eqb "!" b); [|reflexivity]. destruct (Ascii.eqb "-" c); reflexivity.
  - change (strip_prefix "<!--"
              (String a (String b (String c (String d (u +:+ String "<" x))))) = None).
    cbn [includes] in Hu.
    destruct (strip_prefix "<!--" (String a (String b (String c (String d u))))) eqn:Hp;
      [discriminate|].
    cbn [strip_prefix] in *.
    destruct (Ascii.eqb "<" a); [|reflexivity].
    destruct (Ascii.eqb "!" b); [|reflexivity].
    destruct (Ascii.eqb "-" c); [|reflexivity].
    destruct (Ascii.eqb "-" d); [discriminate | reflexivity].
Qed.

(** The text in front of a comment, when it holds no comment opener, has
    no part in the front matter. *)
Lemma front_matter_skip (pre x : string) (a : article) :
  includes "<!--" pre = false ->
  front_matter (pre +:+ String "<" x) a = front_matter (String "<" x) a.
Proof.
  intros Hpre. unfold front_matter, replace_all_calls. f_equal.
  generalize true at 1 as at0. induction pre as [|c pre IH]; intros at0.
  - change (EmptyString +:+ String "<" x) with (String "<" x).
    now rewrite scan_front_anywhere.
  - assert (Hm : match_at re_front at0 (String c pre +:+ String "<" x) = None).
    { unfold match_at, re_front. cbn [run].
      now rewrite (opener_not_across (String c pre) x ltac:(discriminate) Hpre). }
    change (String c pre +:+ String "<" x) with (String c (pre +:+ String "<" x)) in *.
    cbn [scan]. rewrite Hm. cbn [hits]. apply IH. exact (includes_tail _ _ _ Hpre).
Qed.

(** The comments of a source made of well-formed comments, each after a
    text without comment opener, are read one after the other, whatever
    follows. *)
Lemma front_matter_written (notes : list Shapes.note) (rest : string) (a : article) :
  forallb Shapes.well_formed notes = true ->
  front_matter (Shapes.written notes +:+ rest) a
  = front_matter rest
      (fold_left (fun a n => set_field a (toLowerCase (Shapes.note_key n))
                               (VStr (Shapes.note_value n))) notes a).
Proof.
  revert a. induction notes as [|[u k v] notes IH]; intros a Hok; [reflexivity|].
  cbn [forallb] in Hok. apply andb_true_iff in Hok as [Hn Hok].
  unfold Shapes.well_formed in Hn. cbn [Shapes.note_ahead Shapes.note_key Shapes.note_value] in Hn.
  repeat (apply andb_true_iff in Hn as [Hn ?]).
  apply negb_true_iff in Hn.
  cbn [Shapes.written fold_left Shapes.note_ahead Shapes.note_key Shapes.note_value].
  rewrite !append_assoc.
  change ("<!-- " +:+ ?r) with (String "<" ("!-- " +:+ r)).
  rewrite (front_matter_skip u _ _ Hn).
  change (String "<" ("!-- " +:+ ?r)) with ("<!-- " +:+ r).
  rewrite front_matter_step.
  - now apply IH.
  - intros ->. discriminate.
  - assumption.
  - assumption.
  - assumption.
  - now apply negb_true_iff.
Qed.

(** A field after the comments of a list: the value of the last comment
    with its key, or what it was. *)
Lemma written_field (notes : list Shapes.note) (a : article) (k : string) :
  k <> "__proto__" ->
  fold_left (fun a n => set_field a (toLowerCase (Shapes.note_key n))
                          (VStr (Shapes.note_value n))) notes a !! k
  = match Shapes.last_value notes k with
    | Some v => Some (VStr v)
    | None => a !! k
    end.
Proof.
  intros Hk. revert a. induction notes as [|n notes IH]; intros a; [reflexivity|].
  cbn [fold_left Shapes.last_value]. rewrite IH.
  destruct (Shapes.last_value notes k); [reflexivity|].
  unfold set_field.
  destruct (String.eqb (toLowerCase (Shapes.note_key n)) k) eqn:Heq.
  - apply String.eqb_eq in Heq. rewrite Heq.
    destruct (String.eqb k "__proto__") eqn:Hp;
      [apply String.eqb_eq in Hp; contradiction|].
    apply lookup_insert_eq.
  - apply String.eqb_neq in Heq.
    destruct (String.eqb _ "__proto__"); [reflexivity|].
    now apply lookup_insert_ne.
Qed.

(** C7 (amended): for every Markdown source made of comments
    [<!-- key: value -->] (the key of word characters; the value of one
    line, without white space at its ends and without comment closer),
    each after any text without comment opener, and then of any text at
    all, in which the last comment with the key [Title], in whatever case,
    is [<!-- Title: X -->], and likewise [<!-- Summary: Y -->],
    [<!-- Author: a -->], [<!-- Date: 2024/01/01 -->] and
    [<!-- Tags: A, B -->], none of the comments of the text that follows
    having one of these five keys, and that has a word to count, the
    article built has title ["X"], summary ["Y"], author ["a"], date the
    seconds since the epoch of 2024-01-01 00:00 local time, and tags the
    ordered list [["A"; "B"]].  The sources that hold the five comment
    lines, with other such comments or none around them and no second one
    of a key after them, are of this kind. *)
Theorem front_matter_round_trip
    (env : Env) (slug : string) (notes : list Shapes.note) (post : string) (n : nat) :
  let source := Shapes.written notes +:+ post in
  forallb Shapes.well_formed notes = true ->
  Shapes.last_value notes "title" = Some "X" ->
  Shapes.last_value notes "summary" = Some "Y" ->
  Shapes.last_value notes "author" = Some "a" ->
  Shapes.last_value notes "date" = Some "2024/01/01" ->
  Shapes.last_value notes "tags" = Some "A, B" ->
  (forall k, In k (Notions.front_keys post) ->
             ~ In k ["title"; "summary"; "author"; "date"; "tags"]) ->
  count_words source = Some n ->
  exists a,
    build_article env slug source = Done a /\
    a !! "title" = Some (VStr "X") /\
    a !! "summary" = Some (VStr "Y") /\
    a !! "author" = Some (VStr "a") /\
    a !! "date" = Some (VNum (days_from_civil 2024 1 1 * 86400
                              - tz_offset env (days_from_civil 2024 1 1))) /\
    a !! "tags" = Some (VList ["A"; "B"]).
Proof.
  intros source Hok Htitle Hsummary Hauthor Hday Htag Hpost Hwords.
  assert (Hfront : forall a0 k,
             In k ["title"; "summary"; "author"; "date"; "tags"] ->
             front_matter source a0 !! k
             = option_map VStr (Shapes.last_value notes k)).
  { intros a0 k Hk. unfold source. rewrite (front_matter_written notes post a0 Hok).
    unfold front_matter at 1. rewrite calls_keep_absent
      by (intros Hin; exact (Hpost k Hin Hk)).
    rewrite written_field
      by (intros ->; cbn in Hk; intuition discriminate).
    cbn in Hk.
    destruct Hk as [<-|[<-|[<-|[<-|[<-|[]]]]]];
      [rewrite Htitle | rewrite Hsummary | rewrite Hauthor | rewrite Hday | rewrite Htag];
      reflexivity. }
  unfold build_article. rewrite Hwords. cbv zeta.
  set (a0 := <["words" := VNum (Z.of_nat n)]> {["slug" := VStr slug]}).
  set (a1 := front_matter source a0).
  assert (Hdate : field a1 "date" = VStr "2024/01/01").
  { unfold field, a1. rewrite (Hfront a0 "date") by (cbn; tauto).
    now rewrite Hday. }
  assert (Htags : field (<["date" := date_seconds env (field a1 "date")]> a1) "tags"
                  = VStr "A, B").
  { unfold field. rewrite lookup_insert_ne by done.
    unfold a1. rewrite (Hfront a0 "tags") by (cbn; tauto). now rewrite Htag. }
  rewrite Htags. eexists. split; [reflexivity|].
  rewrite Hdate, date_of_example.
  repeat split.
  - rewrite !lookup_insert_ne by done. unfold a1.
    rewrite (Hfront a0 "title") by (cbn; tauto). now rewrite Htitle.
  - rewrite !lookup_insert_ne by done. unfold a1.
    rewrite (Hfront a0 "summary") by (cbn; tauto). now rewrite Hsummary.
  - rewrite !lookup_insert_ne by done. unfold a1.
    rewrite (Hfront a0 "author") by (cbn; tauto). now rewrite Hauthor.
  - rewrite lookup_insert_ne by done. rewrite lookup_insert_eq. reflexivity.
  - rewrite lookup_insert_eq. reflexivity.
Qed.

Lemma front_matter_round_trip_witness :
  let source :=
    "# Draft" +:+ nl +:+ "<!-- Title: X -->" +:+ nl +:+ "<!-- Image: cover.png -->" +:+ nl
      +:+ "<!-- Summary: Y -->" +:+ nl +:+ "<!-- Author: a -->" +:+ nl
      +:+ "<!-- Date: 2024/01/01 -->" +:+ nl +:+ "<!-- Tags: A, B -->" +:+ nl
      +:+ "Body text <!-- more -->" +:+ nl +:+ "<!-- Updated: 2024/02/02 -->" in
  exists a,
    build_article (Scenario.world false []) "post" source = Done a /\
    a !! "title" = Some (VStr "X") /\
    a !! "date" = Some (VNum 1704067200) /\
    a !! "tags" = Some (VList ["A"; "B"]).
Proof.
  intros source.
  destruct (front_matter_round_trip (Scenario.world false []) "post"
              [Shapes.mkNote ("# Draft" +:+ nl) "Title" "X";
               Shapes.mkNote nl "Image" "cover.png";
               Shapes.mkNote nl "Summary" "Y";
               Shapes.mkNote nl "Author" "a";
               Shapes.mkNote nl "Date" "2024/01/01";
               Shapes.mkNote nl "Tags" "A, B"]
              (nl +:+ "Body text <!-- more -->" +:+ nl +:+ "<!-- Updated: 2024/02/02 -->") 3)
    as (a & Hb & Htitle & _ & _ & Hdate & Htags);
    try reflexivity.
  - intros k Hk. vm_compute in Hk. destruct Hk as [<-|[]].
    intros Hin. cbn in Hin. intuition discriminate.
  - exists a. split; [exact Hb|]. split; [exact Htitle|]. split; [exact Hdate | exact Htags].
Defined.

(** X18: the slug and the word count of an article are those [preloadBlog]
    computed unless the source has a comment with the key [Slug] or
    [Words] (in any case): such a comment replaces the computed field by
    its value, a string. *)
Theorem computed_fields_overridden (env : Env) (slug text : string) (a : article) :
  build_article env slug text = Done a ->
  (~ In "slug" (Notions.front_keys text) -> a !! "slug" = Some (VStr slug)) /\
  (~ In "words" (Notions.front_keys text) ->
   exists n, count_words text = Some n /\ a !! "words" = Some (VNum (Z.of_nat n))) /\
  (forall k, k = "slug" \/ k = "words" -> In k (Notions.front_keys text) ->
             exists v, a !! k = Some (VStr v)).
Proof.
  unfold build_article. destruct (count_words text) as [n|]; [|discriminate].
  cbv zeta. set (a0 := <["words" := VNum (Z.of_nat n)]> {["slug" := VStr slug]}).
  set (a1 := front_matter text a0).
  destruct (field (<["date" := date_seconds env (field a1 "date")]> a1) "tags")
    as [|tags| | |]; try discriminate.
  intros [= <-]. unfold a1, front_matter, Notions.front_keys. repeat split.
  - intros Hk. rewrite !lookup_insert_ne by done. rewrite calls_keep_absent by exact Hk.
    reflexivity.
  - intros Hk. exists n. split; [reflexivity|].
    rewrite !lookup_insert_ne by done. rewrite calls_keep_absent by exact Hk.
    reflexivity.
  - intros k Hk Hin.
    assert (Hother : k <> "tags" /\ k <> "date" /\ k <> "__proto__")
      by (destruct Hk as [-> | ->]; repeat split; discriminate).
    destruct Hother as (Htags & Hdate & Hproto).
    rewrite !lookup_insert_ne by congruence.
    apply calls_set_present; [exact Hproto | now left].
Qed.

Lemma computed_fields_overridden_witness :
  let text := "<!-- Tags: Misc -->" +:+ nl +:+ "<!-- Words: about 900 -->" +:+ nl
                +:+ "Some words here." in
  exists a,
    build_article (Scenario.world false []) "post" text = Done a /\
    a !! "slug" = Some (VStr "post") /\
    exists v, a !! "words" = Some (VStr v).
Proof.
  intros text.
  destruct (build_article (Scenario.world false []) "post" text) as [a| |] eqn:Hb;
    [| vm_compute in Hb; discriminate | vm_compute in Hb; discriminate].
  destruct (computed_fields_overridden _ _ _ _ Hb) as (Hslug & _ & Hset).
  exists a. split; [reflexivity|]. split.
  - apply Hslug. vm_compute. intros [H|[H|[]]]; discriminate.
  - apply (Hset "words"); [now right|]. vm_compute. right. left. reflexivity.
Defined.

(** *** Tags *)

Lemma match_comma_miss (at0 : bool) (a : ascii) (s : string) :
  Ascii.eqb "," a = false -> match_at re_comma at0 (String a s) = None.
Proof.
  intros H. unfold match_at, re_comma. cbn [run].
  change "," with (String "," EmptyString). now rewrite strip_prefix_cons, H.
Qed.

Lemma match_comma_hit (at0 : bool) (s : string) :
  match_at re_comma at0 (String "," s) = Some (S (span is_space s), no_caps).
Proof.
  unfold match_at, re_comma. cbn [run strip_prefix Ascii.eqb Bool.eqb].
  rewrite rep_greedy_takes_all. reflexivity.
Qed.

Lemma split_plain (x : string) (at0 fresh : bool) :
  includes "," x = false -> split_from re_comma at0 fresh 0 x = [x].
Proof.
  revert at0 fresh. induction x as [|a x IH]; intros at0 fresh Hx; [reflexivity|].
  cbn [split_from].
  change "," with (String "," EmptyString) in Hx. cbn [includes] in Hx.
  rewrite strip_prefix_cons in Hx.
  destruct (Ascii.eqb "," a) eqn:Ha; [discriminate|].
  rewrite (match_comma_miss at0 a x Ha), IH by exact Hx. reflexivity.
Qed.

Lemma span_app_none (p : ascii -> bool) (y z : string) :
  span p y = O -> span p z = O -> span p (y +:+ z) = O.
Proof.
  destruct y as [|c y]; [auto|]. intros Hy _.
  change (String c y +:+ z) with (String c (y +:+ z)). cbn [span] in *.
  now destruct (p c).
Qed.

Lemma join_no_space (l : list string) :
  Forall (fun x => includes "," x = false /\ span is_space x = O) l ->
  span is_space (join ", " l) = O.
Proof.
  intros H. destruct H as [|x l [_ Hx] Hl]; [reflexivity|].
  destruct l as [|y l]; [exact Hx|].
  change (join ", " (x :: y :: l)) with (x +:+ ", " +:+ join ", " (y :: l)).
  apply span_app_none; [exact Hx | reflexivity].
Qed.

Lemma split_join (l : list string) (at0 fresh : bool) :
  l <> [] ->
  Forall (fun x => includes "," x = false /\ span is_space x = O) l ->
  split_from re_comma at0 fresh 0 (join ", " l) = l.
Proof.
  intros Hne Hall. revert at0 fresh.
  induction Hall as [|x l [Hx Hsp] Hl IH]; [contradiction|]. clear Hne.
  destruct l as [|y l]; intros at0 fresh; [now apply split_plain|].
  change (join ", " (x :: y :: l)) with (x +:+ ", " +:+ join ", " (y :: l)).
  pose proof (join_no_space (y :: l) Hl) as HR.
  specialize (IH ltac:(discriminate)). clear Hsp.
  revert at0 fresh. induction x as [|a x IHx]; intros at0 fresh.
  - change (EmptyString +:+ ", " +:+ join ", " (y :: l))
      with (String "," (String " " (join ", " (y :: l)))).
    cbn [split_from]. rewrite match_comma_hit. cbn [span]. rewrite HR.
    change (is_space " ") with true. cbv iota. cbn [split_from]. now rewrite IH.
  - change (String a x +:+ ", " +:+ join ", " (y :: l))
      with (String a (x +:+ ", " +:+ join ", " (y :: l))).
    change "," with (String "," EmptyString) in Hx. cbn [includes] in Hx.
    rewrite strip_prefix_cons in Hx.
    destruct (Ascii.eqb "," a) eqn:Ha; [discriminate|].
    cbn [split_from]. rewrite (match_comma_miss at0 a _ Ha).
    rewrite IHx by exact Hx. reflexivity.
Qed.

(** X19: the tags of an article are the pieces of the comment between the
    commas, without the white space after a comma: a list of tags without
    commas, none beginning with white space, written with a comma and a
    space between them, is read back as that list. *)
Theorem tags_round_trip (l : list string) :
  l <> [] ->
  Forall (fun x => includes "," x = false /\ span is_space x = O) l ->
  split re_comma (join ", " l) = l.
Proof.
  intros Hne Hall. rewrite <- (split_join l true true Hne Hall) at 2.
  unfold split. destruct (join ", " l); reflexivity.
Qed.

Lemma tags_round_trip_witness :
  split re_comma "Networking, Linux, Perl" = ["Networking"; "Linux"; "Perl"].
Proof.
  apply (tags_round_trip ["Networking"; "Linux"; "Perl"]); [discriminate|].
  repeat constructor.
Defined.

End Comments.

(** ** The blockquote renderer and the word count *)

Section Markup.
Import JS Regex Api.

Lemma search_anchored (r : regex) (idx : nat) (s : string) :
  search (Bos :: r) false idx s = None.
Proof.
  revert idx. induction s as [|a s IH]; intros idx; [reflexivity|].
  cbn [search match_at run andb]. apply IH.
Qed.

(** X20: a blockquote of one or more paragraphs that does not begin with
    a marker is emitted between [<blockquote>] tags without the paragraph
    tag that opens it and the one that closes it; the tags between two
    paragraphs stay, so that two paragraphs [a] and [b] give
    [<blockquote>a</p> <p>b</blockquote>]. *)
Theorem plain_blockquote_unwrapped (content : string) :
  content <> EmptyString ->
  strip_prefix "[!" content = None ->
  Blockquote.blockquote ("<p>" +:+ content +:+ "</p>" +:+ nl)
  = "<blockquote>" +:+ content +:+ "</blockquote>".
Proof.
  intros Hne Hmark. unfold Blockquote.blockquote. cbv zeta.
  rewrite (unwrap_paragraph content Hne).
  assert (Hm : exec Blockquote.re_marker content = None).
  { unfold exec. destruct content as [|a s]; [contradiction|].
    cbn [search]. unfold match_at at 1. unfold Blockquote.re_marker at 1.
    cbn [run andb Nat.eqb]. rewrite Hmark. apply search_anchored. }
  now rewrite Hm.
Qed.

Lemma plain_blockquote_unwrapped_witness :
  Blockquote.blockquote ("<p>One.</p>" +:+ nl +:+ "<p>Two.</p>" +:+ nl)
  = "<blockquote>One.</p>" +:+ nl +:+ "<p>Two.</blockquote>".
Proof.
  apply (plain_blockquote_unwrapped ("One.</p>" +:+ nl +:+ "<p>Two."));
    [discriminate | reflexivity].
Defined.

(** *** The word count *)

Lemma scan_tag_anywhere (at0 : bool) (skip : nat) (s : string) :
  scan re_tag at0 skip s = scan re_tag true skip s.
Proof. destruct skip, s; reflexivity. Qed.

Lemma match_tag_miss (at0 : bool) (a : ascii) (s : string) :
  Ascii.eqb "<" a = false -> match_at re_tag at0 (String a s) = None.
Proof.
  intros H. unfold match_at, re_tag. cbn [run].
  change "<" with (String "<" EmptyString). now rewrite strip_prefix_cons, H.
Qed.

Lemma first_char_absent (c a : ascii) (s : string) :
  includes (String c EmptyString) (String a s) = false ->
  Ascii.eqb c a = false /\ includes (String c EmptyString) s = false.
Proof.
  cbn [includes]. rewrite strip_prefix_cons.
  destruct (Ascii.eqb c a); [discriminate | auto].
Qed.

(** The tag pattern on a [<], a text of one line without [>], and a [>]. *)
Lemma match_tag_hit (at0 : bool) (mid post : string) :
  mid <> EmptyString ->
  all_chars is_dot mid = true ->
  includes ">" mid = false ->
  match_at re_tag at0 ("<" +:+ mid +:+ ">" +:+ post)
  = Some (S (String.length mid + 1), no_caps).
Proof.
  intros Hne Hdot Hclose. unfold match_at, re_tag. cbn [run]. rewrite strip_prefix_app.
  cbn [String.length Nat.add].
  apply rep_lazy_stops; [exact Hdot | | destruct mid; [contradiction | cbn; lia] |].
  - intros v u Hvu Hu p. rewrite Hvu in Hclose. apply includes_suffix in Hclose.
    destruct u as [|b u]; [contradiction|].
    apply first_char_absent in Hclose as [Hb _].
    change (String b u +:+ ">" +:+ post) with (String b (u +:+ ">" +:+ post)).
    change ">" with (String ">" EmptyString) at 1. now rewrite strip_prefix_cons, Hb.
  - rewrite strip_prefix_app. reflexivity.
Qed.

(** What is in front of the first [<] is kept by the removal of tags. *)
Lemma tags_scan_prefix (pre s : string) (at0 : bool) :
  includes "<" pre = false ->
  rebuild (fun _ _ => EmptyString) (scan re_tag at0 0 (pre +:+ s))
  = pre +:+ rebuild (fun _ _ => EmptyString) (scan re_tag true 0 s).
Proof.
  intros Hpre. revert at0. induction pre as [|a pre IH]; intros at0.
  - change (EmptyString +:+ s) with s. now rewrite scan_tag_anywhere.
  - apply first_char_absent in Hpre as [Ha Hpre].
    change (String a pre +:+ s) with (String a (pre +:+ s)).
    cbn [scan]. rewrite (match_tag_miss at0 a _ Ha). cbn [rebuild].
    now rewrite (IH Hpre).
Qed.

Lemma tags_keep_prefix (pre s : string) :
  includes "<" pre = false ->
  replace_all_empty re_tag (pre +:+ s) = pre +:+ replace_all_empty re_tag s.
Proof. apply tags_scan_prefix. Qed.

Lemma tags_drop_brackets (mid post : string) :
  mid <> EmptyString ->
  all_chars is_dot mid = true ->
  includes ">" mid = false ->
  replace_all_empty re_tag ("<" +:+ mid +:+ ">" +:+ post) = replace_all_empty re_tag post.
Proof.
  intros Hne Hdot Hclose. unfold replace_all_empty, replace_all_with.
  change ("<" +:+ mid +:+ ">" +:+ post) with (String "<" (mid +:+ ">" +:+ post)).
  pose proof (match_tag_hit true mid post Hne Hdot Hclose) as Hm.
  change ("<" +:+ mid +:+ ">" +:+ post) with (String "<" (mid +:+ ">" +:+ post)) in Hm.
  cbn [scan]. rewrite Hm. cbn [rebuild].
  replace (mid +:+ ">" +:+ post) with ((mid +:+ ">") +:+ post) by apply append_assoc.
  replace (String.length mid + 1)%nat with (String.length (mid +:+ ">"))
    by (rewrite append_length; reflexivity).
  rewrite scan_skip. now rewrite scan_tag_anywhere.
Qed.

(** X21: what stands between a [<] and the next [>] of its line is not
    counted, tag or not: the word count of a text is the one of the text
    without its first bracketed part. *)
Theorem angle_brackets_not_counted (pre mid post : string) :
  includes "<" pre = false ->
  mid <> EmptyString ->
  all_chars is_dot mid = true ->
  includes ">" mid = false ->
  count_words (pre +:+ "<" +:+ mid +:+ ">" +:+ post) = count_words (pre +:+ post).
Proof.
  intros Hpre Hne Hdot Hclose. unfold count_words, strip_markup.
  rewrite !(tags_keep_prefix pre) by exact Hpre.
  now rewrite tags_drop_brackets.
Qed.

Lemma angle_brackets_not_counted_witness :
  count_words "if a < b and c > d then" = Some 4%nat.
Proof.
  change (count_words ("if a " +:+ "<" +:+ " b and c " +:+ ">" +:+ " d then") = Some 4%nat).
  rewrite (angle_brackets_not_counted "if a " " b and c " " d then");
    reflexivity || discriminate.
Defined.

(** The scan for a pattern that begins with a text the input does not
    hold changes nothing. *)
Lemma scan_absent (l : string) (r : regex) (f : string -> (nat -> string) -> string)
    (s : string) (at0 : bool) :
  includes l s = false -> rebuild f (scan (Lit l :: r) at0 0 s) = s.
Proof.
  revert at0. induction s as [|a s IH]; intros at0 H.
  - cbn [includes] in H. destruct (strip_prefix l EmptyString) eqn:Hp; [discriminate|].
    cbn [scan]. unfold match_at. cbn [run]. now rewrite Hp.
  - cbn [includes] in H. destruct (strip_prefix l (String a s)) eqn:Hp; [discriminate|].
    cbn [scan]. unfold match_at. cbn [run]. rewrite Hp. cbn [rebuild]. now rewrite IH.
Qed.

(** X22: a text without [<], without a fence of three backquotes and
    without [[] is counted as it is: nothing is removed before the words
    are counted, and the count is the number of runs of word characters. *)
Theorem plain_text_counted_as_is (text : string) :
  includes "<" text = false ->
  includes "```" text = false ->
  includes "[" text = false ->
  strip_markup text = text /\
  count_words text = match Notions.word_runs false text with
                     | O => None
                     | S n => Some (S n)
                     end.
Proof.
  intros Htag Hfence Hlink.
  assert (Hsame : strip_markup text = text).
  { unfold strip_markup, replace_all_group1, replace_all_empty, replace_all_with.
    unfold re_tag at 1. rewrite (scan_absent "<") by exact Htag.
    unfold re_fence at 1. rewrite (scan_absent "```") by exact Hfence.
    unfold re_link at 1. now rewrite (scan_absent "[") by exact Hlink. }
  split; [exact Hsame|]. now rewrite count_words_runs, Hsame.
Qed.

Lemma plain_text_counted_as_is_witness :
  count_words "Fail-fast isn't slow." = Some 5%nat.
Proof.
  destruct (plain_text_counted_as_is "Fail-fast isn't slow.") as [_ H];
    [reflexivity | reflexivity | reflexivity |].
  exact H.
Defined.

(** *** The removals of the word count, one by one *)

(** A lazy run of a line before a [>]. *)
Lemma lazy_close_angle (c : caps) (t : string) (pos n : nat) :
  (1 <= n)%nat ->
  rep_run (fun s' pos' =>
             match strip_prefix ">" s' with
             | Some _ => Some ((pos' + 1)%nat, c)
             | None => None
             end) false 1 is_dot t pos n
  = option_map (fun k => ((pos + k)%nat, c)) (Notions.close_angle t).
Proof.
  revert pos n. induction t as [|a t IH]; intros pos n Hn.
  - cbn [rep_run Notions.close_angle strip_prefix option_map].
    destruct (1 <=? n)%nat; reflexivity.
  - cbn [rep_run Notions.close_angle].
    replace (1 <=? n)%nat with true by (symmetry; apply Nat.leb_le; exact Hn).
    change ">" with (String ">" EmptyString) at 1 2. rewrite strip_prefix_cons.
    destruct (Ascii.eqb ">" a) eqn:Ha.
    + apply Ascii.eqb_eq in Ha. subst a. reflexivity.
    + destruct (is_dot a); [|reflexivity].
      rewrite IH by lia. destruct (Notions.close_angle t); [|reflexivity].
      cbn [option_map]. do 2 f_equal. lia.
Qed.

Lemma match_tag_body (at0 : bool) (a : ascii) (s : string) :
  match_at re_tag at0 (String a s)
  = if Ascii.eqb "<" a
    then option_map (fun n => (S n, no_caps)) (Notions.angle_body s)
    else None.
Proof.
  unfold match_at, re_tag. cbn [run].
  change "<" with (String "<" EmptyString) at 1. rewrite strip_prefix_cons.
  destruct (Ascii.eqb "<" a); [|reflexivity].
  cbn [strip_prefix String.length Nat.add].
  destruct s as [|b t]; [reflexivity|].
  cbn [rep_run Nat.leb Notions.angle_body]. destruct (is_dot b); [|reflexivity].
  rewrite lazy_close_angle by lia.
  destruct (Notions.close_angle t); reflexivity.
Qed.

Lemma tags_cut (s : string) (skip : nat) (at0 : bool) :
  rebuild (fun _ _ => EmptyString) (scan re_tag at0 skip s) = Notions.cut_angles skip s.
Proof.
  revert skip at0. induction s as [|a s IH]; intros skip at0.
  - destruct skip; reflexivity.
  - destruct skip as [|k]; cbn [scan Notions.cut_angles]; [|apply IH].
    rewrite match_tag_body. destruct (Ascii.eqb "<" a).
    + destruct (Notions.angle_body s) as [n|]; cbn [option_map rebuild].
      * change (EmptyString +:+ ?x) with x. apply IH.
      * now rewrite IH.
    + cbn [rebuild]. now rewrite IH.
Qed.

(** A lazy run of any characters before a fence. *)
Lemma lazy_close_fence (c : caps) (t : string) (pos n : nat) :
  (1 <= n)%nat ->
  rep_run (fun s' pos' =>
             match strip_prefix "```" s' with
             | Some _ => Some ((pos' + 3)%nat, c)
             | None => None
             end) false 1 is_any t pos n
  = option_map (fun k => ((pos + k)%nat, c)) (Notions.close_fence t).
Proof.
  revert pos n. induction t as [|a t IH]; intros pos n Hn.
  - cbn [rep_run Notions.close_fence strip_prefix option_map].
    destruct (1 <=? n)%nat; reflexivity.
  - cbn [rep_run Notions.close_fence is_any].
    replace (1 <=? n)%nat with true by (symmetry; apply Nat.leb_le; exact Hn).
    destruct (strip_prefix "```" (String a t)); [reflexivity|].
    rewrite IH by lia. destruct (Notions.close_fence t); [|reflexivity].
    cbn [option_map]. do 2 f_equal. lia.
Qed.

Lemma match_fence_body (at0 : bool) (s : string) :
  match_at re_fence at0 s
  = match strip_prefix "```" s with
    | Some rest => option_map (fun n => ((3 + n)%nat, no_caps)) (Notions.fence_body rest)
    | None => None
    end.
Proof.
  unfold match_at, re_fence. cbn [run].
  destruct (strip_prefix "```" s) as [rest|]; [|reflexivity].
  cbn [String.length Nat.add].
  destruct rest as [|b t]; [reflexivity|].
  cbn [rep_run Nat.leb Notions.fence_body is_any].
  rewrite lazy_close_fence by lia.
  destruct (Notions.close_fence t); [|reflexivity].
  cbn [option_map]. do 2 f_equal.
Qed.

Lemma fences_cut (s : string) (skip : nat) (at0 : bool) :
  rebuild (fun _ _ => EmptyString) (scan re_fence at0 skip s) = Notions.cut_fences skip s.
Proof.
  revert skip at0. induction s as [|a s IH]; intros skip at0.
  - destruct skip; reflexivity.
  - destruct skip as [|k]; cbn [scan Notions.cut_fences]; [|apply IH].
    rewrite match_fence_body.
    destruct (strip_prefix "```" (String a s)) as [rest|].
    + destruct (Notions.fence_body rest) as [n|]; cbn [option_map rebuild Nat.add].
      * change (EmptyString +:+ ?x) with x. apply IH.
      * now rewrite IH.
    + cbn [rebuild]. now rewrite IH.
Qed.

(** A greedy run whose continuation wants a character outside the class
    goes to the end of the run, and nowhere else. *)
Lemma rep_greedy_exact (k : string -> nat -> option (nat * caps)) (min : nat)
    (cls : ascii -> bool) (s : string) (pos n : nat) :
  (forall c t p, cls c = true -> k (String c t) p = None) ->
  rep_run k true min cls s pos n
  = if (min <=? n + span cls s)%nat
    then k (drop (span cls s) s) (pos + span cls s)%nat
    else None.
Proof.
  intros Hk. revert pos n. induction s as [|a s IH]; intros pos n.
  - cbn [rep_run span drop]. now rewrite !Nat.add_0_r.
  - cbn [rep_run span]. destruct (cls a) eqn:Ha.
    + rewrite IH. rewrite (Hk a s pos Ha).
      replace (n + S (span cls s))%nat with (S n + span cls s)%nat by lia.
      replace (pos + S (span cls s))%nat with (S pos + span cls s)%nat by lia.
      cbn [drop].
      destruct (S n + span cls s)%nat eqn:E; [lia|]. rewrite <- E.
      destruct (min <=? S n + span cls s)%nat;
        [destruct (k _ _); [reflexivity|] |]; destruct (min <=? n)%nat; reflexivity.
    + cbn [drop]. now rewrite !Nat.add_0_r.
Qed.

(** The link pattern at a character. *)
Lemma match_link_at (at0 : bool) (a : ascii) (s : string) :
  match Notions.link_at s with
  | Some (text, n) =>
      if Ascii.eqb "[" a
      then exists c, match_at re_link at0 (String a s) = Some (S n, c) /\
                     group (String a s) c 1 = text
      else match_at re_link at0 (String a s) = None
  | None => match_at re_link at0 (String a s) = None
  end.
Proof.
  assert (Hmiss : Ascii.eqb "[" a = false -> match_at re_link at0 (String a s) = None).
  { intros Ha. unfold match_at, re_link. cbn [run].
    change "[" with (String "[" EmptyString) at 1. now rewrite strip_prefix_cons, Ha. }
  assert (Hhit : Ascii.eqb "[" a = true ->
                 match_at re_link at0 (String a s)
                 = rep_run
                     (fun s' pos' =>
                        match strip_prefix "](" s' with
                        | Some s'' =>
                            rep_run
                              (fun s3 pos3 =>
                                 match strip_prefix ")" s3 with
                                 | Some _ =>
                                     Some ((pos3 + 1)%nat,
                                           close_group 2 pos3
                                             (open_group 2 (pos' + 2)
                                                (close_group 1 pos' (open_group 1 1 no_caps))))
                                 | None => None
                                 end) true 1 (is_not ")") s'' (pos' + 2) 0
                        | None => None
                        end) true 1 (is_not "]") s 1 0).
  { intros Ha. unfold match_at, re_link. cbn [run].
    change "[" with (String "[" EmptyString) at 1. rewrite strip_prefix_cons, Ha.
    reflexivity. }
  destruct (Ascii.eqb "[" a) eqn:Ha.
  2:{ rewrite (Hmiss eq_refl). destruct (Notions.link_at s) as [[text n]|]; reflexivity. }
  rewrite (Hhit eq_refl). clear Hmiss Hhit.
  rewrite rep_greedy_exact.
  2:{ intros c t p Hc. change "](" with (String "]" "(") at 1. rewrite strip_prefix_cons.
      unfold is_not in Hc. rewrite Ascii.eqb_sym. now destruct (Ascii.eqb c "]"). }
  unfold Notions.link_at. cbn [Nat.add].
  destruct (span (is_not "]") s) as [|n] eqn:Hn; [reflexivity|].
  cbn [Nat.leb].
  destruct (strip_prefix "](" (drop (S n) s)) as [u|]; [|reflexivity].
  rewrite rep_greedy_exact.
  2:{ intros c t p Hc. change ")" with (String ")" EmptyString) at 1.
      rewrite strip_prefix_cons.
      unfold is_not in Hc. rewrite Ascii.eqb_sym. now destruct (Ascii.eqb c ")"). }
  cbn [Nat.add].
  destruct (span (is_not ")") u) as [|m] eqn:Hm; [reflexivity|].
  cbn [Nat.leb].
  destruct (strip_prefix ")" (drop (S m) u)); [|reflexivity].
  eexists. split.
  - do 2 f_equal; try lia.
  - unfold group. cbn [close_group open_group opened closed assoc Nat.eqb]. unfold substring.
    replace (S (S n) - 1)%nat with (S n) by lia. reflexivity.
Qed.

Lemma links_collapsed (s : string) (skip : nat) (at0 : bool) :
  rebuild (fun _ g => g 1%nat) (scan re_link at0 skip s) = Notions.collapse_links skip s.
Proof.
  revert skip at0. induction s as [|a s IH]; intros skip at0.
  - destruct skip; reflexivity.
  - destruct skip as [|k]; cbn [scan Notions.collapse_links]; [|apply IH].
    pose proof (match_link_at at0 a s) as H.
    destruct (Notions.link_at s) as [[text n]|].
    + destruct (Ascii.eqb "[" a).
      * destruct H as (c & -> & Hg). cbn [rebuild]. now rewrite Hg, IH.
      * rewrite H. cbn [rebuild]. now rewrite IH.
    + rewrite H. destruct (Ascii.eqb "[" a); cbn [rebuild]; now rewrite IH.
Qed.

(** The removals of the word count are the three removals said without
    patterns. *)
Lemma strip_markup_stripped (text : string) :
  strip_markup text = Notions.stripped text.
Proof.
  unfold strip_markup, Notions.stripped, replace_all_group1, replace_all_empty,
    replace_all_with.
  now rewrite tags_cut, fences_cut, links_collapsed.
Qed.

(** C8 (amended): for every article text in which one is left, the computed
    word count equals the number of maximal runs of word characters
    (letters, digits and underscore) that remain after three removals made
    in this order: every stretch from a [<] to the first [>] that follows
    at least one character on the same line (HTML tags, and whatever else
    is so bracketed); every stretch from a fence of three backquotes to
    the first fence that follows at least one character; and, of every
    link [[text](url)] whose text has no []] and whose address has no [)],
    neither being empty, all but its text. *)
Theorem word_count_counts_word_runs (text : string) :
  Notions.word_runs false (Notions.stripped text) <> O ->
  count_words text = Some (Notions.word_runs false (Notions.stripped text)).
Proof.
  intros H. rewrite count_words_runs, strip_markup_stripped.
  destruct (Notions.word_runs false (Notions.stripped text)); [contradiction | reflexivity].
Qed.

Lemma word_count_counts_word_runs_witness :
  Notions.stripped "Hello **world**, [link](http://x) <b>here</b>. ```let x = 1;``` End"
    = "Hello **world**, link here.  End" /\
  count_words "Hello **world**, [link](http://x) <b>here</b>. ```let x = 1;``` End"
    = Some 5%nat.
Proof.
  split; [reflexivity|].
  exact (word_count_counts_word_runs
           "Hello **world**, [link](http://x) <b>here</b>. ```let x = 1;``` End"
           ltac:(vm_compute; discriminate)).
Defined.

End Markup.

(** ** The preload with its fetches in flight *)

Section Flights.
Import JS Regex Api Preload.

















(** With one fetch in flight at a time the preload is the one of
    [preload_each]: a fetch started and come back is [get_cached_url]. *)
Lemma start_land (env : Env) (st : Server) (slug : string) :
  land (snd (start env st slug)) (fst (start env st slug))
  = get_cached_url env st (blog_url slug).
Proof.
  unfold start, land, get_cached_url.
  destruct (if debug env then exec re_blog (blog_url slug) else None) as [m|].
  - destruct (read_file env (clock st) (local_file (groups m 1%nat))) as [dt [text|err]];
      destruct st; reflexivity.
  - destruct (Cache.has (cache st) (clock st) (blog_url slug)).
    + destruct (Cache.get (cache st) (clock st) (blog_url slug)) as [v c].
      destruct st; reflexivity.
    + destruct (request_get env (clock st) (blog_url slug)) as [dt [text|err]];
        destruct st; reflexivity.
Qed.

Lemma start_slug (env : Env) (st : Server) (slug : string) :
  slug_of (fst (start env st slug)) = slug.
Proof.
  unfold start.
  destruct (if debug env then exec re_blog (blog_url slug) else None) as [m|].
  - now destruct (read_file env (clock st) (local_file (groups m 1%nat))).
  - destruct (Cache.has (cache st) (clock st) (blog_url slug)).
    + now destruct (Cache.get (cache st) (clock st) (blog_url slug)).
    + now destruct (request_get env (clock st) (blog_url slug)).
Qed.

Lemma replenish_full (env : Env) (st : Server) (rest : list string) (f : flight) :
  replenish env 1 st rest [f] = (st, rest, [f]).
Proof. destruct rest; reflexivity. Qed.

Lemma one_in_flight (env : Env) (slugs : list string) (st : Server)
    (seen : list (string * reply)) :
  exists r, drain env 1 (length slugs) (mkRun st slugs [] None seen)
            = Some (fst (preload_each env slugs st), r) /\
            server r = snd (preload_each env slugs st).
Proof.
  revert st seen. induction slugs as [|slug rest IH]; intros st seen.
  - eexists. split; reflexivity.
  - cbn [length drain preload_each]. unfold step.
    cbn [failed waiting flying server landed replenish length Nat.ltb Nat.leb app].
    rewrite <- start_land. pose proof (start_slug env st slug) as Hslug.
    destruct (start env st slug) as [f st0]. cbn [fst snd] in *.
    rewrite replenish_full. cbn [pick].
    destruct (land st0 f) as [[text|err] st1] eqn:Hland.
    + rewrite Hslug. destruct (build_article env slug text) as [a|err|exn].
      * apply IH.
      * destruct rest; eexists; split; reflexivity.
      * eexists; split; reflexivity.
    + destruct rest; eexists; split; reflexivity.
Qed.




End Flights.
